(** * Offender-bulletin pipeline: normalizer, reconciler, parsers, AI adapter

    A shallow embedding of the extraction-and-reconciliation core of the
    drunk-driving offender registry:

    - [src/services/processor.js]: [processDmvData],
      [validateAndNormalize], [getValueFromMultipleKeys], [parseDate],
      [normalizeGender], [isStructuredData];
    - [src/services/aiService.ts]: [getMockOffenderData],
      [extractTextFromImage], [extractStructuredData], and the module
      initialisation; [src/services/aiService.js]: [extractStructuredData];
    - [src/services/pdfParser.ts]: [parseOffenderData];
    - [src/services/openaiService.ts] (unnamed part 012):
      [simulateExtractDataFromPDF];
    - [src/crawler/strategies/tableCrawler.ts] (unnamed part 009):
      [tableCrawler], [checkIfTargetTable], [isValidRecord];
    - [src/crawler/strategies/imageCrawler.ts] (unnamed part 008): the
      record it builds from each result of the adapter;
    - [src/tools/importDataToDb.ts] (unnamed part 006): [parseRocDate];
    - [src/models/offenderRecord.ts]: the members of the class exported
      as [OffenderRecord];
    - [src/services/databaseService.ts]: the lookup of
      [saveOffendersToDatabase], [validateFormData], [parseFormData];
    - [src/utils/config.ts] and [src/utils/config.js] (unnamed parts 013
      and 014): [parseDmvsList]; [src/crawler/index.js]: [runCrawlers].

    JavaScript strings are sequences of UTF-16 code units, numbers that the
    code only uses as integers are [Z], [null] and [undefined] are kept
    apart where the code tells them apart, and exceptions are an explicit
    [result].  What a function reads from outside (the clock, the random
    generator, the outcome of a request) is an argument. *)

From Stdlib Require Import List String Ascii NArith ZArith Bool Lia.
From Stdlib Require Import DecimalString DecimalPos DecimalN.
Import ListNotations.

Set Implicit Arguments.

(* ===================================================================== *)
(** ** JavaScript strings *)
(* ===================================================================== *)

Module JsString.

(** A string value: its UTF-16 code units. *)
Definition jsstring := list N.

Fixpoint bytes_of (s : string) : list N :=
  match s with
  | EmptyString => []
  | String a r => N_of_ascii a :: bytes_of r
  end.

(** Code points of a UTF-8 byte sequence (the encoding of the literals of
    this file); a truncated sequence decodes to U+FFFD. *)
Fixpoint utf8_points (bs : list N) : list N :=
  match bs with
  | [] => []
  | b0 :: r0 =>
      if (b0 <? 128)%N then b0 :: utf8_points r0
      else if (b0 <? 224)%N then
        match r0 with
        | b1 :: r1 => ((b0 mod 32) * 64 + b1 mod 64)%N :: utf8_points r1
        | _ => [65533%N]
        end
      else if (b0 <? 240)%N then
        match r0 with
        | b1 :: b2 :: r2 =>
            ((b0 mod 16) * 4096 + (b1 mod 64) * 64 + b2 mod 64)%N
              :: utf8_points r2
        | _ => [65533%N]
        end
      else
        match r0 with
        | b1 :: b2 :: b3 :: r3 =>
            ((b0 mod 8) * 262144 + (b1 mod 64) * 4096
             + (b2 mod 64) * 64 + b3 mod 64)%N :: utf8_points r3
        | _ => [65533%N]
        end
  end.

Definition utf16_units (cp : N) : list N :=
  if (cp <? 65536)%N then [cp]
  else [(55296 + (cp - 65536) / 1024)%N; (56320 + (cp - 65536) mod 1024)%N].

(** The string value of a source literal. *)
Definition js (s : string) : jsstring :=
  flat_map utf16_units (utf8_points (bytes_of s)).

Fixpoint str_eqb (a b : jsstring) : bool :=
  match a, b with
  | [], [] => true
  | x :: a', y :: b' => (x =? y)%N && str_eqb a' b'
  | _, _ => false
  end.

Definition opt_eqb (a b : option jsstring) : bool :=
  match a, b with
  | None, None => true
  | Some x, Some y => str_eqb x y
  | _, _ => false
  end.

(** [\d] *)
Definition is_digit (c : N) : bool := (48 <=? c)%N && (c <=? 57)%N.

(** [\s], and what [trim] strips: WhiteSpace and LineTerminator. *)
Definition is_space (c : N) : bool :=
  (c =? 9)%N || (c =? 10)%N || (c =? 11)%N || (c =? 12)%N || (c =? 13)%N
  || (c =? 32)%N || (c =? 160)%N || (c =? 5760)%N
  || ((8192 <=? c)%N && (c <=? 8202)%N)
  || (c =? 8232)%N || (c =? 8233)%N || (c =? 8239)%N || (c =? 8287)%N
  || (c =? 12288)%N || (c =? 65279)%N.

Fixpoint drop_while (p : N -> bool) (s : jsstring) : jsstring :=
  match s with
  | c :: r => if p c then drop_while p r else s
  | [] => []
  end.

Definition trimStart (s : jsstring) : jsstring := drop_while is_space s.
Definition trim (s : jsstring) : jsstring :=
  rev (drop_while is_space (rev (drop_while is_space s))).

Fixpoint startsWith (s pre : jsstring) : bool :=
  match pre, s with
  | [], _ => true
  | p :: pre', c :: s' => (p =? c)%N && startsWith s' pre'
  | _ :: _, [] => false
  end.

(** [s.includes(sub)] *)
Fixpoint includes (s sub : jsstring) : bool :=
  startsWith s sub ||
  match s with
  | [] => false
  | _ :: r => includes r sub
  end.

(** [s.split(sep)] for separators that are single code units chosen by
    [p]: [split('\n')], [split('/')], [split('T')], [split(/年|月|日/)]. *)
Fixpoint split_at (p : N -> bool) (cur : jsstring) (s : jsstring)
  : list jsstring :=
  match s with
  | [] => [rev cur]
  | c :: r => if p c then rev cur :: split_at p [] r
              else split_at p (c :: cur) r
  end.

Definition split_where (p : N -> bool) (s : jsstring) : list jsstring :=
  split_at p [] s.

Definition is_char (k : N) (c : N) : bool := (c =? k)%N.

(** [s.replace(/\s+/g, ' ')] *)
Fixpoint collapse_spaces (in_run : bool) (s : jsstring) : jsstring :=
  match s with
  | [] => []
  | c :: r =>
      if is_space c
      then (if in_run then collapse_spaces true r
            else 32%N :: collapse_spaces true r)
      else c :: collapse_spaces false r
  end.

(** Decimal digits of a natural number, as [String(n)] prints an
    integer. *)
Definition decimal (n : N) : jsstring :=
  bytes_of (NilZero.string_of_uint (N.to_uint n)).

Definition decimalZ (z : Z) : jsstring :=
  if (z <? 0)%Z then 45%N :: decimal (Z.to_N (- z)) else decimal (Z.to_N z).

(** [String(n).padStart(w, '0')] *)
Definition pad0 (w : nat) (n : N) : jsstring :=
  let d := decimal n in
  repeat 48%N (w - List.length d) ++ d.

Definition hex_digit (d : N) : N :=
  if (d <? 10)%N then (48 + d)%N else (97 + (d - 10))%N.

Definition hex4 (c : N) : jsstring :=
  [hex_digit (c / 4096 mod 16); hex_digit (c / 256 mod 16);
   hex_digit (c / 16 mod 16); hex_digit (c mod 16)]%N.

End JsString.
Export JsString.

(* ===================================================================== *)
(** ** Regular expressions

    The expressions of the source are kept as syntax and run by a
    backtracking matcher with the priorities of ECMAScript: alternatives
    left to right, greedy repetition longest first, lazy repetition
    shortest first. *)
(* ===================================================================== *)

Module Regex.

Inductive regex : Type :=
| RChar (p : N -> bool)
| REps
| RSeq (a b : regex)
| RAlt (a b : regex)
| RRep (greedy : bool) (lo : nat) (hi : option nat) (a : regex)
| RGroup (i : nat) (a : regex)
| RBol.

Record mstate : Type := MState {
  pos : nat;
  rest : jsstring;
  caps : list (nat * jsstring)
}.

Definition advance (st : mstate) (t : jsstring) : mstate :=
  {| pos := S (pos st); rest := t; caps := caps st |}.

Definition set_cap (i : nat) (txt : jsstring) (st : mstate) : mstate :=
  {| pos := pos st; rest := rest st;
     caps := (i, txt) :: filter (fun c => negb (Nat.eqb (fst c) i)) (caps st) |}.

Definition below (n : nat) (hi : option nat) : bool :=
  match hi with
  | None => true
  | Some h => Nat.ltb n h
  end.

Definition or_else {R} (a : option R) (b : unit -> option R) : option R :=
  match a with
  | Some x => Some x
  | None => b tt
  end.

Fixpoint run {R} (r : regex) (st : mstate) (k : mstate -> option R)
  : option R :=
  match r with
  | RChar p =>
      match rest st with
      | c :: t => if p c then k (advance st t) else None
      | [] => None
      end
  | REps => k st
  | RSeq a b => run a st (fun st1 => run b st1 k)
  | RAlt a b => or_else (run a st k) (fun _ => run b st k)
  | RGroup i a =>
      run a st
        (fun st1 => k (set_cap i (firstn (pos st1 - pos st) (rest st)) st1))
  | RBol => if Nat.eqb (pos st) 0 then k st else None
  | RRep greedy lo hi a =>
      (fix loop (fuel n : nat) (s : mstate) {struct fuel} : option R :=
         let more (_ : unit) :=
           match fuel with
           | 0 => None
           | S f =>
               if below n hi
               then run a s
                      (fun s1 =>
                         if Nat.eqb (pos s1) (pos s) && Nat.leb lo n
                         then None
                         else loop f (S n) s1)
               else None
           end in
         let stop (_ : unit) := if Nat.leb lo n then k s else None in
         if greedy then or_else (more tt) stop else or_else (stop tt) more)
        (S (List.length (rest st)) + lo) 0 st
  end.

Record rmatch : Type := RMatch {
  m_index : nat;
  m_text : jsstring;
  m_groups : list (nat * jsstring)
}.

Definition match_at (r : regex) (s : jsstring) (i : nat) : option rmatch :=
  run r {| pos := i; rest := skipn i s; caps := [] |}
    (fun st => Some {| m_index := i;
                       m_text := firstn (pos st - i) (skipn i s);
                       m_groups := caps st |}).

Fixpoint search (r : regex) (s : jsstring) (n i : nat) : option rmatch :=
  match match_at r s i with
  | Some m => Some m
  | None =>
      match n with
      | 0 => None
      | S n' => search r s n' (S i)
      end
  end.

(** [s.match(r)] for an expression without the [g] flag. *)
Definition exec (r : regex) (s : jsstring) : option rmatch :=
  search r s (List.length s) 0.

(** [m[i]] of a successful match ([undefined] when the group did not take
    part). *)
Fixpoint group (i : nat) (gs : list (nat * jsstring)) : option jsstring :=
  match gs with
  | [] => None
  | (j, t) :: r => if Nat.eqb i j then Some t else group i r
  end.

Definition star (a : regex) : regex := RRep true 0 None a.
Definition plus (a : regex) : regex := RRep true 1 None a.
Definition lazy_plus (a : regex) : regex := RRep false 1 None a.
Definition between (lo hi : nat) (a : regex) : regex :=
  RRep true lo (Some hi) a.
Definition lit (c : N) : regex := RChar (fun x => (x =? c)%N).
Definition digit : regex := RChar is_digit.
Definition space : regex := RChar is_space.
Definition non_digit : regex := RChar (fun c => negb (is_digit c)).
Definition non_space : regex := RChar (fun c => negb (is_space c)).

Fixpoint seq (rs : list regex) : regex :=
  match rs with
  | [] => REps
  | [r] => r
  | r :: rs' => RSeq r (seq rs')
  end.

Fixpoint word (s : jsstring) : regex :=
  match s with
  | [] => REps
  | [c] => lit c
  | c :: r => RSeq (lit c) (word r)
  end.

End Regex.

(* ===================================================================== *)
(** ** Numbers read from strings, and dates

    A number that the code hands to [Date] is used through
    ToIntegerOrInfinity only, so it is kept as an integer ([None] is NaN).
    Time values are milliseconds since the epoch; day arithmetic is exact,
    and [TimeClip] turns whatever is out of range into an invalid date, as
    it does for the doubles of the engine. *)
(* ===================================================================== *)

Module JsDate.

Definition dec_value (c : N) : option N :=
  if is_digit c then Some (c - 48)%N else None.

Definition hex_value (c : N) : option N :=
  if is_digit c then Some (c - 48)%N
  else if (97 <=? c)%N && (c <=? 102)%N then Some (c - 87)%N
  else if (65 <=? c)%N && (c <=? 70)%N then Some (c - 55)%N
  else None.

(** The longest prefix of digits, as a number; [None] when it is empty. *)
Fixpoint take_digits (val : N -> option N) (radix acc : N) (any : bool)
         (s : jsstring) : option N :=
  match s with
  | c :: r =>
      match val c with
      | Some d => take_digits val radix (acc * radix + d)%N true r
      | None => if any then Some acc else None
      end
  | [] => if any then Some acc else None
  end.

Definition strip_sign (s : jsstring) : bool * jsstring :=
  match s with
  | 45%N :: r => (true, r)
  | 43%N :: r => (false, r)
  | _ => (false, s)
  end.

Definition signed (neg : bool) (m : N) : Z :=
  if neg then (- Z.of_N m)%Z else Z.of_N m.

(** [parseInt(s)] without a radix. *)
Definition parseInt (s : jsstring) : option Z :=
  let (neg, body) := strip_sign (trimStart s) in
  let mag :=
    match body with
    | 48%N :: x :: r =>
        if (x =? 120)%N || (x =? 88)%N
        then take_digits hex_value 16 0 false r
        else take_digits dec_value 10 0 false body
    | _ => take_digits dec_value 10 0 false body
    end in
  option_map (signed neg) mag.

Fixpoint span_digits (s : jsstring) : jsstring * jsstring :=
  match s with
  | c :: r => if is_digit c
              then let (d, t) := span_digits r in (c :: d, t)
              else ([], s)
  | [] => ([], [])
  end.

Definition digits_value (ds : jsstring) : N :=
  fold_left (fun acc c => (acc * 10 + (c - 48))%N) ds 0%N.

(** ToIntegerOrInfinity(ToNumber(s)) for a string argument of [Date]:
    the decimal literals [d+], [d+.d*] and [.d+] with an optional sign,
    the empty string as 0.  Exponents, [Infinity] and radix prefixes need
    letters, which [parseDate] has removed before it gets here. *)
Definition string_to_integer (s : jsstring) : option Z :=
  match trim s with
  | [] => Some 0%Z
  | t =>
      let (neg, body) := strip_sign t in
      let (ip, r) := span_digits body in
      match ip, r with
      | _ :: _, [] => Some (signed neg (digits_value ip))
      | _, 46%N :: fr =>
          if forallb is_digit fr
             && negb (Nat.eqb (List.length ip + List.length fr) 0)
          then Some (signed neg (digits_value ip))
          else None
      | _, _ => None
      end
  end.

Definition msPerDay : Z := 86400000.

Definition DayFromYear (y : Z) : Z :=
  (365 * (y - 1970) + (y - 1969) / 4 - (y - 1901) / 100 + (y - 1601) / 400)%Z.

Definition InLeapYear (y : Z) : bool :=
  ((y mod 4 =? 0) && (negb (y mod 100 =? 0) || (y mod 400 =? 0)))%Z.

(** Days of the year before month [m] (0 = January). *)
Definition month_start (leap : bool) (m : Z) : Z :=
  let l := if leap then 1%Z else 0%Z in
  match m with
  | 0 => 0 | 1 => 31 | 2 => 59 + l | 3 => 90 + l | 4 => 120 + l
  | 5 => 151 + l | 6 => 181 + l | 7 => 212 + l | 8 => 243 + l
  | 9 => 273 + l | 10 => 304 + l | _ => 334 + l
  end%Z.

Definition MakeDay (year month date : Z) : Z :=
  let ym := (year + month / 12)%Z in
  let mn := (month mod 12)%Z in
  (DayFromYear ym + month_start (InLeapYear ym) mn + date - 1)%Z.

Definition MakeFullYear (y : Z) : Z :=
  if ((0 <=? y) && (y <=? 99))%Z then (1900 + y)%Z else y.

Definition TimeClip (t : Z) : option Z :=
  if (Z.abs t <=? 8640000000000000)%Z then Some t else None.

(** Year, month (1..12) and day of month of a day number. *)
Definition civil_of_day (d : Z) : Z * Z * Z :=
  let z := (d + 719468)%Z in
  let era := (z / 146097)%Z in
  let doe := (z - era * 146097)%Z in
  let yoe := ((doe - doe / 1460 + doe / 36524 - doe / 146096) / 365)%Z in
  let doy := (doe - (365 * yoe + yoe / 4 - yoe / 100))%Z in
  let mp := ((5 * doy + 2) / 153)%Z in
  let dd := (doy - (153 * mp + 2) / 5 + 1)%Z in
  let m := if (mp <? 10)%Z then (mp + 3)%Z else (mp - 9)%Z in
  let y := (yoe + era * 400 + (if (m <=? 2)%Z then 1 else 0))%Z in
  (y, m, dd).

Definition iso_year (y : Z) : jsstring :=
  if ((0 <=? y) && (y <=? 9999))%Z then pad0 4 (Z.to_N y)
  else (if (y <? 0)%Z then 45%N else 43%N) :: pad0 6 (Z.to_N (Z.abs y)).

(** [date.toISOString()] of a valid time value. *)
Definition toISOString (t : Z) : jsstring :=
  let day := (t / msPerDay)%Z in
  let ms := (t mod msPerDay)%Z in
  let '(y, m, d) := civil_of_day day in
  iso_year y ++ [45%N] ++ pad0 2 (Z.to_N m) ++ [45%N] ++ pad0 2 (Z.to_N d)
    ++ [84%N] ++ pad0 2 (Z.to_N (ms / 3600000))
    ++ [58%N] ++ pad0 2 (Z.to_N (ms / 60000 mod 60))
    ++ [58%N] ++ pad0 2 (Z.to_N (ms / 1000 mod 60))
    ++ [46%N] ++ pad0 3 (Z.to_N (ms mod 1000)) ++ [90%N].

(** [x.split('T')[0]] *)
Definition before_T (s : jsstring) : jsstring :=
  hd [] (split_where (is_char 84%N) s).

End JsDate.
Export JsDate.

(* ===================================================================== *)
(** ** What is left to the engine

    Unicode case mapping, the formats [Date.parse] accepts beyond the ISO
    one, and the local time zone are the engine's.  They are an interface
    here; the one law is that the empty string is not a date. *)
(* ===================================================================== *)

Class JsEngine : Type := {
  toLowerCase : jsstring -> jsstring;
  toUpperCase : jsstring -> jsstring;
  Date_parse : jsstring -> option Z;
  LocalTZA : Z -> Z;
  Date_parse_empty : Date_parse [] = None;
  LocalTZA_bound : forall t, (Z.abs (LocalTZA t) <= msPerDay)%Z
}.

Section EngineDates.
Context {E : JsEngine}.

(** [new Date(str)]; [None] is an invalid date. *)
Definition Date_of_string (s : jsstring) : option Z :=
  match Date_parse s with
  | Some t => TimeClip t
  | None => None
  end.

(** [new Date(year, month, day)]: local time. *)
Definition Date_of_fields (y m d : option Z) : option Z :=
  match y, m, d with
  | Some y, Some m, Some d =>
      let t := (MakeDay (MakeFullYear y) m d * msPerDay)%Z in
      TimeClip (t - LocalTZA t)
  | _, _, _ => None
  end.

(** [getFullYear()], [getMonth() + 1], [getDate()] of a valid date. *)
Definition local_ymd (t : Z) : Z * Z * Z :=
  civil_of_day ((t + LocalTZA t) / msPerDay).

End EngineDates.

(** An engine for the examples: ASCII case mapping, and [Date.parse] on the
    two numeric forms as V8 reads them: [YYYY-MM-DD] is UTC; in [a/b/c] a
    first number that cannot be a day of the month is the year (taken as
    written above 99), otherwise the form is month/day/year; local time. *)
Module ExampleEngine.

Definition ascii_lower (c : N) : N :=
  if (65 <=? c)%N && (c <=? 90)%N then (c + 32)%N else c.
Definition ascii_upper (c : N) : N :=
  if (97 <=? c)%N && (c <=? 122)%N then (c - 32)%N else c.

Definition all_digits (s : jsstring) : bool :=
  forallb is_digit s && negb (Nat.eqb (List.length s) 0).

Definition is_day (n : Z) : bool := ((1 <=? n) && (n <=? 31))%Z.
Definition is_month (n : Z) : bool := ((1 <=? n) && (n <=? 12))%Z.

Definition two_digit_year (y : Z) : Z :=
  if ((0 <=? y) && (y <=? 49))%Z then (y + 2000)%Z
  else if ((50 <=? y) && (y <=? 99))%Z then (y + 1900)%Z
  else y.

Definition num (s : jsstring) : Z := Z.of_N (digits_value s).

Definition parse (tza : Z) (s : jsstring) : option Z :=
  match split_where (is_char 45%N) s with
  | [y; m; d] =>
      if all_digits y && all_digits m && all_digits d
         && Nat.eqb (List.length y) 4 && Nat.eqb (List.length m) 2
         && Nat.eqb (List.length d) 2
         && is_month (num m) && is_day (num d)
      then Some (MakeDay (num y) (num m - 1) (num d) * msPerDay)%Z
      else None
  | _ =>
      match split_where (is_char 47%N) s with
      | [a; b; c] =>
          if all_digits a && all_digits b && all_digits c
          then
            let '(y, m, d) :=
              if is_day (num a) then (num c, num a, num b)
              else (num a, num b, num c) in
            if is_month m && is_day d
            then Some (MakeDay (two_digit_year y) (m - 1) d * msPerDay
                       - tza)%Z
            else None
          else None
      | _ => None
      end
  end.

Definition parse_empty (tza : Z) : parse tza [] = None := eq_refl.

Definition within_a_day (tza : Z) : Prop := (Z.abs tza <= msPerDay)%Z.

Definition engine (tza : Z) (bound : within_a_day tza) : JsEngine :=
  {| toLowerCase := map ascii_lower;
     toUpperCase := map ascii_upper;
     Date_parse := parse tza;
     LocalTZA := fun _ => tza;
     Date_parse_empty := parse_empty tza;
     LocalTZA_bound := fun _ => bound |}.

Definition utc_bound : within_a_day 0 :=
  fun H : (Z.abs 0 ?= msPerDay)%Z = Gt => eq_ind Lt (fun c => match c with Gt => False | _ => True end) I Gt H.

Definition taipei_bound : within_a_day 28800000 :=
  fun H : (Z.abs 28800000 ?= msPerDay)%Z = Gt => eq_ind Lt (fun c => match c with Gt => False | _ => True end) I Gt H.

Definition utc : JsEngine := @engine 0 utc_bound.
(** Asia/Taipei, UTC+8. *)
Definition taipei : JsEngine := @engine 28800000 taipei_bound.

End ExampleEngine.

(* ===================================================================== *)
(** ** Raw records: objects with string, [null] or [undefined] values

    [RawOffenderRecord] is [{[key: string]: string}] and [OffenderData] is
    [{[key: string]: string | null | undefined}]; an item of [rawData] is
    such an object, a string, or (from the AI adapter) an array of such
    objects.  Properties keep their insertion order, which is the order
    in which an engine lists them unless a key is an array index (such
    keys come first). *)
(* ===================================================================== *)

Module JsObject.

Inductive jsval : Type :=
| JUndefined
| JNull
| JStr (s : jsstring).

Definition jsobj := list (jsstring * jsval).

Inductive jsdata : Type :=
| DStr (s : jsstring)
| DObj (o : jsobj)
| DArr (l : list jsobj).

Fixpoint obj_lookup (o : jsobj) (k : jsstring) : option jsval :=
  match o with
  | [] => None
  | (k', v) :: r => if str_eqb k' k then Some v else obj_lookup r k
  end.

(** [k in o] *)
Definition has_key (o : jsobj) (k : jsstring) : bool :=
  match obj_lookup o k with
  | Some _ => true
  | None => false
  end.

(** [o[k]] *)
Definition get (o : jsobj) (k : jsstring) : jsval :=
  match obj_lookup o k with
  | Some v => v
  | None => JUndefined
  end.

(** [o[k] = v]: an existing property keeps its place. *)
Fixpoint obj_set (o : jsobj) (k : jsstring) (v : jsval) : jsobj :=
  match o with
  | [] => [(k, v)]
  | (k', v') :: r =>
      if str_eqb k' k then (k', v) :: r else (k', v') :: obj_set r k v
  end.

Definition truthy (v : jsval) : bool :=
  match v with
  | JStr (_ :: _) => true
  | _ => false
  end.

(** [a || b] *)
Definition or_val (a b : jsval) : jsval := if truthy a then a else b.

(** [String(v)] *)
Definition String_of (v : jsval) : jsstring :=
  match v with
  | JStr s => s
  | JNull => js "null"
  | JUndefined => js "undefined"
  end.

(** A string or [null], as a field of a normalized record holds it. *)
Definition nullable (v : jsval) : option jsstring :=
  match v with
  | JStr s => Some s
  | _ => None
  end.

(** The named own properties that [in] and [data.key] see: an array of
    records has none of the names the normalizer asks for. *)
Definition named_props (d : jsdata) : jsobj :=
  match d with
  | DObj o => o
  | _ => []
  end.

(** *** [JSON.stringify] *)

Definition is_high (c : N) : bool := (55296 <=? c)%N && (c <=? 56319)%N.
Definition is_low (c : N) : bool := (56320 <=? c)%N && (c <=? 57343)%N.

Definition escape_unit (c : N) : jsstring :=
  if (c =? 34)%N then [92; 34]%N
  else if (c =? 92)%N then [92; 92]%N
  else if (c =? 8)%N then [92; 98]%N
  else if (c =? 12)%N then [92; 102]%N
  else if (c =? 10)%N then [92; 110]%N
  else if (c =? 13)%N then [92; 114]%N
  else if (c =? 9)%N then [92; 116]%N
  else if (c <? 32)%N || is_high c || is_low c then [92; 117]%N ++ hex4 c
  else [c].

Fixpoint quote_body (s : jsstring) : jsstring :=
  match s with
  | [] => []
  | c :: r =>
      match r with
      | d :: r' =>
          if is_high c && is_low d then c :: d :: quote_body r'
          else escape_unit c ++ quote_body r
      | [] => escape_unit c
      end
  end.

Definition quote (s : jsstring) : jsstring :=
  [34%N] ++ quote_body s ++ [34%N].

Fixpoint join (sep : jsstring) (l : list jsstring) : jsstring :=
  match l with
  | [] => []
  | [x] => x
  | x :: r => x ++ sep ++ join sep r
  end.

Definition stringify_member (kv : jsstring * jsval) : list jsstring :=
  match snd kv with
  | JUndefined => []
  | JNull => [quote (fst kv) ++ [58%N] ++ js "null"]
  | JStr s => [quote (fst kv) ++ [58%N] ++ quote s]
  end.

Definition stringify_obj (o : jsobj) : jsstring :=
  [123%N] ++ join [44%N] (flat_map stringify_member o) ++ [125%N].

Definition JSON_stringify (d : jsdata) : jsstring :=
  match d with
  | DStr s => quote s
  | DObj o => stringify_obj o
  | DArr l => [91%N] ++ join [44%N] (map stringify_obj l) ++ [93%N]
  end.

End JsObject.
Export JsObject.

(** Exceptions: a call returns or throws an [Error] with a message. *)
Inductive result (A : Type) : Type :=
| Ok (a : A)
| Throw (message : jsstring).
Arguments Ok {A} a.
Arguments Throw {A} message.

(* ===================================================================== *)
(** ** The normalizer ([src/services/processor.js]) *)
(* ===================================================================== *)

Module Processor.

(** One element of [sources]. *)
Record SourceInfo : Type := {
  src_name : jsstring;
  src_url : option jsstring;
  src_imageUrl : option jsstring;
  src_crawlTime : jsstring
}.

(** [normalizedData], once it has passed validation. *)
Record Normalized : Type := {
  name : jsstring;
  idNumber : option jsstring;
  licensePlate : option jsstring;
  violationDate : option jsstring;
  caseNumber : option jsstring;
  gender : option jsstring;
  sources : list SourceInfo;
  rawData : jsstring
}.

(** [!s] for a string or [null]. *)
Definition falsy (s : option jsstring) : bool :=
  match s with
  | Some (_ :: _) => false
  | _ => true
  end.

Fixpoint getValueFromMultipleKeys (data : jsobj) (keys : list jsstring)
  : option jsstring :=
  match keys with
  | [] => None
  | key :: rest =>
      if has_key data key
      then match get data key with
           | JStr s => Some s
           | _ => getValueFromMultipleKeys data rest
           end
      else getValueFromMultipleKeys data rest
  end.

(** What [[^0-9/\-\.年月日]] leaves in place. *)
Definition is_cjk_date_mark (c : N) : bool :=
  (c =? 24180)%N || (c =? 26376)%N || (c =? 26085)%N.

Definition date_char (c : N) : bool :=
  is_digit c || (c =? 47)%N || (c =? 45)%N || (c =? 46)%N
  || is_cjk_date_mark c.

(** The variable [date] of [parseDate]: never assigned, or a [Date]
    (invalid when its time value is NaN). *)
Inductive date_var : Type :=
| Unassigned
| DateObj (t : option Z).

Definition nonempty (s : jsstring) : bool :=
  negb (Nat.eqb (List.length s) 0).

Section WithEngine.
Context {E : JsEngine}.

Definition parseDate_var (cleanDateStr : jsstring) : date_var :=
  if existsb is_cjk_date_mark cleanDateStr
  then
    match filter nonempty (split_where is_cjk_date_mark cleanDateStr) with
    | p0 :: p1 :: p2 :: _ =>
        DateObj (Date_of_fields (string_to_integer p0)
                                (option_map Z.pred (parseInt p1))
                                (string_to_integer p2))
    | _ => Unassigned
    end
  else DateObj (Date_of_string cleanDateStr).

(** [parseDate]: the whole body is under [try]; reading [getTime] of
    the unassigned variable is a [TypeError], caught there, and the
    function returns [null]. *)
Definition parseDate (dateStr : option jsstring) : option jsstring :=
  if falsy dateStr then None
  else
    match dateStr with
    | None => None
    | Some s =>
        match parseDate_var (filter date_char s) with
        | Unassigned => None
        | DateObj None => None
        | DateObj (Some t) => Some (before_T (toISOString t))
        end
    end.

Definition male_words : list jsstring :=
  [js "male"; js "m"; js "男"; js "男性"; js "先生"; js "男子"].
Definition female_words : list jsstring :=
  [js "female"; js "f"; js "女"; js "女性"; js "小姐"; js "女士";
   js "女子"].

Definition normalizeGender (genderStr : option jsstring)
  : option jsstring :=
  if falsy genderStr then None
  else
    match genderStr with
    | None => None
    | Some g =>
        let lowerGender := trim (toLowerCase g) in
        if existsb (str_eqb lowerGender) male_words then Some (js "male")
        else if existsb (str_eqb lowerGender) female_words
             then Some (js "female")
             else None
    end.

Definition name_keys := [js "name"; js "姓名"; js "fullName"].
Definition id_keys := [js "idNumber"; js "身分證字號"; js "id"; js "ID"].
Definition plate_keys :=
  [js "licensePlate"; js "車牌號碼"; js "車號"; js "plateNumber";
   js "vehicleNumber"].
Definition date_keys :=
  [js "violationDate"; js "違規日期"; js "日期"; js "date"].
Definition case_keys :=
  [js "caseNumber"; js "裁決字號"; js "案號"; js "caseId"].
Definition gender_keys := [js "gender"; js "性別"; js "sex"].

(** [if (x) x = x.trim().toUpperCase()] *)
Definition upper_if_present (x : option jsstring) : option jsstring :=
  match x with
  | Some (c :: r) => Some (toUpperCase (trim (c :: r)))
  | _ => x
  end.

(** [validateAndNormalize(data, sourceName)]; [now] is the clock read
    by [new Date()] when the record carries no [crawlTime]. *)
Definition validateAndNormalize (data : jsdata) (sourceName : jsstring)
           (now : Z) : option Normalized :=
  match data with
  | DStr _ => None
  | _ =>
      let o := named_props data in
      let name0 := getValueFromMultipleKeys o name_keys in
      let id0 := getValueFromMultipleKeys o id_keys in
      let plate0 := getValueFromMultipleKeys o plate_keys in
      let source :=
        {| src_name := sourceName;
           src_url :=
             nullable (or_val (or_val (get o (js "sourceUrl"))
                                      (get o (js "url"))) JNull);
           src_imageUrl := nullable (or_val (get o (js "imageUrl")) JNull);
           src_crawlTime :=
             String_of (or_val (get o (js "crawlTime"))
                               (JStr (toISOString now))) |} in
      if falsy name0 || (falsy id0 && falsy plate0) then None
      else
        match name0 with
        | None => None
        | Some n =>
            Some {| name := collapse_spaces false (trim n);
                    idNumber := upper_if_present id0;
                    licensePlate := upper_if_present plate0;
                    violationDate :=
                      parseDate (getValueFromMultipleKeys o date_keys);
                    caseNumber := getValueFromMultipleKeys o case_keys;
                    gender :=
                      normalizeGender
                        (getValueFromMultipleKeys o gender_keys);
                    sources := [source];
                    rawData := JSON_stringify data |}
        end
  end.

(** [isStructuredData(data)] *)
Definition isStructuredData (data : jsdata) : bool :=
  match data with
  | DStr _ => false
  | _ =>
      let o := named_props data in
      let hasName := has_key o (js "name") || has_key o (js "姓名")
                     || has_key o (js "fullName") in
      let hasId := has_key o (js "idNumber") || has_key o (js "身分證字號")
                   || has_key o (js "id") in
      let hasLicensePlate :=
        has_key o (js "licensePlate") || has_key o (js "車牌號碼")
        || has_key o (js "plateNumber") in
      hasName && (hasId || hasLicensePlate)
  end.

End WithEngine.

End Processor.

(* ===================================================================== *)
(** ** The AI structuring adapter ([src/services/aiService.ts]) *)
(* ===================================================================== *)

Module AiService.

(** What one call of [getMockOffenderData] reads from outside, in the
    order of its object literal: the clock for [violationDate],
    [Math.floor(Math.random() * 10000)], the clock for [crawlTime]. *)
Record Entropy : Type := {
  clock_date : Z;
  random10000 : N;
  clock_crawl : Z
}.

Definition getMockOffenderData (w : Entropy) : jsobj :=
  [ (js "name", JStr (js "測試姓名"));
    (js "gender", JStr (js "male"));
    (js "idNumber", JStr (js "A123456789"));
    (js "licensePlate", JStr (js "測-1234"));
    (js "violationDate", JStr (before_T (toISOString (clock_date w))));
    (js "caseNumber", JStr (js "TEST-" ++ decimal (random10000 w)));
    (js "sourceUrl", JStr (js "https://example.com/test"));
    (js "imageUrl", JStr (js "https://example.com/test.jpg"));
    (js "crawlTime", JStr (toISOString (clock_crawl w))) ].

(** A configured client: the outcome of the live path of each operation
    (reading the file, the completion request, extracting JSON from the
    answer, and the rethrow of its [catch]). *)
Record AiClient : Type := {
  image_request : jsstring -> result (list jsobj);
  text_request : jsstring -> result jsdata
}.

(** The module variables [openai] and [isOpenAiAvailable]. *)
Record ModuleState : Type := {
  openai : option AiClient;
  isOpenAiAvailable : bool
}.

Definition unconfigured : ModuleState :=
  {| openai := None; isOpenAiAvailable := false |}.

(** Module initialisation: the client is built only when
    [process.env.OPENAI_API_KEY] is set and not empty; a constructor
    that throws leaves both variables as they were. *)
Definition init (OPENAI_API_KEY : option jsstring)
           (construct : jsstring -> result AiClient) : ModuleState :=
  match OPENAI_API_KEY with
  | Some (c :: r) =>
      match construct (c :: r) with
      | Ok client => {| openai := Some client; isOpenAiAvailable := true |}
      | Throw _ => unconfigured
      end
  | _ => unconfigured
  end.

Definition not_initialised : jsstring :=
  js "OpenAI 客戶端尚未初始化，請檢查 API 金鑰設定".

Definition extractTextFromImage (m : ModuleState) (w : Entropy)
           (imagePath : jsstring) : result (list jsobj) :=
  if negb (isOpenAiAvailable m) then Ok [getMockOffenderData w]
  else
    match openai m with
    | None => Throw not_initialised
    | Some client => image_request client imagePath
    end.

Definition extractStructuredData (m : ModuleState) (w : Entropy)
           (text : jsstring) : result jsdata :=
  if negb (isOpenAiAvailable m) then Ok (DObj (getMockOffenderData w))
  else
    match openai m with
    | None => Throw not_initialised
    | Some client => text_request client text
    end.

(** The interface [OffenderData]: six keys that hold a string or [null],
    three optional keys that hold a string when present. *)
Definition required_keys : list jsstring :=
  [js "name"; js "gender"; js "idNumber"; js "licensePlate";
   js "violationDate"; js "caseNumber"].
Definition optional_keys : list jsstring :=
  [js "sourceUrl"; js "imageUrl"; js "crawlTime"].

Definition string_or_null (v : jsval) : bool :=
  match v with
  | JStr _ | JNull => true
  | JUndefined => false
  end.

Definition string_if_present (v : option jsval) : bool :=
  match v with
  | Some JNull => false
  | _ => true
  end.

Definition is_JStr (v : jsval) : bool :=
  match v with
  | JStr _ => true
  | _ => false
  end.

Definition is_OffenderData (o : jsobj) : bool :=
  forallb (fun k => has_key o k && string_or_null (get o k)) required_keys
  && forallb (fun k => string_if_present (obj_lookup o k)) optional_keys.

End AiService.

(** The JavaScript adapter ([src/services/aiService.js]) has no simulation
    mode: without a client its operations throw. *)
Module AiServiceJs.
Import AiService.

Definition extractStructuredData (openai : option AiClient)
           (text : jsstring) : result jsdata :=
  match openai with
  | None => Throw not_initialised
  | Some client => text_request client text
  end.

End AiServiceJs.

(** The image crawler ([src/crawler/strategies/imageCrawler.ts]) returns
    each record of [extractTextFromImage] as
    [{...record, sourceUrl: url, imageUrl: imgUrl, crawlTime: now}]. *)
Module ImageCrawler.

Definition typedRecord (record : jsobj) (url imgUrl : jsstring) (now : Z)
  : jsobj :=
  obj_set (obj_set (obj_set record (js "sourceUrl") (JStr url))
                   (js "imageUrl") (JStr imgUrl))
          (js "crawlTime") (JStr (toISOString now)).

End ImageCrawler.

(* ===================================================================== *)
(** ** What [processor.js] asks of [OffenderRecord]

    [processDmvData] reaches the store through three calls on the name it
    imports from [../models/offenderRecord.js]:
    [OffenderRecord.findOne(filter)],
    [OffenderRecord.updateOne({ _id }, update)] and
    [new OffenderRecord(validatedData).save()].  What these calls do is
    decided by what the name is bound to, so the reconciler below takes
    them as a [Model] that acts on a store of any kind.
    [OffenderRecordModel] is the binding the repository provides. *)
(* ===================================================================== *)

Module OffenderModel.
Import Processor.

(** A field of a normalized record as the value it holds: a string or
    [null]. *)
Definition value_of (x : option jsstring) : jsval :=
  match x with
  | Some s => JStr s
  | None => JNull
  end.

(** The update document [{ $set: {...validatedData}, $addToSet: {
    sources: validatedData.sources[0] } }]; [sources[0]] of an empty array
    is [undefined], which is [None] here. *)
Record UpdateDoc : Type := {
  op_set : Normalized;
  op_addToSet_sources : option SourceInfo
}.

(** The paths [$set] names: every key of the spread record. *)
Definition set_paths (u : UpdateDoc) : list jsstring :=
  [js "name"; js "idNumber"; js "licensePlate"; js "violationDate";
   js "caseNumber"; js "gender"; js "sources"; js "rawData"].

Section Interface.
Variables Store Id : Type.

(** The three calls.  Each takes the store as it is and returns what the
    call returns or throws, with the store as the call leaves it.
    [findOne] gives the [_id] of the record it resolves to, or [None] for
    [null]; [save] stands for [new OffenderRecord(validatedData)] followed
    by [.save()]. *)
Record Model : Type := {
  findOne : jsobj -> Store -> result (option Id) * Store;
  updateOne : Id -> UpdateDoc -> Store -> result unit * Store;
  save : Normalized -> Store -> result unit * Store
}.

End Interface.

(** *** The class behind the name

    [src/models/offenderRecord.ts] exports [OffenderRecord] as the class
    [OffenderRecordModel] (its line 359; the comment above it presents
    the name as an interface like that of the former MongoDB model).
    These are the static members of the class; it declares no constructor
    and no instance member. *)
Definition static_members : list jsstring :=
  [js "findById"; js "findAll"; js "count"; js "find"; js "create";
   js "update"; js "delete"; js "addSource"; js "getSources"].

Definition instance_members : list jsstring := [].

(** The message of the [TypeError] for calling what is not a function;
    the wording is the engine's, and only the log reads it. *)
Definition not_a_function (callee : jsstring) : jsstring :=
  callee ++ js " is not a function".

(** [findOne] and [updateOne] are not among the static members and [save]
    is not an instance member: each call evaluates its arguments, throws
    the [TypeError], and leaves the store alone. *)
Definition OffenderRecordModel (Store Id : Type) : Model Store Id :=
  {| findOne := fun _ st =>
       (Throw (not_a_function (js "OffenderRecord.findOne")), st);
     updateOne := fun _ _ st =>
       (Throw (not_a_function (js "OffenderRecord.updateOne")), st);
     save := fun _ st =>
       (Throw (not_a_function (js "newRecord.save")), st) |}.

End OffenderModel.

(* ===================================================================== *)
(** ** The reconciler: [processDmvData] ([src/services/processor.js]) *)
(* ===================================================================== *)

Module Reconciler.
Import Processor AiService OffenderModel.

(** What the iteration for one item reads from outside. *)
Record Observation : Type := {
  mock : Entropy;
  clock : Z
}.

Record Outcome (Store : Type) : Type := {
  store : Store;
  successCount : nat;
  failCount : nat
}.

Definition start {Store : Type} (st : Store) : Outcome Store :=
  {| store := st; successCount := 0; failCount := 0 |}.

Definition succeeded {Store : Type} (st : Store) (o : Outcome Store)
  : Outcome Store :=
  {| store := st; successCount := S (successCount o);
     failCount := failCount o |}.

(** [failCount++], with the store as the failed call left it. *)
Definition failed_at {Store : Type} (st : Store) (o : Outcome Store)
  : Outcome Store :=
  {| store := st; successCount := successCount o;
     failCount := S (failCount o) |}.

Definition failed {Store : Type} (o : Outcome Store) : Outcome Store :=
  failed_at (store o) o.

(** The filter of lines 40-44. *)
Definition filter_of (validatedData : Normalized) : jsobj :=
  [ (js "idNumber", value_of (idNumber validatedData));
    (js "licensePlate", value_of (licensePlate validatedData));
    (js "caseNumber", value_of (caseNumber validatedData)) ].

(** The update document of lines 47-53. *)
Definition update_of (validatedData : Normalized) : UpdateDoc :=
  {| op_set := validatedData;
     op_addToSet_sources := nth_error (sources validatedData) 0 |}.

Definition is_string (data : jsdata) : bool :=
  match data with
  | DStr _ => true
  | _ => false
  end.

Definition textContent (data : jsdata) : jsstring :=
  match data with
  | DStr s => s
  | _ => JSON_stringify data
  end.

Section WithStore.
Context {E : JsEngine}.
Variables Store Id : Type.
(** What the module imports as [OffenderRecord]. *)
Variable OffenderRecord : Model Store Id.
(** What the module imports as [extractStructuredData]; its import names
    [./aiService.js], the adapter without a simulation mode. *)
Variable extractStructuredData : Entropy -> jsstring -> result jsdata.

(** Lines 40-61: look up, then update or create. *)
Definition reconcile (validatedData : Normalized) (st : Store)
  : result unit * Store :=
  match findOne OffenderRecord (filter_of validatedData) st with
  | (Ok (Some existing_id), st1) =>
      updateOne OffenderRecord existing_id (update_of validatedData) st1
  | (Ok None, st1) => save OffenderRecord validatedData st1
  | (Throw message, st1) => (Throw message, st1)
  end.

(** The body of the loop, with its [try]/[catch]. *)
Definition process_item (sourceName : jsstring) (obs : Observation)
           (data : jsdata) (acc : Outcome Store) : Outcome Store :=
  let structuredData :=
    if is_string data || negb (isStructuredData data)
    then extractStructuredData (mock obs) (textContent data)
    else Ok data in
  match structuredData with
  | Throw _ => failed acc
  | Ok sd =>
      match validateAndNormalize sd sourceName (clock obs) with
      | None => failed acc
      | Some validatedData =>
          match reconcile validatedData (store acc) with
          | (Ok _, st) => succeeded st acc
          | (Throw _, st) => failed_at st acc
          end
      end
  end.

Fixpoint process_from (sourceName : jsstring) (world : nat -> Observation)
         (i : nat) (rawData : list jsdata) (acc : Outcome Store)
  : Outcome Store :=
  match rawData with
  | [] => acc
  | data :: rest =>
      process_from sourceName world (S i) rest
                   (process_item sourceName (world i) data acc)
  end.

(** [processDmvData(rawData, sourceName)] run against a store; the
    source returns [successCount]. *)
Definition processDmvData (world : nat -> Observation) (st : Store)
           (rawData : list jsdata) (sourceName : jsstring)
  : Outcome Store :=
  process_from sourceName world 0 rawData (start st).

End WithStore.

(** *** The match key the specification describes

    The name with the first identifier present, in the order identity
    number, licence plate, case number.  Written from the text of the
    specification, to be compared with [filter_of]. *)
Definition present (x : option jsstring) : bool := negb (falsy x).

Definition spec_match_key (v : Normalized) : jsobj :=
  (js "name", JStr (name v))
  :: (if present (idNumber v)
      then [(js "idNumber", value_of (idNumber v))]
      else if present (licensePlate v)
           then [(js "licensePlate", value_of (licensePlate v))]
           else [(js "caseNumber", value_of (caseNumber v))]).

End Reconciler.

(* ===================================================================== *)
(** ** The calls of a run

    To see what a run asks of [OffenderRecord], the store is paired with
    the list of the calls made so far: [recording M] answers as [M] does
    and notes each call with its arguments. *)
(* ===================================================================== *)

Module Calls.
Import Processor OffenderModel Reconciler.

Inductive Call (Id : Type) : Type :=
| Call_findOne (filter : jsobj)
| Call_updateOne (id : Id) (update : UpdateDoc)
| Call_save (validatedData : Normalized).
Arguments Call_findOne {Id} filter.
Arguments Call_updateOne {Id} id update.
Arguments Call_save {Id} validatedData.

Definition noted {A Store Id : Type} (c : Call Id)
           (answer : result A * Store) (log : list (Call Id))
  : result A * (Store * list (Call Id)) :=
  (fst answer, (snd answer, log ++ [c])).

Definition recording {Store Id : Type} (M : Model Store Id)
  : Model (Store * list (Call Id)) Id :=
  {| findOne := fun filter s =>
       noted (Call_findOne filter) (findOne M filter (fst s)) (snd s);
     updateOne := fun id update s =>
       noted (Call_updateOne id update) (updateOne M id update (fst s))
             (snd s);
     save := fun validatedData s =>
       noted (Call_save validatedData) (save M validatedData (fst s))
             (snd s) |}.

(** The calls of a run that started with an empty list. *)
Definition calls {Store Id : Type} (o : Outcome (Store * list (Call Id)))
  : list (Call Id) :=
  snd (store o).

(** The run without its list of calls. *)
Definition unlogged {Store Id : Type} (o : Outcome (Store * list (Call Id)))
  : Outcome Store :=
  {| store := fst (store o); successCount := successCount o;
     failCount := failCount o |}.

(** What the normalizer can return for a source. *)
Definition normal {E : JsEngine} (sourceName : jsstring) (v : Normalized)
  : Prop :=
  exists data now, validateAndNormalize data sourceName now = Some v.

(** The calls one item can lead to: none, a lookup alone, or a lookup
    followed by one write for the same record. *)
Definition item_calls {E : JsEngine} {Id : Type} (sourceName : jsstring)
           (group : list (Call Id)) : Prop :=
  group = []
  \/ exists v,
       normal sourceName v
       /\ (group = [Call_findOne (filter_of v)]
           \/ (exists id, group = [Call_findOne (filter_of v);
                                   Call_updateOne id (update_of v)])
           \/ group = [Call_findOne (filter_of v); Call_save v]).

Definition is_write {Id : Type} (c : Call Id) : bool :=
  match c with
  | Call_findOne _ => false
  | _ => true
  end.

(** A store in which every lookup resolves to the record [id], and every
    write is accepted. *)
Definition always_found {Id : Type} (id : Id) : Model unit Id :=
  {| findOne := fun _ st => (Ok (Some id), st);
     updateOne := fun _ _ st => (Ok tt, st);
     save := fun _ st => (Ok tt, st) |}.

End Calls.

(* ===================================================================== *)
(** ** The PDF text parser ([src/services/pdfParser.ts]) *)
(* ===================================================================== *)

Module PdfParser.
Import Regex.

Record Offender : Type := {
  id : Z;
  name : jsstring;
  violationDate : jsstring;
  violationArticle : jsstring;
  violationLocation : jsstring;
  violationDescription : jsstring;
  hasPhoto : bool
}.

Definition slash : regex := lit 47%N.

(** [\d{2,3}\/\d{1,2}\/\d{1,2}] *)
Definition roc_date : regex :=
  seq [between 2 3 digit; slash; between 1 2 digit; slash;
       between 1 2 digit].

(** [/^\s*(\d+)\s+/] *)
Definition newRecord_re : regex :=
  seq [RBol; star space; RGroup 1 (plus digit); plus space].

(** [/^([^\d]+?)\s*\d{2,3}\/\d{1,2}\/\d{1,2}/] *)
Definition name_re : regex :=
  seq [RBol; RGroup 1 (lazy_plus non_digit); star space; roc_date].

(** [/(\d{2,3}\/\d{1,2}\/\d{1,2})/] *)
Definition date_re : regex := RGroup 1 roc_date.

Definition group_or_empty (i : nat) (m : option rmatch) : jsstring :=
  match m with
  | Some r => match group i (m_groups r) with
              | Some t => t
              | None => []
              end
  | None => []
  end.

(** The branch [if (newRecordMatch)]: the record a trigger line opens.
    [id] holds the integer that the digits spell; [parseInt] returns it
    as a double, which is that integer as long as it is below 2^53. *)
Definition open_record (line : jsstring) (newRecordMatch : rmatch)
  : Offender :=
  let remainingText :=
    trim (skipn (List.length (m_text newRecordMatch)) line) in
  {| id := Z.of_N (digits_value
                     (group_or_empty 1 (Some newRecordMatch)));
     name := match exec name_re remainingText with
             | Some m => trim (group_or_empty 1 (Some m))
             | None => []
             end;
     violationDate := group_or_empty 1 (exec date_re remainingText);
     violationArticle := [];
     violationLocation := [];
     violationDescription := [];
     hasPhoto := includes line (js "照片") || includes line (js "相片") |}.

(** The branch [else if (currentOffender)]: a line that is not a trigger
    goes to the first field whose pattern it shows. *)
Definition classify (line : jsstring) (o : Offender) : Offender :=
  if includes line (js "第") && includes line (js "條")
  then {| id := id o; name := name o; violationDate := violationDate o;
          violationArticle := trim line;
          violationLocation := violationLocation o;
          violationDescription := violationDescription o;
          hasPhoto := hasPhoto o |}
  else if includes line (js "區") || includes line (js "路")
          || includes line (js "街") || includes line (js "段")
  then {| id := id o; name := name o; violationDate := violationDate o;
          violationArticle := violationArticle o;
          violationLocation := trim line;
          violationDescription := violationDescription o;
          hasPhoto := hasPhoto o |}
  else if includes line (js "酒") || includes line (js "酒精")
          || includes line (js "駕駛")
  then {| id := id o; name := name o; violationDate := violationDate o;
          violationArticle := violationArticle o;
          violationLocation := violationLocation o;
          violationDescription := trim line;
          hasPhoto := hasPhoto o |}
  else o.

Definition flush (currentOffender : option Offender)
           (offenders : list Offender) : list Offender :=
  match currentOffender with
  | Some o => offenders ++ [o]
  | None => offenders
  end.

Fixpoint scan (lines : list jsstring) (currentOffender : option Offender)
         (offenders : list Offender) : list Offender :=
  match lines with
  | [] => flush currentOffender offenders
  | line :: rest =>
      match exec newRecord_re line with
      | Some m =>
          scan rest (Some (open_record line m))
               (flush currentOffender offenders)
      | None =>
          scan rest (option_map (classify line) currentOffender) offenders
      end
  end.

Definition lines_of (text : jsstring) : list jsstring :=
  filter (fun line => negb (Nat.eqb (List.length (trim line)) 0))
         (split_where (is_char 10%N) text).

Definition parseOffenderData (text : jsstring) : list Offender :=
  scan (lines_of text) None [].

End PdfParser.

(* ===================================================================== *)
(** ** The lookup of the PDF pipeline ([src/services/databaseService.ts]) *)
(* ===================================================================== *)

Module DatabaseService.

(** A row of [offenders] as [saveOffendersToDatabase] writes it. *)
Record OffenderRow : Type := {
  o_id : nat;
  o_name : jsstring;
  o_violation_count : nat;
  o_source : jsstring
}.

Section WithCollation.
(** [=] between two names as the database decides it: the table and the
    connection compare strings under the collation [utf8mb4_unicode_ci]
    ([src/database/schema.sql], [src/database/connection.ts]). *)
Variable name_eq : jsstring -> jsstring -> bool.

(** [trx('offenders').where('name', '=', offender.name).first()];
    [table] holds the rows in the order in which the query meets them. *)
Definition existingOffender (offender : PdfParser.Offender)
           (table : list OffenderRow) : option OffenderRow :=
  find (fun r => name_eq (o_name r) (PdfParser.name offender)) table.

End WithCollation.

End DatabaseService.

(* ===================================================================== *)
(** ** The simulated PDF structuring of [OpenAIService]
       ([src/services/openaiService.ts], [simulateExtractDataFromPDF]) *)
(* ===================================================================== *)

Module OpenAIService.
Import Regex.

Record SimRecord : Type := {
  serialNumber : jsstring;
  name : jsstring;
  violationDate : jsstring;
  violationArticle : jsstring;
  violationLocation : jsstring;
  violationDescription : jsstring
}.

(** [/^(\d+)\s+([^\s]+)\s+(\d{3}\/\d{1,2}\/\d{1,2})/] *)
Definition record_re : regex :=
  seq [RBol; RGroup 1 (plus digit); plus space;
       RGroup 2 (plus non_space); plus space;
       RGroup 3 (seq [between 3 3 digit; PdfParser.slash;
                      between 1 2 digit; PdfParser.slash;
                      between 1 2 digit])].

(** [/第\d+條第\d+項/] *)
Definition article_re : regex :=
  seq [word (js "第"); plus digit; word (js "條第"); plus digit;
       word (js "項")].

Definition default_article : jsstring := js "第35條第3項".

Definition open_record (line : jsstring) (recordMatch : rmatch)
  : SimRecord :=
  let g i := PdfParser.group_or_empty i (Some recordMatch) in
  let articleMatch := exec article_re line in
  {| serialNumber := g 1;
     name := g 2;
     violationDate := g 3;
     violationArticle :=
       match articleMatch with
       | Some a => m_text a
       | None => default_article
       end;
     violationLocation :=
       match articleMatch with
       | Some a =>
           let locationStart := m_index a + List.length (m_text a) in
           if Nat.ltb locationStart (List.length line)
           then trim (skipn locationStart line)
           else []
       | None => []
       end;
     violationDescription := [] |}.

Definition continue_record (line : jsstring) (r : SimRecord) : SimRecord :=
  match violationLocation r with
  | [] =>
      {| serialNumber := serialNumber r; name := name r;
         violationDate := violationDate r;
         violationArticle := violationArticle r;
         violationLocation := trim line;
         violationDescription := violationDescription r |}
  | _ :: _ =>
      {| serialNumber := serialNumber r; name := name r;
         violationDate := violationDate r;
         violationArticle := violationArticle r;
         violationLocation := violationLocation r;
         violationDescription :=
           match violationDescription r with
           | [] => trim line
           | d => d ++ [32%N] ++ trim line
           end |}
  end.

Definition keep (currentRecord : option SimRecord)
           (records : list SimRecord) : list SimRecord :=
  match currentRecord with
  | Some r => match serialNumber r with
              | [] => records
              | _ :: _ => records ++ [r]
              end
  | None => records
  end.

Fixpoint scan (lines : list jsstring) (currentRecord : option SimRecord)
         (records : list SimRecord) : list SimRecord :=
  match lines with
  | [] => keep currentRecord records
  | line :: rest =>
      match exec record_re line with
      | Some m =>
          scan rest (Some (open_record line m)) (keep currentRecord records)
      | None =>
          scan rest (option_map (continue_record line) currentRecord)
               records
      end
  end.

Definition sample_record : SimRecord :=
  {| serialNumber := js "1";
     name := js "石玉山";
     violationDate := js "111/7/11";
     violationArticle := js "第35條第3項";
     violationLocation := js "沙鹿區中清路六段489號";
     violationDescription :=
       js "汽機車駕駛人駕駛汽機車，於十年內酒精濃度超過規定標準第2次(無照)" |}.

Definition simulateExtractDataFromPDF (pdfText : jsstring)
  : list SimRecord :=
  match scan (split_where (is_char 10%N) pdfText) None [] with
  | [] => [sample_record]
  | records => records
  end.

End OpenAIService.

(* ===================================================================== *)
(** ** The HTML-table parser
       ([src/crawler/strategies/tableCrawler.ts])

    The document is what cheerio selects from it: for each element of
    [$('table')], in order, the text of the table, the texts of the cells
    of [tr:first-child th, tr:first-child td], and for each row of
    [tr:not(:first-child)] the texts of its [td]. *)
(* ===================================================================== *)

Module TableCrawler.

Record Table : Type := {
  table_text : jsstring;
  first_row_cells : list jsstring;
  other_rows : list (list jsstring)
}.

Definition some_includes (l : list jsstring) (w : jsstring) : bool :=
  existsb (fun h => includes h w) l.

Section WithEngine.
Context {E : JsEngine}.

Definition checkIfTargetTable (table : Table) : bool :=
  let tableText := toLowerCase (table_text table) in
  let headers :=
    map (fun c => toLowerCase (trim c)) (first_row_cells table) in
  let keywordInTable :=
    includes tableText (js "酒駕") || includes tableText (js "累犯")
    || includes tableText (js "駕駛人") in
  let hasRequiredColumns :=
    some_includes headers (js "姓名")
    && (some_includes headers (js "身分證")
        || some_includes headers (js "車號")) in
  keywordInTable && hasRequiredColumns.

Definition value_length (v : jsval) : nat :=
  match v with
  | JStr s => List.length s
  | _ => 0
  end.

Definition isValidRecord (record : jsobj) : bool :=
  let fields := map (fun kv => toLowerCase (fst kv)) record in
  let hasName :=
    existsb (fun f => includes f (js "姓名") || includes f (js "駕駛人")
                      || includes f (js "name")) fields in
  let hasIdentifier :=
    existsb (fun f => includes f (js "身分證") || includes f (js "證號")
                      || includes f (js "車號") || includes f (js "車牌")
                      || includes f (js "id") || includes f (js "license"))
            fields in
  hasName && hasIdentifier
  && existsb (fun kv => Nat.ltb 0 (value_length (snd kv))) record.

(** The loop over the [td] of a row: a cell is kept under the header of
    its column when that header is not empty.  The keys stand in the
    order of the columns; an engine lists a header that is an array index
    before the others, which [isValidRecord] does not tell apart. *)
Fixpoint fill_row (headers : list jsstring) (colIndex : nat)
         (cells : list jsstring) (rowData : jsobj) : jsobj :=
  match cells with
  | [] => rowData
  | cell :: rest =>
      fill_row headers (S colIndex) rest
        (match nth_error headers colIndex with
         | Some (c :: r) => obj_set rowData (c :: r) (JStr (trim cell))
         | _ => rowData
         end)
  end.

(** The rows of one target table, appended to [results]; [clock] is the
    time read for the record that becomes the [n]-th result. *)
Fixpoint parse_rows (url : jsstring) (clock : nat -> Z)
         (headers : list jsstring) (rows : list (list jsstring))
         (results : list jsobj) : list jsobj :=
  match rows with
  | [] => results
  | row :: rest =>
      let rowData := fill_row headers 0 row [] in
      parse_rows url clock headers rest
        (if isValidRecord rowData
         then results ++
              [obj_set (obj_set rowData (js "sourceUrl") (JStr url))
                       (js "crawlTime")
                       (JStr (toISOString (clock (List.length results))))]
         else results)
  end.

(** The body of [tables.each]. *)
Definition parse_table (url : jsstring) (clock : nat -> Z)
           (results : list jsobj) (table : Table) : list jsobj :=
  if checkIfTargetTable table
  then parse_rows url clock (map trim (first_row_cells table))
                  (other_rows table) results
  else results.

Definition failure_prefix : jsstring := js "表格爬蟲執行失敗: ".

(** [tableCrawler(url)]; [response] is the outcome of the request: the
    tables of the document it returned, or the error it threw. *)
Definition tableCrawler (url : jsstring) (clock : nat -> Z)
           (response : result (list Table)) : result (list jsobj) :=
  match response with
  | Ok tables => Ok (fold_left (parse_table url clock) tables [])
  | Throw message => Throw (failure_prefix ++ message)
  end.

End WithEngine.

End TableCrawler.

(* ===================================================================== *)
(** ** The import tool ([src/tools/importDataToDb.ts]) *)
(* ===================================================================== *)

Module ImportTool.

Section WithEngine.
Context {E : JsEngine}.

(** [parseRocDate(dateStr)]: [None] is [null]; [Some d] is a [Date],
    which is invalid when [d] is [None]. *)
Definition parseRocDate (dateStr : jsstring) : option (option Z) :=
  match dateStr with
  | [] => None
  | _ =>
      match split_where (is_char 47%N) dateStr with
      | [p0; p1; p2] =>
          let year := option_map (fun y => (y + 1911)%Z) (parseInt p0) in
          let month := option_map (fun m => (m - 1)%Z) (parseInt p1) in
          let day := parseInt p2 in
          Some (Date_of_fields year month day)
      | _ => None
      end
  end.

End WithEngine.

End ImportTool.

(* ===================================================================== *)
(** ** Records, stores and inputs used in the statements below *)
(* ===================================================================== *)

Module Scenario.
Import Processor AiService OffenderModel Reconciler Calls.

Definition str (k v : string) : jsstring * jsval := (js k, JStr (js v)).

(** The two observations of the first-writer-wins example. *)
Definition first_seen : jsdata :=
  DObj [str "name" "王小明"; (js "idNumber", JNull);
        str "licensePlate" "ABC-1";
        str "crawlTime" "2025-07-01T00:00:00.000Z"].

Definition seen_later : jsdata :=
  DObj [str "name" "王小明"; str "idNumber" "A123";
        str "licensePlate" "ABC-1";
        str "crawlTime" "2025-07-08T00:00:00.000Z"].

(** A record with the identifiers of [seen_later] under another name. *)
Definition another_name : jsdata :=
  DObj [str "name" "李大同"; str "idNumber" "A123";
        str "licensePlate" "ABC-1";
        str "crawlTime" "2025-07-09T00:00:00.000Z"].

(** A complete row of an offender table. *)
Definition table_row : jsdata :=
  DObj [str "姓名" " 王  小明 "; str "身分證字號" " a123456789 ";
        str "車號" "abc-1234"; str "違規日期" "2023年7月1日";
        str "性別" "男"; str "裁決字號" "中市裁字第0001號";
        str "sourceUrl" "https://example.tw/";
        str "crawlTime" "2025-07-08T00:00:00.000Z"].

(** A record whose only identifier is its case number. *)
Definition case_only : jsdata :=
  DObj [str "name" "王小明"; str "caseNumber" "中市裁字第0001號"].

Definition source_name : jsstring := js "臺中區監理所".

Definition quiet : Entropy :=
  {| clock_date := 0; random10000 := 0; clock_crawl := 0 |}.

Definition world0 (i : nat) : Observation := {| mock := quiet; clock := 0 |}.

(** The adapter [processor.js] imports, with no client. *)
Definition no_client : Entropy -> jsstring -> result jsdata :=
  fun _ => AiServiceJs.extractStructuredData None.

(** The store behind the class of the repository, as far as a run can
    tell: [processDmvData] never gets to read or write it. *)
Definition database : Type := list DatabaseService.OffenderRow.

Definition repository : Model (database * list (Call nat)) nat :=
  recording (OffenderRecordModel database nat).

Definition draw (n : N) : Entropy :=
  {| clock_date := 0; random10000 := n; clock_crawl := 0 |}.

(** The keys of the placeholder that do not read the clock or the random
    generator. *)
Definition fixed_keys : list jsstring :=
  [js "name"; js "gender"; js "idNumber"; js "licensePlate";
   js "sourceUrl"; js "imageUrl"].

(** The text block of the parsing scenario. *)
Definition bulletin : jsstring :=
  js "1 石玉山 111/7/11 第35條第3項 沙鹿區中清路六段489號"
  ++ [10%N]
  ++ js "汽機車駕駛人駕駛汽機車，於十年內酒精濃度超過規定標準第2次(無照)".

(** Two records in the layout of the published bulletin. *)
Definition published : jsstring :=
  js "序號 姓名 違規日 違規條款 違規地點 違規事實 照片"
  ++ [10%N]
  ++ js "1 石玉山 111/7/11 第35條第3項 沙鹿區中清路六段489號汽機車駕駛人駕駛汽機車，於十年內"
  ++ [10%N] ++ js "酒精濃度超過規定標準第2次(無照)"
  ++ [10%N]
  ++ js "2 楊朝明 112/4/2 第35條第3項 梧棲區中央路二段540號汽機車駕駛人駕駛汽機車，於十年內"
  ++ [10%N] ++ js "酒精濃度超過規定標準第2次".

(** A table of offenders, with one filled row and one empty row. *)
Definition offenders_table : TableCrawler.Table :=
  {| TableCrawler.table_text := js "酒駕累犯名單 姓名 身分證字號 王小明 A123";
     TableCrawler.first_row_cells := [js " 姓名 "; js "身分證字號"];
     TableCrawler.other_rows := [[js "王小明"; js " A123 "]; [[]; []]] |}.

(** A page whose only table is a list of announcements. *)
Definition announcements : TableCrawler.Table :=
  {| TableCrawler.table_text := js "日期 標題 2025/07/01 停止受理公告";
     TableCrawler.first_row_cells := [js "日期"; js "標題"];
     TableCrawler.other_rows := [[js "2025/07/01"; js "停止受理公告"]] |}.

End Scenario.

(* ===================================================================== *)
(** ** Shapes of stored data used in the statements below *)
(* ===================================================================== *)

Module Invariants.
Import Processor.

(** Words separated by single U+0020: no other white space, no run of
    two, none at the end; [after_space] says that a space may not come
    next. *)
Fixpoint single_spaced (after_space : bool) (s : jsstring) : bool :=
  match s with
  | [] => negb after_space
  | c :: r =>
      if is_space c
      then (c =? 32)%N && negb after_space && single_spaced true r
      else single_spaced false r
  end.

(** The empty string, or words separated by single spaces with no space
    at either end. *)
Definition well_spaced (s : jsstring) : bool :=
  match s with
  | [] => true
  | _ :: _ => single_spaced true s
  end.

(** The last code unit is not white space. *)
Fixpoint ends_in_word (s : jsstring) : bool :=
  match s with
  | [] => false
  | [c] => negb (is_space c)
  | _ :: r => ends_in_word r
  end.

End Invariants.

Module Aliases.

(** The identifier keys [isStructuredData] looks for. *)
Definition structured_identifier_keys : list jsstring :=
  [js "idNumber"; js "身分證字號"; js "id"; js "licensePlate";
   js "車牌號碼"; js "plateNumber"].

End Aliases.

Module TableShape.

(** What a loop over rows keeps and adds: the results it started from,
    then records stamped with the page and with the clock reading of their
    own position. *)
Definition stamped (url : jsstring) (clock : nat -> Z) (rs : list jsobj)
  : Prop :=
  forall i r, nth_error rs i = Some r ->
              get r (js "sourceUrl") = JStr url
              /\ get r (js "crawlTime") = JStr (toISOString (clock i)).

End TableShape.

(* ===================================================================== *)
(** ** Reading a PDF file ([src/services/pdfParser.ts]) *)
(* ===================================================================== *)

Module PdfFile.
Import Regex PdfParser.

(** What [strings.join('\n') + '\n\n'] adds to [fullText] for a page;
    [strings] holds the [str] of each text item of the page (the empty
    string for an item without one). *)
Definition page_text (strings : list jsstring) : jsstring :=
  join [10%N] strings ++ [10%N; 10%N].

(** [extractTextFromPdf(filePath)]; [document] is the outcome of reading
    and loading the file: the text items of its pages, or the error, which
    the function rethrows. *)
Definition extractTextFromPdf (document : result (list (list jsstring)))
  : result jsstring :=
  match document with
  | Ok pages => Ok (trim (flat_map page_text pages))
  | Throw message => Throw message
  end.

(** [processPdfFile(filePath)]: an error becomes the empty list. *)
Definition processPdfFile (document : result (list (list jsstring)))
  : list Offender :=
  match extractTextFromPdf document with
  | Ok text => parseOffenderData text
  | Throw _ => []
  end.

(** The loop of a repetition, as [run] builds it. *)
Definition rep_loop {R} (greedy : bool) (lo : nat) (hi : option nat)
           (a : regex) (k : mstate -> option R)
  : nat -> nat -> mstate -> option R :=
  fix loop (fuel n : nat) (s : mstate) {struct fuel} : option R :=
    let more (_ : unit) :=
      match fuel with
      | 0 => None
      | S f =>
          if below n hi
          then run a s
                 (fun s1 =>
                    if Nat.eqb (pos s1) (pos s) && Nat.leb lo n
                    then None
                    else loop f (S n) s1)
          else None
      end in
    let stop (_ : unit) := if Nat.leb lo n then k s else None in
    if greedy then or_else (more tt) stop else or_else (stop tt) more.

(** A greedy repetition of a character class over [pre ++ post], where
    [pre] is in the class and [post] does not start in it: the
    continuation is tried after all of [pre], then after one unit less,
    and so on. *)
Fixpoint backtrack {R} (k : mstate -> option R) (lo n : nat) (s : mstate)
         (pre post : jsstring) : option R :=
  match pre with
  | [] => if Nat.leb lo n then k s else None
  | _ :: pre' =>
      or_else (backtrack k lo (S n) (advance s (pre' ++ post)) pre' post)
              (fun _ => if Nat.leb lo n then k s else None)
  end.

(** The state [j] code units further on. *)
Definition moved (s : mstate) (j : nat) : mstate :=
  {| pos := pos s + j; rest := skipn j (rest s); caps := caps s |}.

Fixpoint take_while (p : N -> bool) (s : jsstring) : jsstring :=
  match s with
  | c :: r => if p c then c :: take_while p r else []
  | [] => []
  end.

(** The parts of a line that starts a record: leading white space, the
    digits of the sequence number, the white space after them, and what
    follows. *)
Definition trigger_parts (line : jsstring)
  : option (jsstring * jsstring * jsstring * jsstring) :=
  let sp := take_while is_space line in
  let r1 := drop_while is_space line in
  let dg := take_while is_digit r1 in
  let r2 := drop_while is_digit r1 in
  let ws := take_while is_space r2 in
  let r3 := drop_while is_space r2 in
  if Processor.nonempty dg && Processor.nonempty ws then Some (sp, dg, ws, r3) else None.

(** The fields of a record that its first line decides. *)
Definition key_fields (o : Offender) : Z * jsstring * jsstring * bool :=
  (id o, name o, violationDate o, hasPhoto o).

(** The record a line opens, if it opens one. *)
Definition trigger_record (line : jsstring) : list Offender :=
  match exec newRecord_re line with
  | Some m => [open_record line m]
  | None => []
  end.

Definition no_space (s : jsstring) : bool :=
  forallb (fun c => negb (is_space c)) s.

End PdfFile.

Module PdfCells.

(** Text whose only white space is the line feed. *)
Definition only_breaks (text : jsstring) : bool :=
  forallb (fun c => (c =? 10)%N || negb (is_space c)) text.

(** A row of the bulletin, one text item for each cell. *)
Definition cells : list jsstring :=
  [js "1"; js "石玉山"; js "111/7/11"; js "第35條第3項";
   js "沙鹿區中清路六段489號"].

(** Another offender's row, one cell on each line. *)
Definition other_row : jsstring :=
  js "2" ++ [10%N] ++ js "楊朝明" ++ [10%N] ++ js "112/4/2".

End PdfCells.

Module RocCalendar.

(** A date of the Republic calendar as the bulletin prints it:
    year/month/day in decimal, without padding. *)
Definition roc_text (y m d : N) : jsstring :=
  decimal y ++ [47%N] ++ decimal m ++ [47%N] ++ decimal d.

(** Days of month [m] (1 = January) of the Gregorian year [y]. *)
Definition days_in_month (y m : Z) : Z :=
  match m with
  | 2 => if InLeapYear y then 29 else 28
  | 4 | 6 | 9 | 11 => 30
  | _ => 31
  end%Z.

Definition triple_eqb (a b : Z * Z * Z) : bool :=
  let '(a1, a2, a3) := a in
  let '(b1, b2, b3) := b in
  ((a1 =? b1) && (a2 =? b2) && (a3 =? b3))%Z.

(** Day number [n] is the calendar day [e], and far inside the range of
    time values. *)
Definition day_ok (n : Z) (e : Z * Z * Z) : bool :=
  triple_eqb (civil_of_day n) e && (Z.abs n <=? 1000000)%Z.

Definition upto (n : nat) : list Z := map Z.of_nat (List.seq 1 n).

End RocCalendar.

(* ===================================================================== *)
(** ** The list of sources ([src/utils/config.ts], [src/utils/config.js])
       and the crawl over it ([src/crawler/index.js]) *)
(* ===================================================================== *)

Module Config.

Record CrawlerConfig : Type := {
  name : jsstring;
  url : jsstring;
  crawlerType : jsstring
}.

(** Element [i] of the destructured array when it is there and not the
    empty string, that is, when [!x] is false. *)
Definition given (parts : list jsstring) (i : nat) : option jsstring :=
  match nth_error parts i with
  | Some (c :: r) => Some (c :: r)
  | _ => None
  end.

(** [.map(f).filter(x => x !== null)] keeps the results that are not
    [null]. *)
Definition kept {A : Type} (x : option A) : list A :=
  match x with
  | Some a => [a]
  | None => []
  end.

Section WithEngine.
Context {E : JsEngine}.

(** The callback of [map] in the TypeScript module. *)
Definition parse_item (item : jsstring) : option CrawlerConfig :=
  let parts := split_where (is_char 124%N) item in
  match given parts 0, given parts 1, given parts 2 with
  | Some name0, Some url0, Some crawlerType0 =>
      let type := toLowerCase (trim crawlerType0) in
      if negb (str_eqb type (js "table")) && negb (str_eqb type (js "image"))
      then None
      else Some {| name := trim name0; url := trim url0;
                   crawlerType := type |}
  | _, _, _ => None
  end.

(** [parseDmvsList()], with the value of [process.env.DMVS_LIST]. *)
Definition parseDmvsList (DMVS_LIST : option jsstring)
  : list CrawlerConfig :=
  match DMVS_LIST with
  | Some (c :: r) =>
      flat_map (fun item => kept (parse_item item))
               (split_where (is_char 44%N) (c :: r))
  | _ => []
  end.

End WithEngine.

End Config.

(** The JavaScript module keeps every type of crawler. *)
Module ConfigJs.
Import Config.

Section WithEngine.
Context {E : JsEngine}.

Definition parse_item (item : jsstring) : option CrawlerConfig :=
  let parts := split_where (is_char 124%N) item in
  match given parts 0, given parts 1, given parts 2 with
  | Some name0, Some url0, Some crawlerType0 =>
      Some {| name := trim name0; url := trim url0;
              crawlerType := toLowerCase (trim crawlerType0) |}
  | _, _, _ => None
  end.

Definition parseDmvsList (DMVS_LIST : option jsstring)
  : list CrawlerConfig :=
  match DMVS_LIST with
  | Some (c :: r) =>
      flat_map (fun item => kept (parse_item item))
               (split_where (is_char 44%N) (c :: r))
  | _ => []
  end.

End WithEngine.

End ConfigJs.

Module Crawler.
Import AiService OffenderModel Reconciler.

(** What the visit of one source reads from outside: the outcome of the
    request of the table strategy with the clock it reads, what the image
    strategy returns or throws, and the observations of the batch. *)
Record Visit : Type := {
  table_response : result (list TableCrawler.Table);
  table_clock : nat -> Z;
  image_records : result (list jsobj);
  observations : nat -> Observation
}.

Definition records (r : result (list jsobj)) : result (list jsdata) :=
  match r with
  | Ok l => Ok (map DObj l)
  | Throw message => Throw message
  end.

Section WithStore.
Context {E : JsEngine}.
Variables Store Id : Type.
Variable OffenderRecord : Model Store Id.
Variable extractStructuredData : Entropy -> jsstring -> result jsdata.

(** The [switch]: [None] is the [default] branch, which goes on to the
    next source. *)
Definition crawl (dmv : Config.CrawlerConfig) (v : Visit)
  : option (result (list jsdata)) :=
  if str_eqb (Config.crawlerType dmv) (js "table")
  then Some (records (TableCrawler.tableCrawler (Config.url dmv)
                        (table_clock v) (table_response v)))
  else if str_eqb (Config.crawlerType dmv) (js "image")
       then Some (records (image_records v))
       else None.

(** The body of the loop over the sources, with its [try]/[catch]. *)
Definition visit (st : Store) (dv : Config.CrawlerConfig * Visit) : Store :=
  match crawl (fst dv) (snd dv) with
  | Some (Ok (data :: rest)) =>
      store (processDmvData OffenderRecord extractStructuredData
                            (observations (snd dv)) st (data :: rest)
                            (Config.name (fst dv)))
  | _ => st
  end.

Definition run_sources (sources : list (Config.CrawlerConfig * Visit))
           (st : Store) : Store :=
  fold_left visit sources st.

(** [runCrawlers()] against a store; [visits] gives what the visit of
    the [i]-th source reads.  [index.js] imports [parseDmvsList] from
    [../utils/config.js]. *)
Definition runCrawlers (DMVS_LIST : option jsstring) (visits : nat -> Visit)
           (st : Store) : Store :=
  let dmvsList := ConfigJs.parseDmvsList DMVS_LIST in
  run_sources (combine dmvsList
                       (map visits (List.seq 0 (List.length dmvsList)))) st.

End WithStore.

End Crawler.

Module SourceLists.
Import Config.

(** A source as it is written in [DMVS_LIST]. *)
Definition entry (c : CrawlerConfig) : jsstring :=
  name c ++ [124%N] ++ url c ++ [124%N] ++ crawlerType c.

Definition entries (cs : list CrawlerConfig) : jsstring :=
  join [44%N] (map entry cs).

Definition plain (s : jsstring) : bool :=
  forallb (fun ch => negb (is_char 44%N ch) && negb (is_char 124%N ch)) s.

(** A field that survives the round trip: not empty, free of the two
    separators, and without white space at its ends. *)
Definition clean (s : jsstring) : bool :=
  Processor.nonempty s && plain s && str_eqb (trim s) s.

Definition supported (c : CrawlerConfig) : bool :=
  str_eqb (crawlerType c) (js "table") || str_eqb (crawlerType c) (js "image").

Definition well_formed (c : CrawlerConfig) : bool :=
  clean (name c) && clean (url c) && supported c.

Definition taichung : CrawlerConfig :=
  {| name := js "臺中區監理所"; url := js "https://tcmvd.thb.gov.tw/";
     crawlerType := js "table" |}.

Definition taipei_city : CrawlerConfig :=
  {| name := js "臺北市區監理所"; url := js "https://tpcmv.thb.gov.tw/";
     crawlerType := js "image" |}.

End SourceLists.

Module CrawlShape.
Import Crawler.

(** A visit that brings nothing: the type of the source has no strategy,
    the strategy threw, or it returned no record. *)
Definition fruitless (E : JsEngine) (dv : Config.CrawlerConfig * Visit)
  : Prop :=
  match crawl (fst dv) (snd dv) with
  | Some (Ok (_ :: _)) => False
  | _ => True
  end.

(** A visit of a page that holds a table of announcements only, and one
    of a page that cannot be reached. *)
Definition announcements_only : Visit :=
  {| table_response := Ok [Scenario.announcements];
     table_clock := fun _ => 0%Z;
     image_records := Ok [];
     observations := Scenario.world0 |}.

Definition unreachable : Visit :=
  {| table_response := Throw (js "connect ETIMEDOUT");
     table_clock := fun _ => 0%Z;
     image_records := Throw (js "connect ETIMEDOUT");
     observations := Scenario.world0 |}.

End CrawlShape.

(* ===================================================================== *)
(** ** More of the AI adapter ([src/services/aiService.ts]) and the form
       parser that uses it ([formParser], in the text of
       [src/services/databaseService.ts]) *)
(* ===================================================================== *)

Module AiAnswers.
Import AiService.

(** The record [extractStructuredData] returns when no JSON could be read
    from the answer. *)
Definition empty_record : jsobj :=
  [ (js "name", JNull); (js "gender", JNull); (js "idNumber", JNull);
    (js "licensePlate", JNull); (js "violationDate", JNull);
    (js "caseNumber", JNull) ].

(** The end of the live path of [extractStructuredData], from the value
    of [extractJsonFromResponse]: [null], or the array of the records it
    read. *)
Definition live_answer (jsonData : option (list jsobj)) : jsdata :=
  match jsonData with
  | None => DObj empty_record
  | Some [x] => DObj x
  | Some l => DArr l
  end.

(** [!text || text.trim().length === 0] *)
Definition blank (text : jsstring) : bool :=
  match text with
  | [] => true
  | _ => Nat.eqb (List.length (trim text)) 0
  end.

(** [item && item.name], for a record. *)
Definition named (item : jsobj) : bool := truthy (get item (js "name")).

(** [extractOffenderData(text)]: the whole body is under [try], and the
    [catch] returns [null]. *)
Definition extractOffenderData (m : ModuleState) (w : Entropy)
           (text : jsstring) : option jsdata :=
  if negb (isOpenAiAvailable m) then Some (DObj (getMockOffenderData w))
  else
    match openai m with
    | None => None
    | Some _ =>
        if blank text then None
        else
          match extractStructuredData m w text with
          | Throw _ => None
          | Ok (DArr []) => None
          | Ok (DArr (first :: others)) =>
              match find named (first :: others) with
              | Some item => Some (DObj item)
              | None => Some (DObj first)
              end
          | Ok (DObj o) => Some (DObj o)
          | Ok (DStr []) => None
          | Ok (DStr s) => Some (DStr s)
          end
    end.

Definition mock_document : jsstring :=
  js "這是一個模擬的文件內容，用於測試系統。姓名：測試姓名，身分證號碼：A123456789，車牙：測-1234。".

(** [extractTextFromDocument(documentUrl, fileType)]; [live] is the
    outcome of the live path (the file is there, the request, the text
    of the answer): the text, or nothing when a step failed or threw. *)
Definition extractTextFromDocument (m : ModuleState)
           (live : jsstring -> jsstring -> option jsstring)
           (documentUrl fileType : jsstring) : option jsstring :=
  if negb (isOpenAiAvailable m) then Some mock_document
  else
    match openai m with
    | None => None
    | Some _ =>
        match live documentUrl fileType with
        | Some (c :: r) => Some (c :: r)
        | _ => None
        end
    end.

(** A client whose answer to every text is two records, the first without
    a name. *)
Definition two_records : list jsobj :=
  [empty_record; getMockOffenderData {| clock_date := 0; random10000 := 0;
                                        clock_crawl := 0 |}].

Definition answering : AiClient :=
  {| image_request := fun _ => Ok [];
     text_request := fun _ => Ok (DArr two_records) |}.

Definition configured : ModuleState :=
  {| openai := Some answering; isOpenAiAvailable := true |}.

End AiAnswers.

Module FormParser.
Import AiService AiAnswers.

Record FormData : Type := {
  text : option jsstring;
  imageUrl : option jsstring;
  documentUrl : option jsstring;
  fileType : option jsstring;
  source : option jsstring;
  sourceUrl : option jsstring
}.

Inductive validation : Type :=
| Valid (data : FormData)
| Invalid (errorMessage : jsstring).

(** [formData.k && typeof formData.k === 'string'], and then
    [formData.k.trim()]. *)
Definition cleaned (formData : jsobj) (k : jsstring) : option jsstring :=
  match get formData k with
  | JStr (c :: r) => Some (trim (c :: r))
  | _ => None
  end.

Definition validFileTypes : list jsstring :=
  [js "pdf"; js "doc"; js "docx"; js "txt"; js "image"].

Definition unsupported_type : jsstring := js "不支援的檔案類型: ".
Definition nothing_given : jsstring :=
  js "請至少提供文字、圖片或文件其中一種資料".
Definition validation_failed : jsstring := js "表單資料驗證失敗: ".

(** [!x] for a field of the cleaned form. *)
Definition missing (x : option jsstring) : bool :=
  match x with
  | Some (_ :: _) => false
  | _ => true
  end.

Section WithEngine.
Context {E : JsEngine}.

(** The file type, looked at only when a document is given: the type in
    lower case, nothing, or the early return for a type off the list. *)
Definition checked_type (formData : jsobj) : result (option jsstring) :=
  match get formData (js "documentUrl") with
  | JStr (_ :: _) =>
      match get formData (js "fileType") with
      | JStr (c :: r) =>
          let fileType0 := toLowerCase (c :: r) in
          if existsb (str_eqb fileType0) validFileTypes
          then Ok (Some fileType0)
          else Throw (unsupported_type ++ c :: r)
      | _ => Ok None
      end
  | _ => Ok None
  end.

(** The message of the [TypeError] for reading a property of [null] or
    [undefined]; its wording is the engine's. *)
Variable nullish_read : jsstring.

(** [validateFormData(formData)].  The parameter is of type [any]:
    [None] is a [formData] that is [null] or [undefined], for which the
    first read throws and the [catch] answers; any other value is the
    object of its properties. *)
Definition validateFormData (formData : option jsobj) : validation :=
  match formData with
  | None => Invalid (validation_failed ++ nullish_read)
  | Some formData =>
      match checked_type formData with
      | Throw errorMessage => Invalid errorMessage
      | Ok fileType0 =>
          let cleanData :=
            {| text := cleaned formData (js "text");
               imageUrl := cleaned formData (js "imageUrl");
               documentUrl := cleaned formData (js "documentUrl");
               fileType := fileType0;
               source := cleaned formData (js "source");
               sourceUrl := cleaned formData (js "sourceUrl") |} in
          if missing (text cleanData) && missing (imageUrl cleanData)
             && missing (documentUrl cleanData)
          then Invalid nothing_given
          else Valid cleanData
      end
  end.

End WithEngine.

(** *** [JSON.stringify(records, null, 2)] *)

Definition newline (indent : jsstring) : jsstring := 10%N :: indent.

Definition pretty_member (kv : jsstring * jsval) : list jsstring :=
  match snd kv with
  | JUndefined => []
  | JNull => [quote (fst kv) ++ js ": " ++ js "null"]
  | JStr s => [quote (fst kv) ++ js ": " ++ quote s]
  end.

Definition pretty_obj (stepback : jsstring) (o : jsobj) : jsstring :=
  let indent := stepback ++ js "  " in
  match flat_map pretty_member o with
  | [] => js "{}"
  | members =>
      [123%N] ++ newline indent
        ++ join (44%N :: newline indent) members
        ++ newline stepback ++ [125%N]
  end.

Definition pretty_records (l : list jsobj) : jsstring :=
  match l with
  | [] => js "[]"
  | _ =>
      [91%N] ++ newline (js "  ")
        ++ join (44%N :: newline (js "  ")) (map (pretty_obj (js "  ")) l)
        ++ newline [] ++ [93%N]
  end.

(** [Partial<OffenderRecord>] as [parseFormData] fills it; [None] is
    [undefined], and for [gender] it is [null]. *)
Record Extracted : Type := {
  name : option jsstring;
  gender : option jsstring;
  idNumber : option jsstring;
  licensePlate : option jsstring;
  violationDate : option jsstring;
  caseNumber : option jsstring;
  record_source : jsstring;
  record_sourceUrl : option jsstring;
  record_imageUrl : option jsstring;
  crawlTime : Z
}.

Inductive parsed : Type :=
| Success (data : Extracted)
| Failure (errorMessage : jsstring).

Definition no_image_text : jsstring := js "無法從圖片中提取文字".
Definition no_document_text : jsstring := js "無法從文件中提取文字".
Definition incomplete : jsstring := js "表單資料不完整，缺少文字、圖片或文件".
Definition not_parsed : jsstring := js "AI 服務無法解析文字".
Definition parse_failed : jsstring := js "表單資料解析失敗: ".
Definition by_hand : jsstring := js "手動輸入".

(** [x || undefined] *)
Definition if_given (x : option jsstring) : option jsstring :=
  if missing x then None else x.

(** [aiResult.gender === 'male' ? 'male' : ... === 'female' ? 'female' :
    null] *)
Definition gender_of (v : jsval) : option jsstring :=
  match v with
  | JStr s => if str_eqb s (js "male") then Some (js "male")
              else if str_eqb s (js "female") then Some (js "female")
              else None
  | _ => None
  end.

(** What one call reads from outside: the draws of the two operations of
    the adapter it may call, and the clock. *)
Record Reads : Type := {
  image_draw : Entropy;
  data_draw : Entropy;
  clock : Z
}.

(** The text to process: the text of the form, or the text made from
    its image, or the text of its document; or the early return. *)
Definition textToProcess (m : ModuleState)
           (live_document : jsstring -> jsstring -> option jsstring)
           (rd : Reads) (formData : FormData) : result jsstring :=
  if negb (missing (text formData))
  then Ok (match text formData with Some t => t | None => [] end)
  else if negb (missing (imageUrl formData))
  then
    match extractTextFromImage m (image_draw rd)
            (match imageUrl formData with Some u => u | None => [] end) with
    | Throw message => Throw (parse_failed ++ message)
    | Ok imageText =>
        match pretty_records imageText with
        | [] => Throw no_image_text
        | t => Ok t
        end
    end
  else if negb (missing (documentUrl formData))
  then
    match extractTextFromDocument m live_document
            (match documentUrl formData with Some u => u | None => [] end)
            (match fileType formData with
             | Some (c :: r) => c :: r
             | _ => js "pdf"
             end) with
    | Some t => Ok t
    | None => Throw no_document_text
    end
  else Throw incomplete.

Definition parseFormData (m : ModuleState)
           (live_document : jsstring -> jsstring -> option jsstring)
           (rd : Reads) (formData : FormData) : parsed :=
  match textToProcess m live_document rd formData with
  | Throw errorMessage => Failure errorMessage
  | Ok t =>
      match extractOffenderData m (data_draw rd) t with
      | None => Failure not_parsed
      | Some aiResult =>
          let o := named_props aiResult in
          Success
            {| name := nullable (get o (js "name"));
               gender := gender_of (get o (js "gender"));
               idNumber := nullable (get o (js "idNumber"));
               licensePlate := nullable (get o (js "licensePlate"));
               violationDate := nullable (get o (js "violationDate"));
               caseNumber := nullable (get o (js "caseNumber"));
               record_source :=
                 match source formData with
                 | Some (c :: r) => c :: r
                 | _ => by_hand
                 end;
               record_sourceUrl := if_given (sourceUrl formData);
               record_imageUrl := if_given (imageUrl formData);
               crawlTime := clock rd |}
      end
  end.

(** A form with a document of a type off the list, and a form that gives
    an image. *)
Definition executable_form : jsobj :=
  [(js "documentUrl", JStr (js "/tmp/list.exe"));
   (js "fileType", JStr (js "exe"))].

Definition image_form : jsobj :=
  [(js "imageUrl", JStr (js " /tmp/list.jpg "));
   (js "source", JStr (js "臺中區監理所"))].

End FormParser.

Module FullRows.

(** A row with a cell for every column, none of them blank. *)
Definition full_row (columns : nat) (row : list jsstring) : bool :=
  Nat.leb columns (List.length row)
  && Nat.ltb 0 (List.length row)
  && forallb (fun cell => Processor.nonempty (trim cell)) row.

(** Every value of the record is a string that is not empty. *)
Definition filled (record : jsobj) : bool :=
  forallb (fun kv => Nat.ltb 0 (TableCrawler.value_length (snd kv))) record.

(** A table of offenders in which every row is filled. *)
Definition filled_table : TableCrawler.Table :=
  {| TableCrawler.table_text :=
       js "酒駕累犯名單 姓名 身分證字號 王小明 A123 李大同 B456";
     TableCrawler.first_row_cells := [js " 姓名 "; js "身分證字號"];
     TableCrawler.other_rows :=
       [[js "王小明"; js " A123 "]; [js "李大同"; js "B456"]] |}.

End FullRows.

(* ===================================================================== *)
(** ** The image crawler
       ([src/crawler/strategies/imageCrawler.ts])

    The page is what cheerio selects from it: for each element of
    [$('img')], in order, its [src] and [alt] attributes and the text of
    its parent. *)
(* ===================================================================== *)

Module ImagePage.
Import AiService.

Record Img : Type := {
  src : option jsstring;
  alt : option jsstring;
  parent_text : jsstring
}.

Definition is_slash (c : N) : bool := (c =? 47)%N.

(** [path.basename(p)] (POSIX): what stands after the last slash, once
    the slashes at the end are put aside. *)
Definition basename (p : jsstring) : jsstring :=
  rev (PdfFile.take_while (fun c => negb (is_slash c))
                          (drop_while is_slash (rev p))).

(** [x || ''] for an attribute. *)
Definition or_empty (x : option jsstring) : jsstring :=
  match x with
  | Some s => s
  | None => []
  end.

Definition failure_prefix : jsstring := js "圖片爬蟲執行失敗: ".

Section WithEngine.
Context {E : JsEngine}.

Definition isPotentialOffenderImage (img : Img) : bool :=
  let altText := or_empty (alt img) in
  if includes altText (js "酒駕") || includes altText (js "累犯")
     || includes altText (js "名單")
  then true
  else
    let filename := toLowerCase (basename (or_empty (src img))) in
    if includes filename (js "drunk") || includes filename (js "offender")
       || includes filename (js "alcohol") || includes filename (js "dui")
       || includes filename (js "酒駕") || includes filename (js "名單")
    then true
    else
      let parentText := toLowerCase (parent_text img) in
      includes parentText (js "酒駕") || includes parentText (js "累犯")
      || includes parentText (js "公告") || includes parentText (js "名單").

(** What a run reads from outside: the address of the page and the
    outcome of [new URL(url).origin], the local path [downloadImage]
    gives for an address ([None] is [null]), the state of the adapter
    with the draw it makes for an image, and the clock read for the
    record that becomes the [n]-th result. *)
Variable url : jsstring.
Variable origin : result jsstring.
Variable downloadImage : jsstring -> option jsstring.
Variable m : ModuleState.
Variable draw : jsstring -> Entropy.
Variable clock : nat -> Z.

(** The address of an image: a relative one is put after the origin of
    the page. *)
Definition resolve (imgUrl : jsstring) : result jsstring :=
  if startsWith imgUrl (js "/") || negb (startsWith imgUrl (js "http"))
  then
    match origin with
    | Ok o => Ok (o ++ (if startsWith imgUrl (js "/") then [] else js "/")
                    ++ imgUrl)
    | Throw message => Throw message
    end
  else Ok imgUrl.

(** [extractedData.forEach(record => results.push({...}))] *)
Fixpoint push_all (imgUrl : jsstring) (extractedData : list jsobj)
         (results : list jsobj) : list jsobj :=
  match extractedData with
  | [] => results
  | record :: rest =>
      push_all imgUrl rest
        (results ++ [ImageCrawler.typedRecord record url imgUrl
                       (clock (List.length results))])
  end.

(** The state of the loop: [processedUrls] and [results]. *)
Definition loop_state : Type := (list jsstring * list jsobj)%type.

(** One image, from the state before it. *)
Definition look (st : loop_state) (img : Img) : result loop_state :=
  let (processedUrls, results) := st in
  match src img with
  | Some (c :: r) =>
      match resolve (c :: r) with
      | Throw message => Throw message
      | Ok imgUrl =>
          if existsb (str_eqb imgUrl) processedUrls then Ok st
          else
            let seen := imgUrl :: processedUrls in
            if isPotentialOffenderImage img
            then
              match downloadImage imgUrl with
              | Some (p :: ath) =>
                  match extractTextFromImage m (draw imgUrl) (p :: ath) with
                  | Ok extractedData =>
                      Ok (seen, push_all imgUrl extractedData results)
                  | Throw _ => Ok (seen, results)
                  end
              | _ => Ok (seen, results)
              end
            else Ok (seen, results)
      end
  | _ => Ok st
  end.

(** The loop: an exception ends it. *)
Definition next (acc : result loop_state) (img : Img) : result loop_state :=
  match acc with
  | Ok st => look st img
  | Throw message => Throw message
  end.

Definition look_all (images : list Img) (st : loop_state)
  : result loop_state :=
  fold_left next images (Ok st).

(** [imageCrawler(url)]; [response] is the outcome of the request: the
    images of the page, or the error. *)
Definition imageCrawler (response : result (list Img))
  : result (list jsobj) :=
  match response with
  | Throw message => Throw (failure_prefix ++ message)
  | Ok images =>
      match look_all images ([], []) with
      | Ok (_, results) => Ok results
      | Throw message => Throw (failure_prefix ++ message)
      end
  end.

(** The address under which an image of the page is processed, if it has
    one. *)
Definition address (img : Img) : option jsstring :=
  match src img with
  | Some (c :: r) =>
      match resolve (c :: r) with
      | Ok imgUrl => Some imgUrl
      | Throw _ => None
      end
  | _ => None
  end.

End WithEngine.

(** A page that shows the same list twice, the second time with a
    telling [alt]. *)
Definition plain_banner : Img :=
  {| src := Some (js "/upload/banner.jpg"); alt := None;
     parent_text := js "最新消息" |}.

Definition same_banner : Img :=
  {| src := Some (js "https://tcmvd.thb.gov.tw/upload/banner.jpg");
     alt := Some (js "酒駕累犯名單"); parent_text := js "最新消息" |}.

(** What the results of a run show: each record carries the address of
    the page, the clock reading of its position, and the address of an
    image among [pool] that passed the filter. *)
Definition traced {E : JsEngine} (url : jsstring) (origin : result jsstring)
           (clock : nat -> Z) (pool : list Img) (results : list jsobj)
  : Prop :=
  forall i r,
    nth_error results i = Some r ->
    get r (js "sourceUrl") = JStr url
    /\ get r (js "crawlTime") = JStr (toISOString (clock i))
    /\ exists img u,
         In img pool /\ isPotentialOffenderImage img = true
         /\ address origin img = Some u
         /\ get r (js "imageUrl") = JStr u.

Definition list_image : Img :=
  {| src := Some (js "/upload/dui-list.jpg"); alt := Some (js "名單");
     parent_text := [] |}.

End ImagePage.

(* ===================================================================== *)
(** * Properties *)
(* ===================================================================== *)

(** ** Strings and lookups *)

Lemma str_eqb_refl : forall s, str_eqb s s = true.
Proof.
  induction s as [|c s IH]; simpl; [reflexivity|].
  now rewrite N.eqb_refl, IH.
Qed.

Lemma str_eqb_eq : forall a b, str_eqb a b = true <-> a = b.
Proof.
  induction a as [|x a IH]; destruct b as [|y b]; simpl; split;
    try congruence; try discriminate; try reflexivity.
  - intros H. apply andb_true_iff in H as [Hx Hr].
    apply N.eqb_eq in Hx. apply IH in Hr. congruence.
  - intros H. inversion H; subst. now rewrite N.eqb_refl, str_eqb_refl.
Qed.

Lemma opt_eqb_eq : forall a b, opt_eqb a b = true <-> a = b.
Proof.
  intros [a|] [b|]; simpl; split; try congruence; try discriminate.
  - intros H. apply str_eqb_eq in H. congruence.
  - intros H. inversion H. apply str_eqb_refl.
Qed.

Lemma opt_eqb_refl : forall a, opt_eqb a a = true.
Proof. intros a. now apply opt_eqb_eq. Qed.

Lemma find_none_iff :
  forall (A : Type) (p : A -> bool) (l : list A),
    find p l = None <-> forall x, In x l -> p x = false.
Proof.
  intros A p l. split.
  - intros H x Hx. exact (find_none p l H x Hx).
  - induction l as [|a l IH]; simpl; intros H; [reflexivity|].
    rewrite (H a (or_introl eq_refl)). apply IH.
    intros x Hx. apply H. now right.
Qed.

(** ** The reconciler *)

Section ReconcilerFacts.
Import Processor AiService OffenderModel Reconciler Calls Scenario.

(** The class of the repository has none of the three members that
    [processDmvData] calls. *)
Lemma called_members_are_missing :
  existsb (str_eqb (js "findOne")) static_members = false
  /\ existsb (str_eqb (js "updateOne")) static_members = false
  /\ existsb (str_eqb (js "save")) instance_members = false.
Proof. repeat split; vm_compute; reflexivity. Qed.

(** A recorded reconciliation is the reconciliation, with its calls
    added to the list. *)
Lemma reconcile_recorded :
  forall (Store Id : Type) (M : Model Store Id) (v : Normalized)
         (st : Store) (log : list (Call Id)),
    reconcile (recording M) v (st, log)
    = (fst (reconcile M v st),
       (snd (reconcile M v st),
        log ++ Call_findOne (filter_of v)
            :: match fst (findOne M (filter_of v) st) with
               | Ok (Some id) => [Call_updateOne id (update_of v)]
               | Ok None => [Call_save v]
               | Throw _ => []
               end)).
Proof.
  intros Store Id M v st log. unfold reconcile, recording, noted.
  cbn [findOne updateOne save fst snd].
  destruct (findOne M (filter_of v) st) as [[[id|]|message] st1];
    cbn [fst snd]; [| |reflexivity].
  - destruct (updateOne M id (update_of v) st1) as [r st2]. cbn [fst snd].
    now rewrite <- app_assoc.
  - destruct (save M v st1) as [r st2]. cbn [fst snd].
    now rewrite <- app_assoc.
Qed.

Lemma reconcile_item_calls :
  forall (E : JsEngine) (Store Id : Type) (M : Model Store Id)
         (sourceName : jsstring) (v : Normalized) (st : Store),
    normal sourceName v ->
    item_calls sourceName
      (Call_findOne (filter_of v)
         :: match fst (findOne M (filter_of v) st) with
            | Ok (Some id) => [Call_updateOne id (update_of v)]
            | Ok None => [Call_save v]
            | Throw _ => []
            end).
Proof.
  intros E Store Id M sourceName v st Hv. right. exists v.
  split; [exact Hv|].
  destruct (fst (findOne M (filter_of v) st)) as [[id|]|message].
  - right. left. now exists id.
  - right. now right.
  - now left.
Qed.

(** One item of a recorded run: the run without its list is the run of
    the model itself, and the list grows by the calls of the item. *)
Lemma process_item_recorded :
  forall (E : JsEngine) (Store Id : Type) (M : Model Store Id)
         (adapter : Entropy -> jsstring -> result jsdata)
         (sourceName : jsstring) (obs : Observation) (data : jsdata)
         (acc : Outcome (Store * list (Call Id))),
    unlogged (process_item (recording M) adapter sourceName obs data acc)
    = process_item M adapter sourceName obs data (unlogged acc)
    /\ exists group,
         calls (process_item (recording M) adapter sourceName obs data acc)
         = calls acc ++ group
         /\ item_calls sourceName group
         /\ (successCount
               (process_item (recording M) adapter sourceName obs data acc)
             = S (successCount acc) ->
             existsb is_write group = true).
Proof.
  intros E Store Id M adapter sourceName obs data [[st log] sc fc].
  unfold process_item.
  destruct (if is_string data || negb (isStructuredData data)
            then adapter (mock obs) (textContent data) else Ok data)
    as [sd|message].
  - destruct (validateAndNormalize sd sourceName (clock obs)) as [v|] eqn:Hv.
    + cbn [store unlogged fst]. rewrite reconcile_recorded.
      split.
      * destruct (reconcile M v st) as [[u|message] st']; reflexivity.
      * eexists. split; [|split].
        -- destruct (reconcile M v st) as [[u|message] st']; reflexivity.
        -- apply reconcile_item_calls. now exists sd, (clock obs).
        -- unfold reconcile.
           destruct (findOne M (filter_of v) st) as [[[id|]|message] st1];
             cbn [fst snd]; try reflexivity.
           intros H. cbn in H. lia.
    + split; [reflexivity|]. exists []. split; [|split].
      * unfold calls, failed, failed_at. cbn. now rewrite app_nil_r.
      * now left.
      * cbn. lia.
  - split; [reflexivity|]. exists []. split; [|split].
    + unfold calls, failed, failed_at. cbn. now rewrite app_nil_r.
    + now left.
    + cbn. lia.
Qed.

(** A recorded run: one group of calls for each item, in the order of
    the items, and a write in the group of every item that succeeded. *)
Lemma process_from_recorded :
  forall (E : JsEngine) (Store Id : Type) (M : Model Store Id)
         (adapter : Entropy -> jsstring -> result jsdata)
         (sourceName : jsstring) (world : nat -> Observation)
         (rawData : list jsdata) (i : nat)
         (acc : Outcome (Store * list (Call Id))),
    unlogged (process_from (recording M) adapter sourceName world i rawData
                           acc)
    = process_from M adapter sourceName world i rawData (unlogged acc)
    /\ exists groups,
         calls (process_from (recording M) adapter sourceName world i
                             rawData acc)
         = calls acc ++ List.concat groups
         /\ List.length groups = List.length rawData
         /\ Forall (item_calls sourceName) groups
         /\ successCount (process_from (recording M) adapter sourceName
                                       world i rawData acc)
            <= successCount acc
               + List.length (filter (existsb is_write) groups).
Proof.
  intros E Store Id M adapter sourceName world rawData.
  induction rawData as [|data rest IH]; intros i acc.
  - split; [reflexivity|]. exists []. cbn.
    rewrite app_nil_r. repeat split; [constructor | lia].
  - cbn [process_from].
    destruct (@process_item_recorded E Store Id M adapter sourceName (world i)
                                      data acc)
      as (Hu & group & Hc & Hg & Hw).
    destruct (IH (S i) (process_item (recording M) adapter sourceName
                                     (world i) data acc))
      as (Hu' & groups & Hc' & Hl & Hgs & Hs).
    split; [now rewrite Hu', Hu|].
    exists (group :: groups). split; [|split; [|split]].
    + rewrite Hc', Hc. cbn [List.concat]. now rewrite <- app_assoc.
    + cbn. now rewrite Hl.
    + now constructor.
    + cbn [filter].
      assert (Hcount : successCount
                (process_item (recording M) adapter sourceName (world i)
                              data acc) <= S (successCount acc)
              /\ (successCount
                    (process_item (recording M) adapter sourceName (world i)
                                  data acc) <= successCount acc
                  \/ successCount
                       (process_item (recording M) adapter sourceName
                                     (world i) data acc)
                     = S (successCount acc))).
      { unfold process_item.
        destruct (if is_string data || negb (isStructuredData data)
                  then adapter (mock (world i)) (textContent data)
                  else Ok data) as [sd|message]; [|cbn; lia].
        destruct (validateAndNormalize sd sourceName (clock (world i)))
          as [v|]; [|cbn; lia].
        destruct (reconcile (recording M) v (store acc)) as [[u|m] s];
          cbn; lia. }
      destruct Hcount as [_ [Hle|Heq]].
      * destruct (existsb is_write group); cbn [List.length]; lia.
      * rewrite (Hw Heq). cbn [List.length]. lia.
Qed.

Lemma in_item_calls :
  forall (E : JsEngine) (Id : Type) (sourceName : jsstring)
         (groups : list (list (Call Id))) (c : Call Id),
    Forall (item_calls sourceName) groups ->
    In c (List.concat groups) ->
    exists v,
      normal sourceName v
      /\ (c = Call_findOne (filter_of v)
          \/ (exists id, c = Call_updateOne id (update_of v))
          \/ c = Call_save v).
Proof.
  intros E Id sourceName groups c Hg Hin.
  apply in_concat in Hin as (group & Hgin & Hc).
  rewrite Forall_forall in Hg. specialize (Hg group Hgin).
  destruct Hg as [->|(v & Hv & [->|[(id & ->)| ->]])];
    [destruct Hc | | |]; exists v; (split; [exact Hv|]); cbn [In] in Hc.
  - destruct Hc as [<-|[]]. now left.
  - destruct Hc as [<-|[<-|[]]]; [now left | right; left; now exists id].
  - destruct Hc as [<-|[<-|[]]]; [now left | right; now right].
Qed.

(** What a run calls, for any model and any batch. *)
Lemma run_calls :
  forall (E : JsEngine) (Store Id : Type) (M : Model Store Id)
         (adapter : Entropy -> jsstring -> result jsdata)
         (world : nat -> Observation) (st : Store)
         (rawData : list jsdata) (sourceName : jsstring) (c : Call Id),
    In c (calls (processDmvData (recording M) adapter world (st, [])
                                rawData sourceName)) ->
    exists v,
      normal sourceName v
      /\ (c = Call_findOne (filter_of v)
          \/ (exists id, c = Call_updateOne id (update_of v))
          \/ c = Call_save v).
Proof.
  intros E Store Id M adapter world st rawData sourceName c Hin.
  unfold processDmvData in Hin.
  destruct (@process_from_recorded E Store Id M adapter sourceName world
                                   rawData 0 (start (st, [])))
    as (_ & groups & Hc & _ & Hg & _).
  rewrite Hc in Hin. cbn [calls start store snd app] in Hin.
  now apply in_item_calls with (groups := groups).
Qed.

(** With the class of the repository every item is counted as failed
    and the store is never touched. *)
Lemma class_item_fails :
  forall (E : JsEngine) (Store Id : Type)
         (adapter : Entropy -> jsstring -> result jsdata)
         (sourceName : jsstring) (obs : Observation) (data : jsdata)
         (acc : Outcome Store),
    process_item (OffenderRecordModel Store Id) adapter sourceName obs data
                 acc
    = failed acc.
Proof.
  intros E Store Id adapter sourceName obs data acc. unfold process_item.
  destruct (if is_string data || negb (isStructuredData data)
            then adapter (mock obs) (textContent data) else Ok data)
    as [sd|message]; [|reflexivity].
  destruct (validateAndNormalize sd sourceName (clock obs));
    reflexivity.
Qed.

Lemma class_run_fails :
  forall (E : JsEngine) (Store Id : Type)
         (adapter : Entropy -> jsstring -> result jsdata)
         (sourceName : jsstring) (world : nat -> Observation)
         (rawData : list jsdata) (i : nat) (acc : Outcome Store),
    process_from (OffenderRecordModel Store Id) adapter sourceName world i
                 rawData acc
    = {| store := store acc; successCount := successCount acc;
         failCount := failCount acc + List.length rawData |}.
Proof.
  intros E Store Id adapter sourceName world rawData.
  induction rawData as [|data rest IH]; intros i acc; cbn [process_from].
  - destruct acc; cbn. now rewrite Nat.add_0_r.
  - rewrite class_item_fails, IH. cbn. f_equal. lia.
Qed.

Lemma class_stores_nothing :
  forall (E : JsEngine) (Store Id : Type)
         (adapter : Entropy -> jsstring -> result jsdata)
         (world : nat -> Observation) (st : Store)
         (rawData : list jsdata) (sourceName : jsstring),
    processDmvData (OffenderRecordModel Store Id) adapter world st rawData
                   sourceName
    = {| store := st; successCount := 0;
         failCount := List.length rawData |}.
Proof.
  intros. unfold processDmvData. now rewrite class_run_fails.
Qed.

Lemma existingOffender_by_name :
  forall (name_eq : jsstring -> jsstring -> bool)
         (offender : PdfParser.Offender)
         (table : list DatabaseService.OffenderRow),
    match DatabaseService.existingOffender name_eq offender table with
    | Some r =>
        In r table
        /\ name_eq (DatabaseService.o_name r) (PdfParser.name offender)
           = true
    | None =>
        forall r, In r table ->
                  name_eq (DatabaseService.o_name r)
                          (PdfParser.name offender) = false
    end.
Proof.
  intros name_eq offender table. unfold DatabaseService.existingOffender.
  destruct (find _ table) as [r|] eqn:H.
  - now apply find_some in H.
  - intros r Hin. exact (proj1 (find_none_iff _ _) H r Hin).
Qed.



End ReconcilerFacts.

Section UpdateFacts.
Import Processor AiService OffenderModel Reconciler Calls Scenario.

(** Every record the normalizer returns carries exactly one provenance
    entry, so the update built from it writes [sources] twice: [$set]
    puts the list of that one entry in place, and [$addToSet] adds the
    same entry. *)
Lemma update_writes_sources_twice :
  forall (E : JsEngine) (sourceName : jsstring) (v : Normalized),
    normal sourceName v ->
    exists s,
      sources (op_set (update_of v)) = [s]
      /\ op_addToSet_sources (update_of v) = Some s
      /\ src_name s = sourceName.
Proof.
  intros E sourceName v (data & now & H).
  unfold validateAndNormalize in H.
  destruct data as [t|o|l]; [discriminate| |].
  - cbv zeta in H.
    destruct (falsy (getValueFromMultipleKeys (named_props (DObj o)) name_keys)
              || falsy (getValueFromMultipleKeys (named_props (DObj o))
                                                 id_keys)
                 && falsy (getValueFromMultipleKeys (named_props (DObj o))
                                                    plate_keys));
      [discriminate|].
    destruct (getValueFromMultipleKeys (named_props (DObj o)) name_keys);
      [|discriminate].
    inversion H; subst; clear H. eexists. repeat split.
  - cbv zeta in H.
    destruct (falsy (getValueFromMultipleKeys (named_props (DArr l)) name_keys)
              || falsy (getValueFromMultipleKeys (named_props (DArr l))
                                                 id_keys)
                 && falsy (getValueFromMultipleKeys (named_props (DArr l))
                                                    plate_keys));
      [discriminate|].
    destruct (getValueFromMultipleKeys (named_props (DArr l)) name_keys);
      [|discriminate].
    inversion H; subst; clear H. eexists. repeat split.
Qed.



(** C3, the code at the failing input.  The same observation twice,
    with the class of the repository behind [OffenderRecord]: both items
    pass the normalizer, both lookups are attempted and throw, both items
    are counted as failed, and the store is as it was: no row and no
    provenance entry.  And whatever is behind [OffenderRecord], the update
    for a record found again writes [sources] twice, once to replace the
    list by the one incoming entry and once to add that entry. *)
Theorem C3_same_observation_twice :
  forall (E : JsEngine) (Store Id : Type)
         (adapter : Entropy -> jsstring -> result jsdata)
         (world : nat -> Observation) (st : Store),
    processDmvData (OffenderRecordModel Store Id) adapter world st
                   [seen_later; seen_later] source_name
    = {| store := st; successCount := 0; failCount := 2 |}
    /\ (exists v,
           validateAndNormalize seen_later source_name (clock (world 0))
           = Some v
           /\ validateAndNormalize seen_later source_name (clock (world 1))
              = Some v
           /\ calls (processDmvData (recording (OffenderRecordModel Store Id))
                                    adapter world (st, [])
                                    [seen_later; seen_later] source_name)
              = [Call_findOne (filter_of v); Call_findOne (filter_of v)])
    /\ (forall sourceName v,
           normal sourceName v ->
           exists s,
             sources (op_set (update_of v)) = [s]
             /\ op_addToSet_sources (update_of v) = Some s).
Proof.
  intros E Store Id adapter world st. split; [|split].
  - now rewrite class_stores_nothing.
  - eexists. split; [cbv; reflexivity|]. split; reflexivity.
  - intros sourceName v Hv.
    destruct (update_writes_sources_twice Hv) as (s & H1 & H2 & _).
    now exists s.
Qed.

End UpdateFacts.

(** ** The normalizer *)

Section NormalizerFacts.
Import Processor AiService OffenderModel Reconciler Scenario.

(** C4, as stated, fails: a record with a name and a case number, and no
    other identifier, is rejected. *)
Lemma C4_case_number_alone_is_rejected :
  getValueFromMultipleKeys (named_props case_only) name_keys
  = Some (js "王小明")
  /\ getValueFromMultipleKeys (named_props case_only) case_keys
     = Some (js "中市裁字第0001號")
  /\ @validateAndNormalize ExampleEngine.utc case_only source_name 0 = None.
Proof. repeat split; reflexivity. Qed.

(** C4, amended: [validateAndNormalize] returns [null] exactly when the
    extracted name is empty or both the identity number and the licence
    plate are empty; the case number does not count as an identifier.  A
    string or an array in place of the record gives [null] too. *)
Theorem C4_null_iff_name_or_both_identifiers_missing :
  forall (E : JsEngine) (o : jsobj) (sourceName : jsstring) (now : Z),
    (validateAndNormalize (DObj o) sourceName now = None
     <-> falsy (getValueFromMultipleKeys o name_keys) = true
         \/ (falsy (getValueFromMultipleKeys o id_keys) = true
             /\ falsy (getValueFromMultipleKeys o plate_keys) = true))
    /\ (forall l, validateAndNormalize (DArr l) sourceName now = None)
    /\ (forall s, validateAndNormalize (DStr s) sourceName now = None).
Proof.
  intros E o sourceName now. split; [|split; reflexivity].
  unfold validateAndNormalize. cbv zeta.
  change (named_props (DObj o)) with o.
  generalize (getValueFromMultipleKeys o name_keys) as name0.
  generalize (falsy (getValueFromMultipleKeys o id_keys)) as no_id.
  generalize (falsy (getValueFromMultipleKeys o plate_keys)) as no_plate.
  intros no_plate no_id [[|c n]|]; cbn [falsy orb]; try tauto.
  destruct no_id, no_plate; cbn [andb]; try tauto.
  - split; [discriminate | intros [H|[_ H]]; discriminate].
  - split; [discriminate | intros [H|[H _]]; discriminate].
  - split; [discriminate | intros [H|[H _]]; discriminate].
Qed.

Lemma parseDate_unparseable :
  forall (E : JsEngine), parseDate (Some (js "????")) = None.
Proof.
  intros E. unfold parseDate, parseDate_var, Date_of_string; simpl.
  now rewrite Date_parse_empty.
Qed.

Lemma parseRocDate_example :
  forall (E : JsEngine),
    ImportTool.parseRocDate (js "111/7/11")
    = Some (Some (1657497600000 - LocalTZA 1657497600000)%Z).
Proof.
  intros E.
  change (ImportTool.parseRocDate (js "111/7/11"))
    with (Some (TimeClip (1657497600000 - LocalTZA 1657497600000)%Z)).
  unfold TimeClip.
  pose proof (LocalTZA_bound 1657497600000) as Hb. unfold msPerDay in Hb.
  destruct (Z.leb_spec (Z.abs (1657497600000 - LocalTZA 1657497600000))
                       8640000000000000); [reflexivity | lia].
Qed.

(** C5, as stated, fails for the normalizer: [parseDate] hands
    "111/7/11" to the engine as it is, and an engine that reads a leading
    three-digit number as the year answers with year 111. *)
Lemma C5_parseDate_adds_no_1911 :
  @parseDate ExampleEngine.utc (Some (js "111/7/11"))
  = Some (js "0111-07-11")
  /\ @parseDate ExampleEngine.utc (Some (js "111/7/11"))
     <> Some (js "2022-07-11").
Proof. split; [vm_compute; reflexivity | vm_compute; discriminate]. Qed.

(** C5, amended: the conversion from the Republic calendar is
    [parseRocDate]'s, in the import tool: it reads "111/7/11" as local
    midnight of 2022-07-11 (year + 1911) and returns [null] for "????".
    The normalizer's [parseDate] returns [null] for "????" as well and
    never throws, but adds no 1911: for "111/7/11" its answer is the
    engine's reading of that same string. *)
Theorem C5_roc_conversion_is_in_parseRocDate :
  forall (E : JsEngine),
    (exists t0 : Z,
        civil_of_day (t0 / msPerDay) = (2022, 7, 11)%Z
        /\ (t0 mod msPerDay = 0)%Z
        /\ ImportTool.parseRocDate (js "111/7/11")
           = Some (Some (t0 - LocalTZA t0)%Z))
    /\ ImportTool.parseRocDate (js "????") = None
    /\ parseDate (Some (js "????")) = None
    /\ parseDate (Some (js "111/7/11"))
       = option_map (fun t => before_T (toISOString t))
                    (Date_of_string (js "111/7/11")).
Proof.
  intros E. split; [|split; [|split]].
  - exists 1657497600000%Z. split; [reflexivity|]. split; [reflexivity|].
    apply parseRocDate_example.
  - reflexivity.
  - apply parseDate_unparseable.
  - unfold parseDate, parseDate_var; simpl.
    destruct (Date_of_string _); reflexivity.
Qed.

(** The normalizer on a complete table row. *)
Example normalize_table_row :
  @validateAndNormalize ExampleEngine.utc table_row source_name 0
  = Some {| name := js "王 小明";
            idNumber := Some (js "A123456789");
            licensePlate := Some (js "ABC-1234");
            violationDate := Some (js "2023-07-01");
            caseNumber := Some (js "中市裁字第0001號");
            gender := Some (js "male");
            sources := [{| src_name := source_name;
                           src_url := Some (js "https://example.tw/");
                           src_imageUrl := None;
                           src_crawlTime := js "2025-07-08T00:00:00.000Z" |}];
            rawData := JSON_stringify table_row |}.
Proof. vm_compute; reflexivity. Qed.

(** [JSON.stringify]: [undefined] members are left out, quotes and
    backslashes escaped. *)
Example stringify_record :
  JSON_stringify (DObj [str "a" "b"; (js "c", JNull); (js "d", JUndefined);
                        (js "e", JStr [34%N; 92%N])])
  = [123; 34]%N ++ js "a" ++ [34; 58; 34]%N ++ js "b" ++ [34; 44; 34]%N
    ++ js "c" ++ [34; 58]%N ++ js "null" ++ [44; 34]%N ++ js "e"
    ++ [34; 58; 34; 92; 34; 92; 92; 34; 125]%N.
Proof. vm_compute; reflexivity. Qed.

(** [parseDate] on the forms it is written for, and on the same forms with
    a Republic-calendar year, which it takes as written. *)
Example parseDate_forms :
  @parseDate ExampleEngine.utc (Some (js "2023-07-01"))
  = Some (js "2023-07-01")
  /\ @parseDate ExampleEngine.utc (Some (js "2023年7月1日"))
     = Some (js "2023-07-01")
  /\ @parseDate ExampleEngine.utc (Some (js "111年7月11日"))
     = Some (js "0111-07-11")
  /\ @parseDate ExampleEngine.utc (Some (js "2023年7月")) = None
  /\ @parseDate ExampleEngine.taipei (Some (js "111/7/11"))
     = Some (js "0111-07-10").
Proof. repeat split; vm_compute; reflexivity. Qed.

(** [parseRocDate] returns a [Date], not [null], for three fields that are
    not numbers; the date is invalid. *)
Example parseRocDate_not_numbers :
  @ImportTool.parseRocDate ExampleEngine.utc (js "a/b/c") = Some None.
Proof. reflexivity. Qed.

End NormalizerFacts.

(** ** The AI adapter in simulation mode *)

Section SimulationFacts.
Import Processor AiService OffenderModel Reconciler Calls Scenario.

Lemma bytes_of_inj : forall a b, bytes_of a = bytes_of b -> a = b.
Proof.
  induction a as [|x a IH]; destruct b as [|y b]; simpl; intros H;
    try discriminate; [reflexivity|].
  inversion H as [[Hx Hr]]. f_equal; [|now apply IH].
  rewrite <- (ascii_N_embedding x), <- (ascii_N_embedding y). now rewrite Hx.
Qed.

Lemma N_to_uint_nonnil : forall n, N.to_uint n <> Decimal.Nil.
Proof.
  intros [|p]; simpl; [discriminate|].
  apply DecimalPos.Unsigned.to_uint_nonnil.
Qed.

Lemma decimal_inj : forall n m, decimal n = decimal m -> n = m.
Proof.
  intros n m H. unfold decimal in H. apply bytes_of_inj in H.
  apply DecimalN.Unsigned.to_uint_inj.
  pose proof (@NilZero.usu _ (N_to_uint_nonnil n)) as Hn.
  pose proof (@NilZero.usu _ (N_to_uint_nonnil m)) as Hm.
  rewrite H in Hn. rewrite Hn in Hm. now inversion Hm.
Qed.

(** C7: with no credential configured (the variable unset or empty, or a
    client constructor that throws) the module is in simulation mode, and
    there image extraction returns a one-element list and text structuring
    a record, without throwing; the record has the six fields of
    [OffenderData] and the three optional ones, each of them a string. *)
Theorem C7_simulation_returns_a_valid_record :
  forall (construct : jsstring -> result AiClient) (w : Entropy)
         (imagePath text : jsstring),
    init None construct = unconfigured
    /\ init (Some []) construct = unconfigured
    /\ (forall key message,
          init (Some key) (fun _ => Throw message) = unconfigured)
    /\ extractTextFromImage unconfigured w imagePath
       = Ok [getMockOffenderData w]
    /\ extractStructuredData unconfigured w text
       = Ok (DObj (getMockOffenderData w))
    /\ is_OffenderData (getMockOffenderData w) = true
    /\ forallb (fun k => is_JStr (get (getMockOffenderData w) k))
               (required_keys ++ optional_keys) = true.
Proof.
  intros construct w imagePath text.
  repeat split; try reflexivity.
  intros [|c key] message; reflexivity.
Qed.



(** The placeholder, normalized: the values the clock and the draw do not
    touch are in place, also after the image crawler has stamped the
    record. *)
Lemma placeholder_normalized :
  forall (E : JsEngine) (w : Entropy) (sourceName : jsstring) (now : Z),
    exists v,
      validateAndNormalize (DObj (getMockOffenderData w)) sourceName now
      = Some v
      /\ name v = js "測試姓名"
      /\ idNumber v = Some (toUpperCase (js "A123456789"))
      /\ licensePlate v = Some (toUpperCase (js "測-1234"))
      /\ List.map src_name (sources v) = [sourceName].
Proof.
  intros E w sourceName now. eexists. split; [reflexivity|].
  repeat split; reflexivity.
Qed.

Lemma stamped_placeholder_normalized :
  forall (E : JsEngine) (w : Entropy) (url imgUrl sourceName : jsstring)
         (t now : Z),
    exists v,
      validateAndNormalize
        (DObj (ImageCrawler.typedRecord (getMockOffenderData w) url imgUrl t))
        sourceName now = Some v
      /\ name v = js "測試姓名"
      /\ idNumber v = Some (toUpperCase (js "A123456789"))
      /\ licensePlate v = Some (toUpperCase (js "測-1234")).
Proof.
  intros E w url imgUrl sourceName t now. eexists. split; [reflexivity|].
  repeat split; reflexivity.
Qed.

(** With the adapter that [processor.js] imports and no client, an item
    that needs structuring is counted as failed before anything is asked
    of the store. *)
Lemma unstructured_item_without_client :
  forall (E : JsEngine) (Store Id : Type) (M : Model Store Id)
         (sourceName text : jsstring) (obs : Observation)
         (acc : Outcome Store),
    process_item M no_client sourceName obs (DStr text) acc = failed acc.
Proof. reflexivity. Qed.

(** C10, the code at the failing input.  The placeholder of simulation
    mode passes the validation of the normalizer, with its name, identity
    number and licence plate in place, also as the image crawler returns
    it.  [processDmvData] then attempts the lookup for it, and with the
    class of the repository behind [OffenderRecord] the lookup throws: the
    item is counted as failed, nothing else is asked of the store, and the
    store is as it was.  A text item does not get that far: the adapter
    that [processor.js] imports throws without a client. *)
Theorem C10_placeholder_is_not_stored :
  forall (E : JsEngine) (Store Id : Type)
         (adapter : Entropy -> jsstring -> result jsdata)
         (world : nat -> Observation) (st : Store) (w : Entropy)
         (url imgUrl sourceName : jsstring) (t : Z),
    (forall now,
        exists v,
          validateAndNormalize (DObj (getMockOffenderData w)) sourceName now
          = Some v
          /\ name v = js "測試姓名"
          /\ idNumber v = Some (toUpperCase (js "A123456789"))
          /\ licensePlate v = Some (toUpperCase (js "測-1234")))
    /\ (exists v',
           validateAndNormalize
             (DObj (ImageCrawler.typedRecord (getMockOffenderData w)
                                             url imgUrl t))
             sourceName (clock (world 0)) = Some v'
           /\ name v' = js "測試姓名"
           /\ idNumber v' = Some (toUpperCase (js "A123456789"))
           /\ licensePlate v' = Some (toUpperCase (js "測-1234"))
           /\ calls (processDmvData
                       (recording (OffenderRecordModel Store Id)) adapter
                       world (st, [])
                       [DObj (ImageCrawler.typedRecord
                                (getMockOffenderData w) url imgUrl t)]
                       sourceName)
              = [Call_findOne (filter_of v')])
    /\ processDmvData (OffenderRecordModel Store Id) adapter world st
                      [DObj (ImageCrawler.typedRecord
                               (getMockOffenderData w) url imgUrl t)]
                      sourceName
       = {| store := st; successCount := 0; failCount := 1 |}
    /\ (forall text,
           processDmvData (OffenderRecordModel Store Id) no_client world st
                          [DStr text] sourceName
           = {| store := st; successCount := 0; failCount := 1 |}
           /\ calls (processDmvData
                       (recording (OffenderRecordModel Store Id)) no_client
                       world (st, []) [DStr text] sourceName)
              = []).
Proof.
  intros E Store Id adapter world st w url imgUrl sourceName t.
  split; [|split; [|split]].
  - intros now.
    destruct (placeholder_normalized E w sourceName now)
      as (v & Hv & Hn & Hi & Hl & _).
    exists v. repeat split; assumption.
  - destruct (stamped_placeholder_normalized E w url imgUrl sourceName t
                                             (clock (world 0)))
      as (v' & Hv' & Hn' & Hi' & Hl').
    exists v'. repeat (split; [assumption|]).
    unfold processDmvData. cbn [process_from]. unfold process_item.
    change (is_string (DObj (ImageCrawler.typedRecord
                               (getMockOffenderData w) url imgUrl t))
            || negb (isStructuredData
                       (DObj (ImageCrawler.typedRecord
                                (getMockOffenderData w) url imgUrl t))))
      with false.
    cbv iota. rewrite Hv'. reflexivity.
  - now rewrite class_stores_nothing.
  - intros text. split; [now rewrite class_stores_nothing | reflexivity].
Qed.

End SimulationFacts.

(** ** The parsers *)


Section ParserFacts.
Import Scenario.

Lemma skip_tables :
  forall (E : JsEngine) (url : jsstring) (clock : nat -> Z)
         (tables : list TableCrawler.Table) (results : list jsobj),
    (forall t, In t tables -> TableCrawler.checkIfTargetTable t = false) ->
    fold_left (TableCrawler.parse_table url clock) tables results = results.
Proof.
  intros E url clock tables.
  induction tables as [|t tables IH]; intros results H; simpl.
  - reflexivity.
  - unfold TableCrawler.parse_table at 2.
    rewrite (H t (or_introl eq_refl)).
    apply IH. intros t' Ht'. apply H. now right.
Qed.

(** C9: when no table of the document is a target table (none has both a
    keyword in its text and, in its first row, a name column with an
    identity-number or vehicle-number column), the parser returns the
    empty list and does not throw. *)
Theorem C9_no_target_table_gives_empty_list :
  forall (E : JsEngine) (url : jsstring) (clock : nat -> Z)
         (tables : list TableCrawler.Table),
    (forall t, In t tables -> TableCrawler.checkIfTargetTable t = false) ->
    TableCrawler.tableCrawler url clock (Ok tables) = Ok [].
Proof.
  intros E url clock tables H. unfold TableCrawler.tableCrawler.
  now rewrite skip_tables.
Qed.

(** A page with one table of announcements. *)
Lemma C9_no_target_table_witness :
  @TableCrawler.tableCrawler ExampleEngine.utc
     (js "https://tcmvd.thb.gov.tw/") (fun _ => 0%Z) (Ok [announcements])
  = Ok [].
Proof.
  apply (@C9_no_target_table_gives_empty_list ExampleEngine.utc
           (js "https://tcmvd.thb.gov.tw/") (fun _ => 0%Z) [announcements]).
  intros t [<-|[]]. reflexivity.
Defined.

(** C6 on the code: for the two-line block [parseOffenderData] returns one
    record with sequence number 1, the name, the raw date and the second
    line as description, and leaves the statute and the location empty:
    it reads them from continuation lines only, and here they stand on
    the line of the sequence number.  The simulated structuring of
    [OpenAIService] reads them from that line: it returns the record of
    the scenario, which is also the sample record written out in its
    source. *)
Theorem C6_parseOffenderData_drops_statute_and_location :
  PdfParser.parseOffenderData bulletin
  = [ {| PdfParser.id := 1;
         PdfParser.name := js "石玉山";
         PdfParser.violationDate := js "111/7/11";
         PdfParser.violationArticle := [];
         PdfParser.violationLocation := [];
         PdfParser.violationDescription :=
           js "汽機車駕駛人駕駛汽機車，於十年內酒精濃度超過規定標準第2次(無照)";
         PdfParser.hasPhoto := false |} ]
  /\ OpenAIService.scan (split_where (is_char 10%N) bulletin) None []
     = [ {| OpenAIService.serialNumber := js "1";
            OpenAIService.name := js "石玉山";
            OpenAIService.violationDate := js "111/7/11";
            OpenAIService.violationArticle := js "第35條第3項";
            OpenAIService.violationLocation := js "沙鹿區中清路六段489號";
            OpenAIService.violationDescription :=
              js "汽機車駕駛人駕駛汽機車，於十年內酒精濃度超過規定標準第2次(無照)" |} ]
  /\ OpenAIService.simulateExtractDataFromPDF bulletin
     = [OpenAIService.sample_record].
Proof. repeat split; vm_compute; reflexivity. Qed.

(** The same parser on the layout of the published bulletin, where the
    description starts on the line of the sequence number: statute and
    location stay empty there too. *)
Example parseOffenderData_published_layout :
  map (fun o => (PdfParser.id o, PdfParser.violationArticle o,
                 PdfParser.violationLocation o))
      (PdfParser.parseOffenderData published)
  = [(1%Z, [], []); (2%Z, [], [])].
Proof. vm_compute; reflexivity. Qed.

(** A table of offenders is parsed: its row with a name and an identity
    number becomes a record, its empty row does not. *)
Example target_table_is_parsed :
  @TableCrawler.tableCrawler ExampleEngine.utc (js "https://example.tw/")
     (fun _ => 0%Z) (Ok [announcements; offenders_table])
  = Ok [[ (js "姓名", JStr (js "王小明"));
          (js "身分證字號", JStr (js "A123"));
          (js "sourceUrl", JStr (js "https://example.tw/"));
          (js "crawlTime", JStr (js "1970-01-01T00:00:00.000Z")) ]].
Proof. vm_compute; reflexivity. Qed.

End ParserFacts.


(** ** The reconciler on any implementation of the model *)

Section ReconcilerRuns.
Import Processor AiService OffenderModel Reconciler Calls Scenario.

Lemma process_item_counts :
  forall (E : JsEngine) (Store Id : Type) (M : Model Store Id)
         (adapter : Entropy -> jsstring -> result jsdata)
         (sourceName : jsstring) (obs : Observation) (data : jsdata)
         (acc : Outcome Store),
    successCount (process_item M adapter sourceName obs data acc)
    + failCount (process_item M adapter sourceName obs data acc)
    = S (successCount acc + failCount acc).
Proof.
  intros. unfold process_item.
  destruct (if is_string data || negb (isStructuredData data)
            then adapter (mock obs) (textContent data) else Ok data)
    as [sd|]; [|simpl; lia].
  destruct (validateAndNormalize sd sourceName (clock obs)) as [v|];
    [|simpl; lia].
  destruct (reconcile M v (store acc)) as [[u|message] st]; simpl; lia.
Qed.

Lemma process_from_counts :
  forall (E : JsEngine) (Store Id : Type) (M : Model Store Id)
         (adapter : Entropy -> jsstring -> result jsdata)
         (sourceName : jsstring) (world : nat -> Observation)
         (rawData : list jsdata) (i : nat) (acc : Outcome Store),
    successCount (process_from M adapter sourceName world i rawData acc)
    + failCount (process_from M adapter sourceName world i rawData acc)
    = successCount acc + failCount acc + List.length rawData.
Proof.
  intros E Store Id M adapter sourceName world rawData.
  induction rawData as [|data rest IH]; intros i acc; simpl; [lia|].
  rewrite IH, process_item_counts. lia.
Qed.

(** X1: every item of a batch is counted once, as a success or as a
    failure, whatever the adapter and the store do: the two counters of
    [processDmvData] add up to the number of items. *)
Theorem processDmvData_counts_every_item :
  forall (E : JsEngine) (Store Id : Type) (M : Model Store Id)
         (adapter : Entropy -> jsstring -> result jsdata)
         (world : nat -> Observation) (st : Store)
         (rawData : list jsdata) (sourceName : jsstring),
    successCount (processDmvData M adapter world st rawData sourceName)
    + failCount (processDmvData M adapter world st rawData sourceName)
    = List.length rawData.
Proof.
  intros. unfold processDmvData. rewrite process_from_counts. reflexivity.
Qed.

Lemma class_calls_are_lookups :
  forall (E : JsEngine) (Store Id : Type)
         (adapter : Entropy -> jsstring -> result jsdata)
         (sourceName : jsstring) (world : nat -> Observation)
         (rawData : list jsdata) (i : nat)
         (acc : Outcome (Store * list (Call Id))),
    Forall (fun c => exists v, normal sourceName v
                               /\ c = Call_findOne (filter_of v))
           (calls acc) ->
    Forall (fun c => exists v, normal sourceName v
                               /\ c = Call_findOne (filter_of v))
           (calls (process_from (recording (OffenderRecordModel Store Id))
                                adapter sourceName world i rawData acc)).
Proof.
  intros E Store Id adapter sourceName world rawData.
  induction rawData as [|data rest IH]; intros i acc Hacc; [exact Hacc|].
  cbn [process_from]. apply IH. unfold process_item.
  destruct (if is_string data || negb (isStructuredData data)
            then adapter (mock (world i)) (textContent data) else Ok data)
    as [sd|message]; [|exact Hacc].
  destruct (validateAndNormalize sd sourceName (clock (world i)))
    as [v|] eqn:Hv; [|exact Hacc].
  destruct acc as [[st log] sc fc]. cbn [store]. rewrite reconcile_recorded.
  cbn. unfold calls in Hacc. cbn in Hacc.
  apply Forall_app. split; [exact Hacc|].
  constructor; [|constructor].
  exists v. split; [|reflexivity]. now exists sd, (clock (world i)).
Qed.

(** X2: with the class that [src/models/offenderRecord.ts] exports as
    [OffenderRecord], [processDmvData] never writes.  Whatever the batch,
    the adapter and the engine, it returns 0, counts every item as failed
    and leaves the store as it was; all it asks of the class are lookups,
    each for a record the normalizer returned, and each of them throws. *)
Theorem processDmvData_never_writes :
  forall (E : JsEngine) (Store Id : Type)
         (adapter : Entropy -> jsstring -> result jsdata)
         (world : nat -> Observation) (st : Store)
         (rawData : list jsdata) (sourceName : jsstring),
    processDmvData (OffenderRecordModel Store Id) adapter world st rawData
                   sourceName
    = {| store := st; successCount := 0;
         failCount := List.length rawData |}
    /\ (forall c,
           In c (calls (processDmvData
                          (recording (OffenderRecordModel Store Id)) adapter
                          world (st, []) rawData sourceName)) ->
           exists v, normal sourceName v /\ c = Call_findOne (filter_of v))
    /\ (forall filter st0,
           exists message,
             findOne (OffenderRecordModel Store Id) filter st0
             = (Throw message, st0)).
Proof.
  intros E Store Id adapter world st rawData sourceName.
  split; [apply class_stores_nothing|]. split.
  - intros c Hin. unfold processDmvData in Hin.
    pose proof (@class_calls_are_lookups E Store Id adapter sourceName world
                  rawData 0 (start (st, [])) (Forall_nil _)) as H.
    rewrite Forall_forall in H. exact (H c Hin).
  - intros filter st0. eexists. reflexivity.
Qed.


End ReconcilerRuns.

Section NormalizerShape.
Import Processor AiService OffenderModel Reconciler Scenario Invariants.

Lemma get_string_has_key :
  forall (o : jsobj) (k s : jsstring), get o k = JStr s -> has_key o k = true.
Proof.
  intros o k s. unfold get, has_key.
  destruct (obj_lookup o k); [reflexivity | discriminate].
Qed.

Lemma no_key_get :
  forall (o : jsobj) (k : jsstring), has_key o k = false -> get o k = JUndefined.
Proof.
  intros o k. unfold get, has_key.
  destruct (obj_lookup o k); [discriminate | reflexivity].
Qed.

Lemma getValue_cons :
  forall (o : jsobj) (k : jsstring) (rest : list jsstring),
    getValueFromMultipleKeys o (k :: rest)
    = match get o k with
      | JStr s => Some s
      | _ => getValueFromMultipleKeys o rest
      end.
Proof.
  intros o k rest. simpl. unfold has_key, get.
  destruct (obj_lookup o k) as [[| |s]|]; reflexivity.
Qed.

(** X6: [getValueFromMultipleKeys] returns the value of the first alias,
    in the order of the list, under which the record holds a string, and
    [null] exactly when it holds a string under none of them.  An alias
    that is absent, [null] or [undefined] is passed over; an empty string
    is a value like any other and ends the search. *)
Theorem getValueFromMultipleKeys_first_string :
  forall (data : jsobj) (keys : list jsstring),
    match getValueFromMultipleKeys data keys with
    | Some s =>
        exists before key after,
          keys = before ++ key :: after
          /\ get data key = JStr s
          /\ forall k, In k before -> is_JStr (get data k) = false
    | None => forall k, In k keys -> is_JStr (get data k) = false
    end.
Proof.
  intros data keys. induction keys as [|k rest IH].
  - simpl. intros k [].
  - rewrite getValue_cons. destruct (get data k) as [| |s] eqn:Hk.
    + destruct (getValueFromMultipleKeys data rest) as [s|].
      * destruct IH as (b & key & a & -> & Hg & Hb).
        exists (k :: b), key, a. repeat split; [exact Hg|].
        intros k' [<-|Hin]; [now rewrite Hk | now apply Hb].
      * intros k' [<-|Hin]; [now rewrite Hk | now apply IH].
    + destruct (getValueFromMultipleKeys data rest) as [s|].
      * destruct IH as (b & key & a & -> & Hg & Hb).
        exists (k :: b), key, a. repeat split; [exact Hg|].
        intros k' [<-|Hin]; [now rewrite Hk | now apply Hb].
      * intros k' [<-|Hin]; [now rewrite Hk | now apply IH].
    + exists [], k, rest. repeat split; [exact Hk|]. intros k' [].
Qed.

(** X7: an empty string under the first alias hides the others: a record
    whose [name] is the empty string is rejected even when it carries a
    name under [姓名] or [fullName]. *)
Theorem empty_name_hides_other_aliases :
  forall (E : JsEngine) (o : jsobj) (sourceName : jsstring) (now : Z),
    get o (js "name") = JStr [] ->
    validateAndNormalize (DObj o) sourceName now = None.
Proof.
  intros E o sourceName now H. unfold validateAndNormalize. cbv zeta.
  change (named_props (DObj o)) with o.
  unfold name_keys at 1. rewrite getValue_cons, H. reflexivity.
Qed.

Lemma empty_name_hides_other_aliases_witness :
  getValueFromMultipleKeys
    [str "name" ""; str "姓名" "王小明"; str "idNumber" "A123456789"]
    [js "姓名"] = Some (js "王小明")
  /\ @validateAndNormalize ExampleEngine.utc
       (DObj [str "name" ""; str "姓名" "王小明";
              str "idNumber" "A123456789"]) source_name 0 = None.
Proof.
  split; [reflexivity|].
  apply (@empty_name_hides_other_aliases ExampleEngine.utc). reflexivity.
Defined.

Lemma drop_while_head :
  forall (p : N -> bool) (s : jsstring),
    drop_while p s = []
    \/ exists c r, drop_while p s = c :: r /\ p c = false.
Proof.
  intros p s. induction s as [|c s IH]; simpl; [now left|].
  destruct (p c) eqn:Hc; [exact IH|]. right. now exists c, s.
Qed.

Lemma drop_while_snoc :
  forall (p : N -> bool) (l : jsstring) (c : N),
    p c = false -> exists l', drop_while p (l ++ [c]) = l' ++ [c].
Proof.
  intros p l c Hc. induction l as [|a l IH]; simpl.
  - rewrite Hc. now exists [].
  - destruct (p a); [exact IH|]. now exists (a :: l).
Qed.

Lemma drop_while_all :
  forall (p : N -> bool) (s : jsstring),
    forallb p s = true -> drop_while p s = [].
Proof.
  intros p s. induction s as [|c s IH]; simpl; [reflexivity|].
  destruct (p c); [exact IH | discriminate].
Qed.

Lemma ends_in_word_snoc :
  forall (l : jsstring) (c : N), ends_in_word (l ++ [c]) = negb (is_space c).
Proof.
  induction l as [|a l IH]; intros c; [reflexivity|].
  change ((a :: l) ++ [c]) with (a :: (l ++ [c])).
  destruct (l ++ [c]) as [|b r] eqn:Hl.
  - destruct l; discriminate.
  - change (ends_in_word (a :: b :: r)) with (ends_in_word (b :: r)).
    rewrite <- Hl. apply IH.
Qed.

(** What [trim] returns: the empty string, or a string that neither
    starts nor ends with white space. *)
Lemma trim_shape :
  forall s : jsstring,
    trim s = []
    \/ exists c t, trim s = c :: t /\ is_space c = false
                   /\ ends_in_word (c :: t) = true.
Proof.
  intros s. unfold trim.
  destruct (drop_while_head is_space s) as [->|(c & r & -> & Hc)];
    [now left|].
  right. simpl rev.
  destruct (drop_while_snoc is_space (rev r) c Hc) as (l' & Hl').
  rewrite Hl'.
  destruct (drop_while_head is_space (rev r ++ [c])) as [H0|(d & u & Hd & Hdp)].
  - rewrite H0 in Hl'. destruct l'; discriminate.
  - rewrite rev_app_distr. cbn [rev app]. exists c, (rev l').
    split; [reflexivity|]. split; [exact Hc|].
    rewrite Hl' in Hd.
    replace (c :: rev l') with (rev (l' ++ [c])) by (now rewrite rev_app_distr).
    rewrite Hd. cbn [rev]. rewrite ends_in_word_snoc. now rewrite Hdp.
Qed.

Lemma trim_all_space :
  forall s : jsstring, forallb is_space s = true -> trim s = [].
Proof.
  intros s H. unfold trim. now rewrite (drop_while_all _ _ H).
Qed.

Lemma collapse_single_spaced :
  forall (t : jsstring) (b : bool),
    ends_in_word t = true ->
    single_spaced b (collapse_spaces b t) = true.
Proof.
  induction t as [|c t IH]; intros b H; [discriminate|].
  assert (Ht : (t = [] /\ is_space c = false) \/ ends_in_word t = true).
  { destruct t as [|d t']; [left | right; exact H].
    simpl in H. apply negb_true_iff in H. now split. }
  destruct Ht as [[-> Hc]|Ht].
  - simpl. rewrite Hc. simpl. now rewrite Hc.
  - cbn [collapse_spaces]. destruct (is_space c) eqn:Hc.
    + destruct b.
      * now apply IH.
      * cbn [single_spaced]. change (is_space 32) with true. cbn iota.
        rewrite (IH true Ht). reflexivity.
    + cbn [single_spaced]. rewrite Hc. now apply IH.
Qed.

Lemma trimmed_name_well_spaced :
  forall n : jsstring, well_spaced (collapse_spaces false (trim n)) = true.
Proof.
  intros n. destruct (trim_shape n) as [->|(c & t & -> & Hc & He)];
    [reflexivity|].
  cbn [collapse_spaces]. rewrite Hc. unfold well_spaced.
  cbn [single_spaced]. rewrite Hc.
  destruct t as [|d t']; [reflexivity|].
  apply collapse_single_spaced. exact He.
Qed.

Lemma normalizeGender_range :
  forall (E : JsEngine) (g : option jsstring),
    normalizeGender g = None \/ normalizeGender g = Some (js "male")
    \/ normalizeGender g = Some (js "female").
Proof.
  intros E g. unfold normalizeGender.
  destruct (falsy g); [now left|]. destruct g as [g|]; [|now left].
  destruct (existsb _ male_words); [now right; left|].
  destruct (existsb _ female_words); [now right; right | now left].
Qed.


(** X9: validation reads the name and the identifiers before it trims
    them.  A record whose name is white space only, with an identity
    number, passes [validateAndNormalize] and comes out with the empty
    string as its name, beside the identity number trimmed and in upper
    case: the normalizer can return a record without a name. *)
Theorem blank_name_passes_validation :
  forall (E : JsEngine) (o : jsobj) (n i : jsstring)
         (sourceName : jsstring) (now : Z),
    getValueFromMultipleKeys o name_keys = Some n ->
    n <> [] -> forallb is_space n = true ->
    getValueFromMultipleKeys o id_keys = Some i -> i <> [] ->
    exists v,
      validateAndNormalize (DObj o) sourceName now = Some v
      /\ name v = []
      /\ idNumber v = Some (toUpperCase (trim i)).
Proof.
  intros E o n i sourceName now Hn Hne Hsp Hi Hie.
  unfold validateAndNormalize. cbv zeta.
  change (named_props (DObj o)) with o. rewrite Hn, Hi.
  destruct n as [|c r]; [congruence|]. destruct i as [|c' r']; [congruence|].
  cbn [falsy orb andb]. eexists. split; [reflexivity|].
  cbn [name]. rewrite (trim_all_space _ Hsp). split; reflexivity.
Qed.

Lemma blank_name_passes_validation_witness :
  exists v,
    @validateAndNormalize ExampleEngine.utc
      (DObj [str "name" "  "; str "idNumber" "A123456789"]) source_name 0
    = Some v
    /\ name v = []
    /\ idNumber v
       = Some (@toUpperCase ExampleEngine.utc (trim (js "A123456789"))).
Proof.
  apply (@blank_name_passes_validation ExampleEngine.utc
           [str "name" "  "; str "idNumber" "A123456789"]
           (js "  ") (js "A123456789")); try reflexivity; discriminate.
Defined.

(** X10: a date text with none of the characters [parseDate] keeps
    (digits, [/], [-], [.], 年, 月, 日) is [null] for every engine, and so
    is a date written with 年, 月 or 日 that has fewer than three non-empty
    parts (the read of the unset date throws, and the [catch] returns
    [null]). *)
Theorem parseDate_null_cases :
  forall (E : JsEngine) (s : jsstring),
    (forallb (fun c => negb (date_char c)) s = true ->
     parseDate (Some s) = None)
    /\ (existsb is_cjk_date_mark s = true ->
        List.length (filter nonempty
                       (split_where is_cjk_date_mark (filter date_char s))) < 3 ->
        parseDate (Some s) = None).
Proof.
  intros E s. split.
  - intros H. unfold parseDate. destruct s as [|c r]; [reflexivity|].
    cbn [falsy].
    assert (Hf : filter date_char (c :: r) = []).
    { revert H. generalize (c :: r). intros l.
      induction l as [|a l IH]; simpl; [reflexivity|].
      destruct (date_char a); simpl; [discriminate | exact IH]. }
    rewrite Hf. unfold parseDate_var, Date_of_string. simpl.
    now rewrite Date_parse_empty.
  - intros Hm Hl. unfold parseDate. destruct s as [|c r]; [reflexivity|].
    cbn [falsy]. unfold parseDate_var.
    assert (Hk : existsb is_cjk_date_mark (filter date_char (c :: r)) = true).
    { revert Hm. generalize (c :: r). intros l.
      induction l as [|a l IH]; simpl; [discriminate|].
      destruct (is_cjk_date_mark a) eqn:Ha.
      - intros _. unfold date_char. rewrite Ha, !orb_true_r. simpl.
        now rewrite Ha.
      - simpl. intros H. destruct (date_char a); [simpl; rewrite Ha|];
          now apply IH. }
    rewrite Hk.
    destruct (filter nonempty _) as [|p0 [|p1 [|p2 ps]]]; try reflexivity.
    simpl in Hl. lia.
Qed.

Lemma parseDate_null_cases_witness :
  @parseDate ExampleEngine.utc (Some (js "不詳")) = None
  /\ @parseDate ExampleEngine.utc (Some (js "7月1日")) = None.
Proof.
  split.
  - apply (proj1 (@parseDate_null_cases ExampleEngine.utc (js "不詳"))).
    reflexivity.
  - apply (proj2 (@parseDate_null_cases ExampleEngine.utc (js "7月1日")));
      [reflexivity | simpl; lia].
Defined.

End NormalizerShape.


Section AliasFacts.
Import Processor AiService OffenderModel Reconciler Scenario Invariants.
Import Aliases.

Lemma placeholder_is_structured :
  forall w : Entropy, isStructuredData (DObj (getMockOffenderData w)) = true.
Proof. intros w. reflexivity. Qed.

(** X11: [isStructuredData] knows fewer aliases than the normalizer.  A
    record that gives its plate under [車號] (or only under [vehicleNumber]
    or [ID]) would pass [validateAndNormalize], but it is not taken as
    structured: whatever the adapter and the store, the item is
    processed exactly as the text of its JSON form would be, and with the
    adapter that [processor.js] imports and no client it is counted as
    failed, valid as the record was. *)
Theorem unlisted_alias_is_sent_to_the_adapter :
  forall (E : JsEngine) (o : jsobj) (n p : jsstring),
    get o (js "name") = JStr n -> n <> [] ->
    get o (js "車號") = JStr p -> p <> [] ->
    (forall k, In k structured_identifier_keys -> has_key o k = false) ->
    (forall sourceName now,
        exists v, validateAndNormalize (DObj o) sourceName now = Some v
                  /\ name v = collapse_spaces false (trim n)
                  /\ licensePlate v = Some (toUpperCase (trim p)))
    /\ isStructuredData (DObj o) = false
    /\ (forall (Store Id : Type) (M : Model Store Id)
               (adapter : Entropy -> jsstring -> result jsdata)
               sourceName obs acc,
           process_item M adapter sourceName obs (DObj o) acc
           = process_item M adapter sourceName obs
                          (DStr (JSON_stringify (DObj o))) acc)
    /\ (forall (Store Id : Type) (M : Model Store Id) sourceName obs acc,
           process_item M no_client sourceName obs (DObj o) acc
           = failed acc).
Proof.
  intros E o n p Hn Hne Hp Hpe Hk.
  assert (K : forall k, In k structured_identifier_keys ->
                        has_key o k = false /\ get o k = JUndefined).
  { intros k Hin. split; [now apply Hk | apply no_key_get; now apply Hk]. }
  unfold structured_identifier_keys in K.
  destruct (K (js "idNumber")) as [K1 G1]; [simpl; tauto|].
  destruct (K (js "身分證字號")) as [K2 G2]; [simpl; tauto|].
  destruct (K (js "id")) as [K3 G3]; [simpl; tauto|].
  destruct (K (js "licensePlate")) as [K4 G4]; [simpl; tauto|].
  destruct (K (js "車牌號碼")) as [K5 G5]; [simpl; tauto|].
  destruct (K (js "plateNumber")) as [K6 G6]; [simpl; tauto|].
  clear K Hk.
  assert (Hs : isStructuredData (DObj o) = false).
  { unfold isStructuredData. cbv zeta. change (named_props (DObj o)) with o.
    rewrite K1, K2, K3, K4, K5, K6. simpl. apply andb_false_r. }
  split; [|split; [exact Hs|split]].
  - intros sourceName now. unfold validateAndNormalize. cbv zeta.
    change (named_props (DObj o)) with o.
    assert (Hname : getValueFromMultipleKeys o name_keys = Some n).
    { unfold name_keys. now rewrite getValue_cons, Hn. }
    assert (Hplate : getValueFromMultipleKeys o plate_keys = Some p).
    { unfold plate_keys. now rewrite !getValue_cons, G4, G5, Hp. }
    rewrite Hname, Hplate.
    destruct n as [|c r]; [congruence|]. destruct p as [|c' r']; [congruence|].
    cbn [falsy orb andb]. rewrite andb_false_r.
    eexists. split; [reflexivity|]. split; reflexivity.
  - intros Store Id M adapter sourceName obs acc. unfold process_item.
    rewrite Hs. reflexivity.
  - intros Store Id M sourceName obs acc. unfold process_item.
    rewrite Hs. reflexivity.
Qed.

Lemma unlisted_alias_is_sent_to_the_adapter_witness :
  (forall sourceName now,
      exists v,
        @validateAndNormalize ExampleEngine.utc
          (DObj [str "name" "王小明"; str "車號" "abc-1234"]) sourceName now
        = Some v
        /\ name v = collapse_spaces false (trim (js "王小明"))
        /\ licensePlate v
           = Some (@toUpperCase ExampleEngine.utc (trim (js "abc-1234"))))
  /\ isStructuredData
       (DObj [str "name" "王小明"; str "車號" "abc-1234"]) = false
  /\ (forall (Store Id : Type) (M : Model Store Id)
             (adapter : Entropy -> jsstring -> result jsdata)
             sourceName obs acc,
         @process_item ExampleEngine.utc Store Id M adapter sourceName obs
           (DObj [str "name" "王小明"; str "車號" "abc-1234"]) acc
         = @process_item ExampleEngine.utc Store Id M adapter sourceName obs
             (DStr (JSON_stringify
                      (DObj [str "name" "王小明"; str "車號" "abc-1234"])))
             acc)
  /\ (forall (Store Id : Type) (M : Model Store Id) sourceName obs acc,
         @process_item ExampleEngine.utc Store Id M no_client sourceName obs
           (DObj [str "name" "王小明"; str "車號" "abc-1234"]) acc
         = failed acc).
Proof.
  apply (@unlisted_alias_is_sent_to_the_adapter ExampleEngine.utc
           [str "name" "王小明"; str "車號" "abc-1234"]
           (js "王小明") (js "abc-1234")); try reflexivity; try discriminate.
  intros k Hin. simpl in Hin.
  repeat (destruct Hin as [<-|Hin]; [reflexivity|]). contradiction.
Defined.

End AliasFacts.


(** ** The table crawler on any document *)

Section TableFacts.
Import TableCrawler TableShape.

Lemma get_obj_set_same :
  forall (o : jsobj) (k : jsstring) (v : jsval), get (obj_set o k v) k = v.
Proof.
  intros o k v. unfold get.
  induction o as [|[k' v'] o IH]; simpl.
  - now rewrite str_eqb_refl.
  - destruct (str_eqb k' k) eqn:Hk; simpl; rewrite Hk; [reflexivity|exact IH].
Qed.

Lemma get_obj_set_other :
  forall (o : jsobj) (k k' : jsstring) (v : jsval),
    str_eqb k k' = false -> get (obj_set o k v) k' = get o k'.
Proof.
  intros o k k' v Hk. unfold get.
  induction o as [|[k0 v0] o IH]; simpl.
  - now rewrite Hk.
  - destruct (str_eqb k0 k) eqn:H0; simpl.
    + apply str_eqb_eq in H0. subst k0. now rewrite Hk.
    + destruct (str_eqb k0 k'); [reflexivity|exact IH].
Qed.

Lemma parse_table_skip :
  forall (E : JsEngine) (url : jsstring) (clock : nat -> Z)
         (results : list jsobj) (t : Table),
    checkIfTargetTable t = false -> parse_table url clock results t = results.
Proof. intros E url clock results t H. unfold parse_table. now rewrite H. Qed.

Lemma fold_parse_table_filter :
  forall (E : JsEngine) (url : jsstring) (clock : nat -> Z)
         (tables : list Table) (results : list jsobj),
    fold_left (parse_table url clock) tables results
    = fold_left (parse_table url clock) (filter checkIfTargetTable tables)
                results.
Proof.
  intros E url clock tables.
  induction tables as [|t tables IH]; intros results; simpl; [reflexivity|].
  destruct (checkIfTargetTable t) eqn:Ht; simpl.
  - apply IH.
  - rewrite (parse_table_skip _ _ _ _ _ Ht). apply IH.
Qed.

(** X12: only the target tables of a document matter.  Whatever other
    tables the page holds, and wherever they stand, [tableCrawler] returns
    what it returns for the target tables alone, in their order. *)
Theorem tableCrawler_ignores_other_tables :
  forall (E : JsEngine) (url : jsstring) (clock : nat -> Z)
         (tables : list Table),
    tableCrawler url clock (Ok tables)
    = tableCrawler url clock (Ok (filter checkIfTargetTable tables)).
Proof.
  intros E url clock tables. unfold tableCrawler.
  now rewrite fold_parse_table_filter.
Qed.

Lemma stamped_snoc :
  forall url clock rs rowData,
    stamped url clock rs ->
    stamped url clock
      (rs ++ [obj_set (obj_set rowData (js "sourceUrl") (JStr url))
                      (js "crawlTime")
                      (JStr (toISOString (clock (List.length rs))))]).
Proof.
  intros url clock rs rowData H i r Hi.
  destruct (Nat.lt_ge_cases i (List.length rs)) as [Hlt|Hge].
  - rewrite nth_error_app1 in Hi by exact Hlt. now apply H.
  - rewrite nth_error_app2 in Hi by exact Hge.
    destruct (i - List.length rs) as [|j] eqn:Hj; simpl in Hi.
    + inversion Hi; subst r; clear Hi.
      assert (i = List.length rs) by lia. subst i. split.
      * rewrite get_obj_set_other by reflexivity. apply get_obj_set_same.
      * apply get_obj_set_same.
    + destruct j; discriminate.
Qed.

Lemma parse_rows_stamped :
  forall (E : JsEngine) url clock headers rows results,
    stamped url clock results ->
    stamped url clock (parse_rows url clock headers rows results)
    /\ List.length (parse_rows url clock headers rows results)
       <= List.length results + List.length rows.
Proof.
  intros E url clock headers rows.
  induction rows as [|row rows IH]; intros results H; simpl.
  - split; [exact H | lia].
  - destruct (isValidRecord (fill_row headers 0 row [])).
    + destruct (IH _ (stamped_snoc (fill_row headers 0 row []) H)) as [Hs Hl].
      split; [exact Hs|]. rewrite length_app in Hl. simpl in Hl. lia.
    + destruct (IH _ H) as [Hs Hl]. split; [exact Hs | lia].
Qed.

Lemma fold_parse_table_stamped :
  forall (E : JsEngine) url clock tables results,
    stamped url clock results ->
    stamped url clock (fold_left (parse_table url clock) tables results)
    /\ List.length (fold_left (parse_table url clock) tables results)
       <= List.length results
          + list_sum (map (fun t => List.length (other_rows t))
                          (filter checkIfTargetTable tables)).
Proof.
  intros E url clock tables.
  induction tables as [|t tables IH]; intros results H; simpl.
  - split; [exact H | lia].
  - unfold parse_table at 2 4. destruct (checkIfTargetTable t); simpl.
    + destruct (@parse_rows_stamped E url clock (map trim (first_row_cells t))
                                   (other_rows t) results H) as [Hs Hl].
      destruct (IH _ Hs) as [Hs' Hl']. split; [exact Hs' | lia].
    + now apply IH.
Qed.

(** X13: every record [tableCrawler] returns carries the address of the
    page under [sourceUrl] and the clock reading taken for it under
    [crawlTime], also when the table has columns of these names; and the
    call returns at most one record for each data row of a target
    table. *)
Theorem tableCrawler_stamps_every_record :
  forall (E : JsEngine) (url : jsstring) (clock : nat -> Z)
         (tables : list Table),
    exists rs,
      tableCrawler url clock (Ok tables) = Ok rs
      /\ (forall i r, nth_error rs i = Some r ->
                      get r (js "sourceUrl") = JStr url
                      /\ get r (js "crawlTime")
                         = JStr (toISOString (clock i)))
      /\ List.length rs
         <= list_sum (map (fun t => List.length (other_rows t))
                          (filter checkIfTargetTable tables)).
Proof.
  intros E url clock tables. eexists. split; [reflexivity|].
  assert (H0 : stamped url clock []).
  { intros i r Hi. destruct i; discriminate. }
  destruct (@fold_parse_table_stamped E url clock tables [] H0) as [Hs Hl].
  split; [exact Hs | exact Hl].
Qed.

End TableFacts.


(** ** The matcher *)

Section MatcherFacts.
Import Regex PdfParser PdfFile.

Lemma run_rep :
  forall (R : Type) (g : bool) (lo : nat) (hi : option nat) (a : regex)
         (st : mstate) (k : mstate -> option R),
    run (RRep g lo hi a) st k
    = rep_loop g lo hi a k (S (List.length (rest st)) + lo) 0 st.
Proof. reflexivity. Qed.

(** No expression matches across a place where its continuation cannot
    go on: if the continuation fails in every state whose remaining input
    satisfies [Q], and [Q] holds of the input and of its tails, the
    expression fails. *)
Lemma run_fails :
  forall (Q : jsstring -> Prop),
    (forall c t, Q (c :: t) -> Q t) ->
    forall (R : Type) (r : regex) (st : mstate) (k : mstate -> option R),
      Q (rest st) ->
      (forall s, Q (rest s) -> k s = None) ->
      run r st k = None.
Proof.
  intros Q Htail R r.
  induction r as [p| |a IHa b IHb|a IHa b IHb|g lo hi a IHa|i a IHa|];
    intros st k Hst Hk.
  - simpl. destruct (rest st) as [|c t] eqn:Hr; [reflexivity|].
    destruct (p c); [|reflexivity]. apply Hk. simpl. now apply Htail with c.
  - simpl. now apply Hk.
  - simpl. apply IHa; [exact Hst|]. intros s Hs. now apply IHb.
  - simpl. rewrite IHa by assumption. simpl. now apply IHb.
  - rewrite run_rep. generalize (S (List.length (rest st)) + lo).
    generalize 0. intros n fuel. revert n st Hst.
    induction fuel as [|f IHf]; intros n st Hst.
    + simpl. destruct g; simpl; destruct (Nat.leb lo n); simpl;
        try reflexivity; now rewrite Hk.
    + assert (Hmore : (if below n hi
                       then run a st
                              (fun s1 =>
                                 if Nat.eqb (pos s1) (pos st) && Nat.leb lo n
                                 then None
                                 else rep_loop g lo hi a k f (S n) s1)
                       else None) = None).
      { destruct (below n hi); [|reflexivity].
        apply IHa; [exact Hst|]. intros s Hs.
        destruct (Nat.eqb (pos s) (pos st) && Nat.leb lo n); [reflexivity|].
        now apply IHf. }
      assert (Hstop : (if Nat.leb lo n then k st else None) = None).
      { destruct (Nat.leb lo n); [now apply Hk | reflexivity]. }
      change (rep_loop g lo hi a k (S f) n st)
        with (if g
              then or_else
                     (if below n hi
                      then run a st
                             (fun s1 =>
                                if Nat.eqb (pos s1) (pos st) && Nat.leb lo n
                                then None
                                else rep_loop g lo hi a k f (S n) s1)
                      else None)
                     (fun _ => if Nat.leb lo n then k st else None)
              else or_else
                     (if Nat.leb lo n then k st else None)
                     (fun _ =>
                        if below n hi
                        then run a st
                               (fun s1 =>
                                  if Nat.eqb (pos s1) (pos st) && Nat.leb lo n
                                  then None
                                  else rep_loop g lo hi a k f (S n) s1)
                        else None)).
      rewrite Hmore, Hstop. now destruct g.
  - simpl. apply IHa; [exact Hst|]. intros s Hs. apply Hk. exact Hs.
  - simpl. destruct (Nat.eqb (pos st) 0); [now apply Hk | reflexivity].
Qed.

Lemma rep_loop_greedy_step :
  forall (R : Type) (lo : nat) (a : regex) (k : mstate -> option R)
         (f n : nat) (s : mstate),
    rep_loop true lo None a k (S f) n s
    = or_else
        (run a s (fun s1 => if Nat.eqb (pos s1) (pos s) && Nat.leb lo n
                            then None
                            else rep_loop true lo None a k f (S n) s1))
        (fun _ => if Nat.leb lo n then k s else None).
Proof. reflexivity. Qed.

(** A greedy repetition of a character class consumes the longest run of
    the class and then gives units back one at a time. *)
Lemma rep_chars_backtrack :
  forall (R : Type) (p : N -> bool) (lo : nat) (k : mstate -> option R)
         (pre post : jsstring),
    forallb p pre = true ->
    take_while p post = [] ->
    forall (fuel n : nat) (s : mstate),
      rest s = pre ++ post ->
      List.length pre < fuel ->
      rep_loop true lo None (RChar p) k fuel n s = backtrack k lo n s pre post.
Proof.
  intros R p lo k pre post. induction pre as [|c pre IH]; intros Hp Hq fuel n s Hs Hf.
  - destruct fuel as [|f]; [simpl in Hf; lia|].
    rewrite rep_loop_greedy_step. cbn [run]. simpl in Hs. rewrite Hs.
    destruct post as [|d post']; [reflexivity|].
    simpl in Hq. destruct (p d); [discriminate | reflexivity].
  - destruct fuel as [|f]; [simpl in Hf; lia|].
    rewrite rep_loop_greedy_step. cbn [run]. rewrite Hs.
    simpl in Hp. apply andb_true_iff in Hp as [Hc Hp].
    change ((c :: pre) ++ post) with (c :: (pre ++ post)). cbv iota. rewrite Hc.
    replace (Nat.eqb (pos (advance s (pre ++ post))) (pos s)) with false
      by (symmetry; apply Nat.eqb_neq; simpl; lia).
    cbn [andb backtrack].
    rewrite (IH Hp Hq f (S n) (advance s (pre ++ post)) eq_refl)
      by (simpl in Hf; lia).
    reflexivity.
Qed.

Lemma moved_advance :
  forall (s : mstate) (c : N) (t : jsstring) (j : nat),
    rest s = c :: t -> moved (advance s t) j = moved s (S j).
Proof.
  intros s c t j H. unfold moved, advance. simpl. rewrite H. simpl.
  f_equal. lia.
Qed.

Lemma moved_0 : forall s, moved s 0 = s.
Proof. intros [p r c]. unfold moved. simpl. f_equal. lia. Qed.

(** If the continuation succeeds after the whole run, that is the
    match. *)
Lemma backtrack_end :
  forall (R : Type) (k : mstate -> option R) (lo : nat) (pre post : jsstring)
         (n : nat) (s : mstate) (x : R),
    rest s = pre ++ post ->
    lo <= n + List.length pre ->
    k (moved s (List.length pre)) = Some x ->
    backtrack k lo n s pre post = Some x.
Proof.
  intros R k lo pre post. induction pre as [|c pre IH]; intros n s x Hs Hlo Hk.
  - simpl. rewrite moved_0 in Hk. simpl in Hlo.
    replace (Nat.leb lo n) with true by (symmetry; apply Nat.leb_le; lia).
    exact Hk.
  - cbn [backtrack].
    rewrite (IH (S n) (advance s (pre ++ post)) x); [reflexivity|reflexivity| |].
    + simpl in Hlo. lia.
    + rewrite moved_advance with (c := c) by exact Hs. exact Hk.
Qed.

(** If it fails wherever the run may stop, the repetition fails. *)
Lemma backtrack_none :
  forall (R : Type) (k : mstate -> option R) (lo : nat) (pre post : jsstring)
         (n : nat) (s : mstate),
    rest s = pre ++ post ->
    (forall j, j <= List.length pre -> lo <= n + j -> k (moved s j) = None) ->
    backtrack k lo n s pre post = None.
Proof.
  intros R k lo pre post. induction pre as [|c pre IH]; intros n s Hs Hk.
  - simpl. destruct (Nat.leb lo n) eqn:Hl; [|reflexivity].
    rewrite <- (moved_0 s). apply Hk; [simpl; lia|].
    apply Nat.leb_le in Hl. lia.
  - cbn [backtrack]. rewrite IH; [| reflexivity |].
    + simpl. destruct (Nat.leb lo n) eqn:Hl; [|reflexivity].
      rewrite <- (moved_0 s). apply Hk; [simpl; lia|].
      apply Nat.leb_le in Hl. lia.
    + intros j Hj Hlo. rewrite moved_advance with (c := c) by exact Hs.
      apply Hk; [simpl; lia | lia].
Qed.

Lemma take_drop_while :
  forall (p : N -> bool) (s : jsstring),
    s = take_while p s ++ drop_while p s
    /\ forallb p (take_while p s) = true
    /\ take_while p (drop_while p s) = [].
Proof.
  intros p s. induction s as [|c s (IH1 & IH2 & IH3)]; simpl.
  - repeat split.
  - destruct (p c) eqn:Hc; simpl.
    + rewrite Hc. repeat split; [now f_equal | exact IH2 | exact IH3].
    + rewrite Hc. repeat split.
Qed.

End MatcherFacts.


(** ** Lines that start a record *)

Section TriggerFacts.
Import Regex PdfParser PdfFile.

Lemma digit_not_space : forall c, is_digit c = true -> is_space c = false.
Proof.
  intros c H. unfold is_digit in H.
  apply andb_true_iff in H as [H1 H2].
  apply N.leb_le in H1. apply N.leb_le in H2.
  destruct (is_space c) eqn:E; [exfalso | reflexivity].
  unfold is_space in E.
  rewrite !orb_true_iff, !andb_true_iff, !N.eqb_eq, !N.leb_le in E. lia.
Qed.

Lemma space_not_digit : forall c, is_space c = true -> is_digit c = false.
Proof.
  intros c H. destruct (is_digit c) eqn:E; [|reflexivity].
  apply digit_not_space in E. congruence.
Qed.

Lemma run_class_rep :
  forall (R : Type) (p : N -> bool) (lo : nat) (k : mstate -> option R)
         (s : mstate),
    run (RRep true lo None (RChar p)) s k
    = backtrack k lo 0 s (take_while p (rest s)) (drop_while p (rest s)).
Proof.
  intros R p lo k s. rewrite run_rep.
  destruct (take_drop_while p (rest s)) as (H1 & H2 & H3).
  apply rep_chars_backtrack; [exact H2 | exact H3 | exact H1 |].
  rewrite H1 at 2. rewrite length_app. lia.
Qed.

(** One or more of a class fails where the input does not start in the
    class. *)
Lemma plus_class_fails :
  forall (R : Type) (p : N -> bool) (k : mstate -> option R) (s : mstate),
    take_while p (rest s) = [] -> run (plus (RChar p)) s k = None.
Proof.
  intros R p k s H. unfold plus. rewrite run_class_rep, H. reflexivity.
Qed.

Lemma skipn_in_run :
  forall (p : N -> bool) (pre post : jsstring) (j : nat),
    forallb p pre = true -> j < List.length pre ->
    exists c t, skipn j (pre ++ post) = c :: t /\ p c = true.
Proof.
  intros p pre post. induction pre as [|c pre IH]; intros j Hp Hj;
    [simpl in Hj; lia|].
  simpl in Hp. apply andb_true_iff in Hp as [Hc Hp].
  destruct j as [|j]; simpl.
  - now exists c, (pre ++ post).
  - apply IH; [exact Hp | simpl in Hj; lia].
Qed.

Lemma skipn_run :
  forall (pre post : jsstring), skipn (List.length pre) (pre ++ post) = post.
Proof. induction pre as [|c pre IH]; intros post; simpl; [reflexivity|apply IH]. Qed.

Lemma firstn_run :
  forall (pre post : jsstring), firstn (List.length pre) (pre ++ post) = pre.
Proof.
  induction pre as [|c pre IH]; intros post; simpl; [reflexivity|].
  now rewrite IH.
Qed.

Lemma match_at_later :
  forall (line : jsstring) (i : nat), match_at newRecord_re line (S i) = None.
Proof. intros line i. reflexivity. Qed.

Lemma search_later :
  forall (line : jsstring) (n i : nat),
    search newRecord_re line n (S i) = None.
Proof.
  intros line n. induction n as [|n IH]; intros i; cbn [search];
    rewrite match_at_later; [reflexivity | apply IH].
Qed.

(** The expression is anchored: it matches at the start of the line or
    not at all. *)
Lemma exec_newRecord_at_start :
  forall line : jsstring,
    exec newRecord_re line = match_at newRecord_re line 0.
Proof.
  intros line. unfold exec.
  destruct (List.length line) as [|n]; cbn [search];
    destruct (match_at newRecord_re line 0); try reflexivity.
  apply search_later.
Qed.

Lemma rest_set_cap :
  forall i txt s, rest (set_cap i txt s) = rest s.
Proof. reflexivity. Qed.

Lemma take_while_space_in_digits :
  forall (pre post : jsstring) (j : nat),
    forallb is_digit pre = true -> j < List.length pre ->
    take_while is_space (skipn j (pre ++ post)) = [].
Proof.
  intros pre post j Hp Hj.
  destruct (skipn_in_run is_digit pre post Hp Hj) as (c & t & -> & Hc).
  simpl. now rewrite (digit_not_space _ Hc).
Qed.

Lemma take_while_digit_in_spaces :
  forall (pre post : jsstring) (j : nat),
    forallb is_space pre = true -> j < List.length pre ->
    take_while is_digit (skipn j (pre ++ post)) = [].
Proof.
  intros pre post j Hp Hj.
  destruct (skipn_in_run is_space pre post Hp Hj) as (c & t & -> & Hc).
  simpl. now rewrite (space_not_digit _ Hc).
Qed.

(** What [/^\s*(\d+)\s+/] matches at the start of a line: leading white
    space, then all the digits that follow, then all the white space after
    them, with the digits as group 1; nothing, when the digits or the
    white space after them are missing. *)
Lemma match_at_newRecord :
  forall line : jsstring,
    match_at newRecord_re line 0
    = match trigger_parts line with
      | Some (sp, dg, ws, _) =>
          Some {| m_index := 0; m_text := sp ++ dg ++ ws;
                  m_groups := [(1, dg)] |}
      | None => None
      end.
Proof.
  intros line. unfold trigger_parts.
  destruct (take_drop_while is_space line) as (L1 & S1 & T1).
  destruct (take_drop_while is_digit (drop_while is_space line))
    as (L2 & S2 & T2).
  destruct (take_drop_while is_space
              (drop_while is_digit (drop_while is_space line)))
    as (L3 & S3 & T3).
  set (sp := take_while is_space line) in *.
  set (r1 := drop_while is_space line) in *.
  set (dg := take_while is_digit r1) in *.
  set (r2 := drop_while is_digit r1) in *.
  set (ws := take_while is_space r2) in *.
  set (r3 := drop_while is_space r2) in *.
  set (st0 := {| pos := 0; rest := skipn 0 line; caps := [] |}).
  set (K := fun st : mstate =>
              Some {| m_index := 0;
                      m_text := firstn (pos st - 0) (skipn 0 line);
                      m_groups := caps st |}).
  set (kB := fun (sA s1' : mstate) =>
               run (plus space)
                   (set_cap 1 (firstn (pos s1' - pos sA) (rest sA)) s1') K).
  set (k1 := fun s1 : mstate => run (plus digit) s1 (kB s1)).
  change (match_at newRecord_re line 0) with (run (star space) st0 k1).
  unfold star, space. rewrite run_class_rep.
  change (rest st0) with line. fold sp r1.
  assert (Hst0 : rest st0 = sp ++ r1) by exact L1.
  set (sA := moved st0 (List.length sp)).
  assert (HsA : rest sA = dg ++ r2).
  { unfold sA. change (rest (moved st0 (List.length sp)))
      with (skipn (List.length sp) line).
    rewrite L1 at 1. rewrite skipn_run. exact L2. }
  assert (Hk1 : k1 sA = backtrack (kB sA) 1 0 sA dg r2).
  { unfold k1, plus, digit. rewrite run_class_rep.
    rewrite HsA. destruct (take_drop_while is_digit (dg ++ r2)) as (_ & _ & _).
    assert (Htw : take_while is_digit (dg ++ r2) = dg
                  /\ drop_while is_digit (dg ++ r2) = r2).
    { rewrite <- L2. split; reflexivity. }
    destruct Htw as [-> ->]. reflexivity. }
  assert (Hearly : forall j, j < List.length sp -> k1 (moved st0 j) = None).
  { intros j Hj. unfold k1, digit. apply plus_class_fails.
    change (rest (moved st0 j)) with (skipn j line). rewrite L1.
    now apply take_while_digit_in_spaces. }
  assert (HkBearly : forall j, j < List.length dg ->
                               kB sA (moved sA j) = None).
  { intros j Hj. unfold kB, space. apply plus_class_fails.
    rewrite rest_set_cap.
    change (rest (moved sA j)) with (skipn j (rest sA)). rewrite HsA.
    now apply take_while_space_in_digits. }
  set (sB := set_cap 1 (firstn (pos (moved sA (List.length dg)) - pos sA)
                               (rest sA))
                     (moved sA (List.length dg))).
  assert (HsB : rest sB = ws ++ r3).
  { unfold sB. rewrite rest_set_cap.
    change (rest (moved sA (List.length dg)))
      with (skipn (List.length dg) (rest sA)).
    rewrite HsA, skipn_run. exact L3. }
  assert (HkB : kB sA (moved sA (List.length dg)) = backtrack K 1 0 sB ws r3).
  { unfold kB. fold sB. unfold plus, space. rewrite run_class_rep.
    rewrite HsB.
    assert (Htw : take_while is_space (ws ++ r3) = ws
                  /\ drop_while is_space (ws ++ r3) = r3).
    { rewrite <- L3. split; reflexivity. }
    destruct Htw as [-> ->]. reflexivity. }
  destruct dg as [|d0 dg'] eqn:Hdg.
  { (* no digit *)
    cbn [Processor.nonempty List.length Nat.eqb negb andb].
    apply backtrack_none; [exact Hst0|].
    intros j Hj _. destruct (Nat.eq_dec j (List.length sp)) as [->|Hne].
    - fold sA. rewrite Hk1. reflexivity.
    - apply Hearly. lia. }
  destruct ws as [|w0 ws'] eqn:Hws.
  { (* no white space after the digits *)
    cbn [Processor.nonempty List.length Nat.eqb negb andb].
    apply backtrack_none; [exact Hst0|].
    intros j Hj _. destruct (Nat.eq_dec j (List.length sp)) as [->|Hne];
      [|apply Hearly; lia].
    fold sA. rewrite Hk1. apply backtrack_none; [exact HsA|].
    intros j' Hj' _.
    destruct (Nat.eq_dec j' (List.length (d0 :: dg'))) as [->|Hne'];
      [|apply HkBearly; lia].
    rewrite HkB. reflexivity. }
  cbn [Processor.nonempty List.length Nat.eqb negb andb].
  apply backtrack_end; [exact Hst0 | lia |].
  fold sA. rewrite Hk1.
  apply backtrack_end; [exact HsA | simpl; lia |].
  rewrite HkB.
  apply backtrack_end; [exact HsB | simpl; lia |].
  unfold K. f_equal. f_equal.
  - change (pos (moved sB (List.length (w0 :: ws'))) - 0)
      with (0 + List.length sp + List.length (d0 :: dg')
            + List.length (w0 :: ws') - 0).
    change (skipn 0 line) with line.
    rewrite L1 at 1. rewrite L2, L3.
    replace (0 + List.length sp + List.length (d0 :: dg')
             + List.length (w0 :: ws') - 0)
      with (List.length (sp ++ (d0 :: dg') ++ (w0 :: ws'))).
    + rewrite !app_assoc. rewrite <- !app_assoc.
      replace (sp ++ (d0 :: dg') ++ (w0 :: ws') ++ r3)
        with ((sp ++ (d0 :: dg') ++ (w0 :: ws')) ++ r3)
        by (now rewrite <- !app_assoc).
      apply firstn_run.
    + rewrite !length_app. lia.
  - change (caps (moved sB (List.length (w0 :: ws'))))
      with [(1, firstn (pos (moved sA (List.length (d0 :: dg'))) - pos sA)
                       (rest sA))].
    rewrite HsA.
    change (pos (moved sA (List.length (d0 :: dg'))) - pos sA)
      with (pos sA + List.length (d0 :: dg') - pos sA).
    replace (pos sA + List.length (d0 :: dg') - pos sA)
      with (List.length (d0 :: dg')) by lia.
    now rewrite firstn_run.
Qed.

End TriggerFacts.


(** ** The PDF parser on any text *)

Section PdfFacts.
Import Regex PdfParser PdfFile PdfCells.

Lemma classify_key_fields :
  forall (line : jsstring) (o : Offender),
    key_fields (classify line o) = key_fields o.
Proof.
  intros line o. unfold classify.
  destruct (includes line (js "第") && includes line (js "條")); [reflexivity|].
  destruct (includes line (js "區") || includes line (js "路")
            || includes line (js "街") || includes line (js "段"));
    [reflexivity|].
  destruct (includes line (js "酒") || includes line (js "酒精")
            || includes line (js "駕駛")); reflexivity.
Qed.

Lemma flush_key_fields :
  forall (cur : option Offender) (acc : list Offender),
    map key_fields (flush cur acc)
    = map key_fields acc ++ map key_fields (flush cur []).
Proof.
  intros [o|] acc; simpl; [now rewrite map_app | now rewrite app_nil_r].
Qed.

Lemma scan_key_fields :
  forall (lines : list jsstring) (cur : option Offender)
         (acc : list Offender),
    map key_fields (scan lines cur acc)
    = map key_fields acc ++ map key_fields (flush cur [])
      ++ map key_fields (flat_map trigger_record lines).
Proof.
  induction lines as [|line rest IH]; intros cur acc.
  - cbn [scan flat_map map]. rewrite app_nil_r. apply flush_key_fields.
  - cbn [scan flat_map]. unfold trigger_record at 1.
    destruct (exec newRecord_re line) as [m|].
    + rewrite IH, flush_key_fields, map_app, <- !app_assoc. reflexivity.
    + rewrite IH. simpl app. f_equal. f_equal.
      destruct cur as [o|]; simpl; [|reflexivity].
      now rewrite classify_key_fields.
Qed.

(** X14: the records [parseOffenderData] returns are the records opened
    by the lines that start with a sequence number, one for each such
    line and in their order; lines before the first of them are dropped,
    and the other lines never add a record or change a record's number,
    name, date or photo flag. *)
Theorem parseOffenderData_one_record_per_trigger :
  forall text : jsstring,
    map key_fields (parseOffenderData text)
    = map key_fields (flat_map trigger_record (lines_of text)).
Proof.
  intros text. unfold parseOffenderData. now rewrite scan_key_fields.
Qed.

Lemma skipn_parts :
  forall (a b : jsstring), skipn (List.length a) (a ++ b) = b.
Proof. exact skipn_run. Qed.

(** X15: which lines start a record, and with what.  A line starts a
    record exactly when it consists of optional white space, one or more
    digits, one or more white-space units, and a remainder; the record's
    [id] is the number the digits spell when that number is below 2^53,
    where the double that [parseInt] returns is exact, and its name and
    date are read from the trimmed remainder. *)
Theorem newRecord_line_shape :
  forall line : jsstring,
    match trigger_parts line with
    | Some (sp, dg, ws, remainder) =>
        line = sp ++ dg ++ ws ++ remainder
        /\ exists m,
             exec newRecord_re line = Some m
             /\ ((digits_value dg < 2 ^ 53)%N ->
                 id (open_record line m) = Z.of_N (digits_value dg))
             /\ name (open_record line m)
                = match exec name_re (trim remainder) with
                  | Some nm => trim (group_or_empty 1 (Some nm))
                  | None => []
                  end
             /\ violationDate (open_record line m)
                = group_or_empty 1 (exec date_re (trim remainder))
    | None => exec newRecord_re line = None
    end.
Proof.
  intros line. rewrite exec_newRecord_at_start, match_at_newRecord.
  unfold trigger_parts.
  destruct (take_drop_while is_space line) as (L1 & _ & _).
  destruct (take_drop_while is_digit (drop_while is_space line))
    as (L2 & _ & _).
  destruct (take_drop_while is_space
              (drop_while is_digit (drop_while is_space line)))
    as (L3 & _ & _).
  set (sp := take_while is_space line) in *.
  set (r1 := drop_while is_space line) in *.
  set (dg := take_while is_digit r1) in *.
  set (r2 := drop_while is_digit r1) in *.
  set (ws := take_while is_space r2) in *.
  set (r3 := drop_while is_space r2) in *.
  destruct (Processor.nonempty dg && Processor.nonempty ws); [|reflexivity].
  assert (Hline : line = sp ++ dg ++ ws ++ r3).
  { rewrite L1 at 1. rewrite L2 at 1. rewrite L3 at 1. reflexivity. }
  split; [exact Hline|].
  eexists. split; [reflexivity|].
  assert (Hrem : skipn (List.length (sp ++ dg ++ ws)) line = r3).
  { rewrite Hline at 1.
    replace (sp ++ dg ++ ws ++ r3) with ((sp ++ dg ++ ws) ++ r3)
      by (now rewrite <- !app_assoc).
    apply skipn_run. }
  unfold open_record. cbn [m_text m_groups id name violationDate].
  rewrite Hrem. split; [intros _; reflexivity|]. split; reflexivity.
Qed.

Lemma no_space_take_while :
  forall s : jsstring, no_space s = true -> take_while is_space s = [].
Proof.
  intros [|c s] H; [reflexivity|]. simpl in *.
  apply andb_true_iff in H as [H _]. apply negb_true_iff in H.
  now rewrite H.
Qed.

Lemma no_space_drop_while :
  forall (p : N -> bool) (s : jsstring),
    no_space s = true -> no_space (drop_while p s) = true.
Proof.
  intros p s. induction s as [|c s IH]; intros H; [reflexivity|].
  simpl. destruct (p c); [|exact H].
  apply IH. simpl in H. now apply andb_true_iff in H as [_ H].
Qed.

(** A line without white space starts no record. *)
Lemma no_space_no_trigger :
  forall line : jsstring,
    no_space line = true -> exec newRecord_re line = None.
Proof.
  intros line H. rewrite exec_newRecord_at_start, match_at_newRecord.
  unfold trigger_parts.
  rewrite (no_space_take_while
             (drop_while is_digit (drop_while is_space line)))
    by (now apply no_space_drop_while, no_space_drop_while).
  cbn [Processor.nonempty List.length Nat.eqb negb].
  now rewrite andb_false_r.
Qed.

Lemma split_at_lines :
  forall (s cur : jsstring),
    (forall c, In c cur -> is_space c = false) ->
    only_breaks s = true ->
    forall line, In line (split_at (is_char 10%N) cur s) ->
                 no_space line = true.
Proof.
  induction s as [|c s IH]; intros cur Hcur Hs line Hin.
  - simpl in Hin. destruct Hin as [<-|[]]. unfold no_space.
    apply forallb_forall. intros x Hx. apply in_rev in Hx.
    now rewrite (Hcur x Hx).
  - simpl in Hs. apply andb_true_iff in Hs as [Hc Hs].
    simpl in Hin. unfold is_char at 1 in Hin.
    destruct (c =? 10)%N eqn:Hnl.
    + destruct Hin as [<-|Hin].
      * unfold no_space. apply forallb_forall. intros x Hx.
        apply in_rev in Hx. now rewrite (Hcur x Hx).
      * apply (IH [] ); [intros x [] | exact Hs | exact Hin].
    + simpl in Hc. apply negb_true_iff in Hc.
      apply (IH (c :: cur)); [|exact Hs|exact Hin].
      intros x [<-|Hx]; [exact Hc | now apply Hcur].
Qed.

Lemma scan_without_trigger :
  forall (lines : list jsstring) (acc : list Offender),
    (forall line, In line lines -> exec newRecord_re line = None) ->
    scan lines None acc = acc.
Proof.
  induction lines as [|line rest IH]; intros acc H; [reflexivity|].
  cbn [scan]. rewrite (H line (or_introl eq_refl)). simpl option_map.
  apply IH. intros l Hl. apply H. now right.
Qed.

Lemma in_drop_while :
  forall (p : N -> bool) (s : jsstring) (c : N),
    In c (drop_while p s) -> In c s.
Proof.
  intros p s c. induction s as [|a s IH]; simpl; [tauto|].
  destruct (p a); [intros H; right; now apply IH | tauto].
Qed.

Lemma in_trim : forall (s : jsstring) (c : N), In c (trim s) -> In c s.
Proof.
  intros s c H. unfold trim in H. apply in_rev in H.
  apply in_drop_while in H. apply in_rev in H.
  now apply in_drop_while in H.
Qed.

Lemma only_breaks_trim :
  forall s : jsstring, only_breaks s = true -> only_breaks (trim s) = true.
Proof.
  intros s H. unfold only_breaks in *. rewrite forallb_forall in *.
  intros c Hc. apply H. now apply in_trim.
Qed.

Lemma only_breaks_no_trigger :
  forall text : jsstring,
    only_breaks text = true -> parseOffenderData text = [].
Proof.
  intros text H. unfold parseOffenderData. apply scan_without_trigger.
  intros line Hin. apply no_space_no_trigger.
  unfold lines_of in Hin. apply filter_In in Hin as [Hin _].
  apply (split_at_lines text [] (fun x (F : In x []) => match F with end) H).
  exact Hin.
Qed.

Lemma join_only_breaks :
  forall items : list jsstring,
    (forall item, In item items -> no_space item = true) ->
    only_breaks (join [10%N] items) = true.
Proof.
  intros items H. unfold only_breaks. apply forallb_forall. intros c Hc.
  induction items as [|a items IH]; [destruct Hc|].
  assert (Ha : forall x, In x a -> ((x =? 10)%N || negb (is_space x)) = true).
  { intros x Hx. pose proof (H a (or_introl eq_refl)) as Hn.
    unfold no_space in Hn. rewrite forallb_forall in Hn.
    rewrite (Hn x Hx). apply orb_true_r. }
  destruct items as [|b items'].
  - now apply Ha.
  - change (join [10%N] (a :: b :: items'))
      with (a ++ [10%N] ++ join [10%N] (b :: items')) in Hc.
    apply in_app_iff in Hc as [Hc|Hc]; [now apply Ha|].
    destruct Hc as [<-|Hc]; [reflexivity|].
    apply IH; [|exact Hc]. intros item Hi. apply H. now right.
Qed.

(** X16: a document whose text items hold no white space gives no
    record.  pdf.js hands each run of text over as an item and
    [extractTextFromPdf] puts each item on a line of its own, so a table
    row that arrives as one item for each cell has its sequence number
    alone on a line, which does not start a record. *)
Theorem cells_as_items_give_no_record :
  forall pages : list (list jsstring),
    (forall page item, In page pages -> In item page ->
                       no_space item = true) ->
    processPdfFile (Ok pages) = [].
Proof.
  intros pages H. unfold processPdfFile, extractTextFromPdf.
  apply only_breaks_no_trigger, only_breaks_trim.
  unfold only_breaks. apply forallb_forall. intros c Hc.
  apply in_flat_map in Hc as (page & Hp & Hc). unfold page_text in Hc.
  apply in_app_iff in Hc as [Hc|Hc].
  - pose proof (join_only_breaks page (fun item Hi => H page item Hp Hi)) as Hj.
    unfold only_breaks in Hj. rewrite forallb_forall in Hj. now apply Hj.
  - destruct Hc as [<-|[<-|[]]]; reflexivity.
Qed.

Lemma cells_as_items_give_no_record_witness :
  parseOffenderData (join [32%N] cells) <> []
  /\ processPdfFile (Ok [cells]) = [].
Proof.
  split; [vm_compute; discriminate|].
  apply (@cells_as_items_give_no_record [cells]).
  intros page item [<-|[]] Hi. simpl in Hi.
  repeat (destruct Hi as [<-|Hi]; [vm_compute; reflexivity|]). contradiction.
Defined.

Lemma no_space_no_simulated_record :
  forall line : jsstring,
    no_space line = true -> exec OpenAIService.record_re line = None.
Proof.
  intros line H.
  assert (Hat : forall i, match_at OpenAIService.record_re line i = None).
  { intros i. unfold match_at.
    change (run OpenAIService.record_re
              {| pos := i; rest := skipn i line; caps := [] |}
              (fun st => Some {| m_index := i;
                                 m_text := firstn (pos st - i) (skipn i line);
                                 m_groups := caps st |}))
      with (run (RSeq RBol (RGroup 1 (plus digit)))
                {| pos := i; rest := skipn i line; caps := [] |}
                (fun s1 =>
                   run (plus space) s1
                     (fun s2 =>
                        run (seq [RGroup 2 (plus non_space); plus space;
                                  RGroup 3 (seq [between 3 3 digit; slash;
                                                 between 1 2 digit; slash;
                                                 between 1 2 digit])])
                            s2
                            (fun st =>
                               Some {| m_index := i;
                                       m_text := firstn (pos st - i)
                                                        (skipn i line);
                                       m_groups := caps st |})))).
    apply (run_fails (fun s => no_space s = true)).
    - intros c t Hc. simpl in Hc. now apply andb_true_iff in Hc as [_ Hc].
    - simpl rest. clear -H. revert line H.
      induction i as [|i IH]; intros line H; [exact H|].
      destruct line as [|c line]; [reflexivity|].
      simpl. apply IH. simpl in H. now apply andb_true_iff in H as [_ H].
    - intros s Hs. apply plus_class_fails. now apply no_space_take_while. }
  unfold exec. generalize 0. generalize (List.length line).
  intros n. induction n as [|n IH]; intros i; cbn [search]; rewrite Hat;
    [reflexivity | apply IH].
Qed.

Lemma simulated_scan_without_record :
  forall (lines : list jsstring) (acc : list OpenAIService.SimRecord),
    (forall line, In line lines ->
                  exec OpenAIService.record_re line = None) ->
    OpenAIService.scan lines None acc = acc.
Proof.
  induction lines as [|line rest IH]; intros acc H; [reflexivity|].
  cbn [OpenAIService.scan]. rewrite (H line (or_introl eq_refl)).
  simpl option_map. apply IH. intros l Hl. apply H. now right.
Qed.

(** X17: the simulated structuring never returns an empty list, and for
    a text in which no line shows a record (none has white space, say, or
    the text is empty) it returns the built-in sample record of another
    person. *)
Theorem simulation_falls_back_to_the_sample :
  forall pdfText : jsstring,
    OpenAIService.simulateExtractDataFromPDF pdfText <> []
    /\ ((forall line, In line (split_where (is_char 10%N) pdfText) ->
                      exec OpenAIService.record_re line = None) ->
        OpenAIService.simulateExtractDataFromPDF pdfText
        = [OpenAIService.sample_record])
    /\ (only_breaks pdfText = true ->
        OpenAIService.simulateExtractDataFromPDF pdfText
        = [OpenAIService.sample_record]).
Proof.
  intros pdfText.
  assert (Hnone : (forall line, In line (split_where (is_char 10%N) pdfText) ->
                                exec OpenAIService.record_re line = None) ->
                  OpenAIService.simulateExtractDataFromPDF pdfText
                  = [OpenAIService.sample_record]).
  { intros H. unfold OpenAIService.simulateExtractDataFromPDF.
    now rewrite simulated_scan_without_record. }
  split; [|split; [exact Hnone|]].
  - unfold OpenAIService.simulateExtractDataFromPDF.
    destruct (OpenAIService.scan _ None []); discriminate.
  - intros H. apply Hnone. intros line Hin.
    apply no_space_no_simulated_record.
    apply (split_at_lines pdfText [] (fun x (F : In x []) => match F with end) H).
    exact Hin.
Qed.

Lemma simulation_falls_back_to_the_sample_witness :
  OpenAIService.simulateExtractDataFromPDF other_row
  = [OpenAIService.sample_record].
Proof.
  apply (proj2 (proj2 (simulation_falls_back_to_the_sample other_row))).
  vm_compute. reflexivity.
Defined.

End PdfFacts.


(** ** Dates of the Republic calendar *)

Section RocDateFacts.
Import ImportTool RocCalendar.
Unset Implicit Arguments.

Lemma take_digits_acc :
  forall (u : Decimal.uint) (acc : N) (p : positive),
    acc = N.pos p ->
    take_digits dec_value 10 acc true (bytes_of (NilEmpty.string_of_uint u))
    = Some (N.pos (Pos.of_uint_acc u p)).
Proof.
  induction u as [|u IH|u IH|u IH|u IH|u IH|u IH|u IH|u IH|u IH|u IH];
    intros acc p Hacc; subst acc;
    [reflexivity | ..];
    cbn [NilEmpty.string_of_uint bytes_of take_digits Pos.of_uint_acc];
    (match goal with
     | |- context [dec_value ?c] =>
         let v := eval vm_compute in (dec_value c) in
         change (dec_value c) with v
     end);
    cbv iota; apply IH; lia.
Qed.

Lemma take_digits_zero :
  forall u : Decimal.uint,
    take_digits dec_value 10 0 true (bytes_of (NilEmpty.string_of_uint u))
    = Some (Pos.of_uint u).
Proof.
  induction u as [|u IH|u IH|u IH|u IH|u IH|u IH|u IH|u IH|u IH|u IH];
    [reflexivity | exact IH | ..];
    cbn [NilEmpty.string_of_uint bytes_of take_digits Pos.of_uint];
    (match goal with
     | |- context [dec_value ?c] =>
         let v := eval vm_compute in (dec_value c) in
         change (dec_value c) with v
     end);
    cbv iota; apply take_digits_acc; reflexivity.
Qed.

Lemma uint_digits :
  forall u : Decimal.uint,
    forallb is_digit (bytes_of (NilEmpty.string_of_uint u)) = true.
Proof.
  induction u as [|u IH|u IH|u IH|u IH|u IH|u IH|u IH|u IH|u IH|u IH];
    [reflexivity | ..]; exact IH.
Qed.

Lemma decimal_unfold :
  forall n : N,
    decimal n = bytes_of (NilEmpty.string_of_uint (N.to_uint n)).
Proof.
  intros n. unfold decimal, NilZero.string_of_uint.
  pose proof (N_to_uint_nonnil n) as H.
  destruct (N.to_uint n); [congruence | reflexivity ..].
Qed.

Lemma decimal_digits : forall n : N, forallb is_digit (decimal n) = true.
Proof. intros n. rewrite decimal_unfold. apply uint_digits. Qed.

Lemma decimal_nonempty : forall n : N, decimal n <> [].
Proof.
  intros n. rewrite decimal_unfold. pose proof (N_to_uint_nonnil n) as H.
  destruct (N.to_uint n); [congruence | discriminate ..].
Qed.

Lemma take_digits_first :
  forall (c : N) (r : jsstring),
    is_digit c = true ->
    take_digits dec_value 10 0 false (c :: r)
    = take_digits dec_value 10 0 true (c :: r).
Proof.
  intros c r H. simpl. unfold dec_value. rewrite H. reflexivity.
Qed.

(** [parseInt] reads back what [String] prints. *)
Lemma parseInt_decimal :
  forall n : N, parseInt (decimal n) = Some (Z.of_N n).
Proof.
  intros n. pose proof (decimal_digits n) as Hd.
  pose proof (decimal_nonempty n) as Hne.
  assert (Hv : take_digits dec_value 10 0 true (decimal n) = Some n).
  { rewrite decimal_unfold, take_digits_zero.
    f_equal. apply DecimalN.Unsigned.of_to. }
  destruct (decimal n) as [|c r]; [congruence|].
  simpl in Hd. apply andb_true_iff in Hd as [Hc Hr].
  unfold parseInt, trimStart. cbn [drop_while].
  rewrite (digit_not_space _ Hc).
  assert (Hsign : strip_sign (c :: r) = (false, c :: r)).
  { unfold is_digit in Hc. apply andb_true_iff in Hc as [H1 H2].
    apply N.leb_le in H1. apply N.leb_le in H2.
    unfold strip_sign.
    destruct c as [|p]; [lia|].
    do 6 (destruct p as [p|p|]; try reflexivity); lia. }
  rewrite Hsign.
  assert (Hbody :
            match c :: r with
            | 48%N :: x :: r0 =>
                if (x =? 120)%N || (x =? 88)%N
                then take_digits hex_value 16 0 false r0
                else take_digits dec_value 10 0 false (c :: r)
            | _ => take_digits dec_value 10 0 false (c :: r)
            end = Some n).
  { rewrite (take_digits_first _ r Hc), Hv.
    destruct c as [|p]; [reflexivity|].
    do 6 (destruct p as [p|p|]; try reflexivity).
    destruct r as [|x r0]; [reflexivity|].
    simpl in Hr. apply andb_true_iff in Hr as [Hx _].
    unfold is_digit in Hx. apply andb_true_iff in Hx as [H1 H2].
    apply N.leb_le in H1. apply N.leb_le in H2.
    replace ((x =? 120)%N || (x =? 88)%N) with false; [reflexivity|].
    symmetry. apply orb_false_iff. split; apply N.eqb_neq; lia. }
  rewrite Hbody. reflexivity.
Qed.

Lemma split_at_run :
  forall (p : N -> bool) (a cur rest : jsstring),
    forallb (fun c => negb (p c)) a = true ->
    split_at p cur (a ++ rest) = split_at p (rev a ++ cur) rest.
Proof.
  intros p a. induction a as [|c a IH]; intros cur rest H; [reflexivity|].
  simpl in H. apply andb_true_iff in H as [Hc Ha].
  apply negb_true_iff in Hc. simpl. rewrite Hc.
  rewrite (IH (c :: cur) rest Ha). now rewrite <- app_assoc.
Qed.

(** Splitting at a separator: a first part without the separator comes
    off whole. *)
Lemma split_where_part :
  forall (p : N -> bool) (a rest : jsstring) (sep : N),
    forallb (fun c => negb (p c)) a = true -> p sep = true ->
    split_where p (a ++ sep :: rest) = a :: split_where p rest.
Proof.
  intros p a rest sep Ha Hs. unfold split_where.
  rewrite (split_at_run p a [] (sep :: rest) Ha). simpl. rewrite Hs.
  now rewrite app_nil_r, rev_involutive.
Qed.

Lemma split_where_last :
  forall (p : N -> bool) (a : jsstring),
    forallb (fun c => negb (p c)) a = true -> split_where p a = [a].
Proof.
  intros p a Ha. unfold split_where.
  rewrite <- (app_nil_r a) at 1.
  rewrite (split_at_run p a [] [] Ha). simpl.
  now rewrite app_nil_r, rev_involutive.
Qed.

Lemma digits_no_slash :
  forall s : jsstring,
    forallb is_digit s = true ->
    forallb (fun c => negb (is_char 47%N c)) s = true.
Proof.
  intros s H. rewrite forallb_forall in *. intros c Hc.
  specialize (H c Hc). unfold is_digit in H.
  apply andb_true_iff in H as [H1 H2].
  apply N.leb_le in H1. apply N.leb_le in H2.
  apply negb_true_iff. unfold is_char. apply N.eqb_neq. lia.
Qed.

Lemma roc_text_parts :
  forall y m d : N,
    split_where (is_char 47%N) (roc_text y m d)
    = [decimal y; decimal m; decimal d].
Proof.
  intros y m d. unfold roc_text. cbn [app].
  rewrite split_where_part
    by (try apply digits_no_slash; try apply decimal_digits; reflexivity).
  rewrite split_where_part
    by (try apply digits_no_slash; try apply decimal_digits; reflexivity).
  rewrite split_where_last
    by (apply digits_no_slash, decimal_digits).
  reflexivity.
Qed.

(** Every day of the Republic years 1 to 200 (1912 to 2111) reads
    back. *)
Lemma all_read_back :
  forallb (fun y =>
    forallb (fun m =>
      forallb (fun d =>
                 negb (d <=? days_in_month (y + 1911) m)%Z
                 || day_ok (MakeDay (MakeFullYear (y + 1911)) (m - 1) d)
                           (y + 1911, m, d)%Z)
              (upto 31))
            (upto 12))
          (upto 200) = true.
Proof. vm_compute. reflexivity. Qed.

Lemma in_upto :
  forall (n : nat) (z : Z), (1 <= z <= Z.of_nat n)%Z -> In z (upto n).
Proof.
  intros n z H. unfold upto. apply in_map_iff. exists (Z.to_nat z).
  split; [lia|]. apply in_seq. lia.
Qed.

Lemma day_ok_in_range :
  forall y m d : Z,
    (1 <= y <= 200)%Z -> (1 <= m <= 12)%Z ->
    (1 <= d <= days_in_month (y + 1911) m)%Z ->
    day_ok (MakeDay (MakeFullYear (y + 1911)) (m - 1) d) (y + 1911, m, d)%Z
    = true.
Proof.
  intros y m d Hy Hm Hd.
  assert (Hd31 : (d <= 31)%Z).
  { unfold days_in_month in Hd.
    destruct m as [|[[[|[]|]|[[]|[]|]|]|[[|[]|]|[[]|[]|]|]|]|];
      try destruct (InLeapYear _); lia. }
  pose proof (proj1 (forallb_forall _ _) all_read_back y
                    (@in_upto 200 y Hy)) as H1.
  pose proof (proj1 (forallb_forall _ _) H1 m (@in_upto 12 m Hm)) as H2.
  pose proof (proj1 (forallb_forall _ _) H2 d
                    (@in_upto 31 d (conj (proj1 Hd) Hd31))) as H.
  apply orb_true_iff in H as [H|H]; [|exact H].
  apply negb_true_iff in H. apply Z.leb_gt in H. lia.
Qed.

(** The pure round trip: the three numbers come back as printed, with
    1911 added to the year and the month counted from 0. *)
Lemma parseRocDate_roc_text :
  forall (E : JsEngine) (y m d : N),
    parseRocDate (roc_text y m d)
    = Some (Date_of_fields (Some (Z.of_N y + 1911)%Z)
                           (Some (Z.of_N m - 1)%Z) (Some (Z.of_N d))).
Proof.
  intros E y m d.
  assert (Hne : exists c r, roc_text y m d = c :: r).
  { unfold roc_text. pose proof (decimal_nonempty y) as H.
    destruct (decimal y) as [|c r]; [congruence|].
    now exists c, (r ++ [47%N] ++ decimal m ++ [47%N] ++ decimal d). }
  destruct Hne as (c & r & Hcr).
  assert (Hparts : split_where (is_char 47%N) (c :: r)
                   = [decimal y; decimal m; decimal d]).
  { rewrite <- Hcr. apply roc_text_parts. }
  rewrite Hcr. unfold parseRocDate. rewrite Hparts.
  now rewrite !parseInt_decimal.
Qed.

Lemma Date_of_fields_eq :
  forall (E : JsEngine) (a b c : Z),
    Date_of_fields (Some a) (Some b) (Some c)
    = TimeClip (MakeDay (MakeFullYear a) b c * msPerDay
                - LocalTZA (MakeDay (MakeFullYear a) b c * msPerDay))%Z.
Proof. reflexivity. Qed.

Lemma TimeClip_in_range :
  forall t : Z, (Z.abs t <= 8640000000000000)%Z -> TimeClip t = Some t.
Proof.
  intros t H. unfold TimeClip. apply Z.leb_le in H. now rewrite H.
Qed.

Lemma day_ok_facts :
  forall (E : JsEngine) (n : Z) (e : Z * Z * Z),
    day_ok n e = true ->
    TimeClip (n * msPerDay - LocalTZA (n * msPerDay))%Z
    = Some (n * msPerDay - LocalTZA (n * msPerDay))%Z
    /\ civil_of_day (n * msPerDay / msPerDay) = e
    /\ (n * msPerDay mod msPerDay = 0)%Z.
Proof.
  intros E n e H. unfold day_ok in H.
  apply andb_true_iff in H as [Hday Hclip]. apply Z.leb_le in Hclip.
  split; [|split].
  - apply TimeClip_in_range.
    pose proof (LocalTZA_bound (n * msPerDay)) as Hb.
    unfold msPerDay in *. lia.
  - rewrite Z.div_mul by (unfold msPerDay; lia).
    unfold triple_eqb in Hday.
    destruct (civil_of_day n) as [[a b] c]. destruct e as [[a' b'] c'].
    apply andb_true_iff in Hday as [Hab Hc].
    apply andb_true_iff in Hab as [Ha Hb].
    apply Z.eqb_eq in Ha, Hb, Hc. now subst.
  - apply Z.mod_mul. unfold msPerDay. lia.
Qed.

(** X18: the import tool reads back every date of the Republic years 1
    to 200 from its printed form: [parseRocDate] of [y/m/d] is local
    midnight of the Gregorian day [(y + 1911, m, d)], a valid date, for
    every engine and time zone. *)
Theorem parseRocDate_reads_printed_dates :
  forall (E : JsEngine) (y m d : N),
    (1 <= y <= 200)%N -> (1 <= m <= 12)%N ->
    (1 <= Z.of_N d <= days_in_month (Z.of_N y + 1911) (Z.of_N m))%Z ->
    exists t0 : Z,
      parseRocDate (roc_text y m d) = Some (Some (t0 - LocalTZA t0)%Z)
      /\ civil_of_day (t0 / msPerDay)
         = (Z.of_N y + 1911, Z.of_N m, Z.of_N d)%Z
      /\ (t0 mod msPerDay = 0)%Z.
Proof.
  intros E y m d Hy Hm Hd.
  pose proof (@day_ok_in_range (Z.of_N y) (Z.of_N m) (Z.of_N d)
                ltac:(lia) ltac:(lia) Hd) as H.
  destruct (@day_ok_facts E
              (MakeDay (MakeFullYear (Z.of_N y + 1911)) (Z.of_N m - 1)
                       (Z.of_N d))
              (Z.of_N y + 1911, Z.of_N m, Z.of_N d)%Z H) as (H1 & H2 & H3).
  exists (MakeDay (MakeFullYear (Z.of_N y + 1911)) (Z.of_N m - 1) (Z.of_N d)
          * msPerDay)%Z.
  rewrite parseRocDate_roc_text, Date_of_fields_eq, H1.
  repeat split; assumption.
Qed.

Lemma parseRocDate_reads_printed_dates_witness :
  exists t0 : Z,
    @parseRocDate ExampleEngine.taipei (roc_text 112 2 28)
    = Some (Some (t0 - @LocalTZA ExampleEngine.taipei t0)%Z)
    /\ civil_of_day (t0 / msPerDay) = (Z.of_N 112 + 1911, Z.of_N 2, Z.of_N 28)%Z
    /\ (t0 mod msPerDay = 0)%Z.
Proof.
  apply (@parseRocDate_reads_printed_dates ExampleEngine.taipei 112 2 28);
    vm_compute; split; discriminate.
Defined.

(** X19: [parseRocDate] says [null] by shape only: for the empty string
    and for a string that does not have exactly three parts between
    slashes.  Three parts that are not all numbers give a [Date] that is
    invalid, not [null]; the [catch] of the function is never entered. *)
Theorem parseRocDate_null_by_shape_only :
  forall (E : JsEngine) (dateStr : jsstring),
    (parseRocDate dateStr = None
     <-> dateStr = []
         \/ List.length (split_where (is_char 47%N) dateStr) <> 3)
    /\ forall p0 p1 p2,
         dateStr <> [] ->
         split_where (is_char 47%N) dateStr = [p0; p1; p2] ->
         parseInt p0 = None \/ parseInt p1 = None \/ parseInt p2 = None ->
         parseRocDate dateStr = Some None.
Proof.
  intros E dateStr. unfold parseRocDate. split.
  - destruct dateStr as [|c r]; [split; [now left | reflexivity]|].
    destruct (split_where (is_char 47%N) (c :: r)) as [|p0 [|p1 [|p2 [|p3 l]]]];
      simpl; split; intros H; try reflexivity; try discriminate;
      try (right; lia);
      destruct H as [H|H]; try discriminate; lia.
  - intros p0 p1 p2 Hne Hs Hp.
    destruct dateStr as [|c r]; [congruence|]. rewrite Hs.
    destruct Hp as [-> | [-> | ->]]; simpl;
      repeat (match goal with
              | |- context [option_map _ ?x] => destruct x; simpl
              end); reflexivity.
Qed.

Lemma parseRocDate_null_by_shape_only_witness :
  @parseRocDate ExampleEngine.utc (js "111/7") = None
  /\ @parseRocDate ExampleEngine.utc (js "a/7/11") = Some None.
Proof.
  split.
  - apply (proj1 (@parseRocDate_null_by_shape_only ExampleEngine.utc
                    (js "111/7"))).
    right. vm_compute. discriminate.
  - apply (proj2 (@parseRocDate_null_by_shape_only ExampleEngine.utc
                    (js "a/7/11")) (js "a") (js "7") (js "11")).
    + discriminate.
    + reflexivity.
    + left. reflexivity.
Defined.

Set Implicit Arguments.
End RocDateFacts.


(** ** The list of sources *)

Section ConfigFacts.
Import Config SourceLists.

Lemma parse_item_filters :
  forall (E : JsEngine) (item : jsstring),
    parse_item item
    = match ConfigJs.parse_item item with
      | Some c => if supported c then Some c else None
      | None => None
      end.
Proof.
  intros E item. unfold parse_item, ConfigJs.parse_item. cbv zeta.
  destruct (given _ 0); [|reflexivity].
  destruct (given _ 1); [|reflexivity].
  destruct (given _ 2); [|reflexivity].
  unfold supported. cbn [crawlerType].
  destruct (str_eqb _ (js "table")); [reflexivity|].
  destruct (str_eqb _ (js "image")); reflexivity.
Qed.

Lemma parse_item_shape :
  forall (E : JsEngine) (item : jsstring) (c : CrawlerConfig),
    parse_item item = Some c ->
    supported c = true
    /\ (exists n, name c = trim n) /\ (exists u, url c = trim u).
Proof.
  intros E item c. unfold parse_item. cbv zeta.
  destruct (given _ 0) as [n|]; [|discriminate].
  destruct (given _ 1) as [u|]; [|discriminate].
  destruct (given _ 2) as [t|]; [|discriminate].
  unfold supported.
  destruct (str_eqb (toLowerCase (trim t)) (js "table")) eqn:Ht;
    destruct (str_eqb (toLowerCase (trim t)) (js "image")) eqn:Hi;
    cbn [negb andb]; try discriminate;
    intros H; inversion H; subst; cbn [crawlerType name url];
    rewrite ?Ht, ?Hi; (split; [reflexivity|]); split; eexists; reflexivity.
Qed.

Lemma flat_map_kept_length :
  forall (A B : Type) (f : A -> option B) (l : list A),
    List.length (flat_map (fun x => kept (f x)) l) <= List.length l.
Proof.
  intros A B f l. induction l as [|a l IH]; simpl; [lia|].
  rewrite length_app. destruct (f a); simpl; lia.
Qed.

Lemma flat_map_kept_filter :
  forall (A B : Type) (f g : A -> option B) (p : B -> bool) (l : list A),
    (forall x, f x = match g x with
                     | Some c => if p c then Some c else None
                     | None => None
                     end) ->
    flat_map (fun x => kept (f x)) l
    = filter p (flat_map (fun x => kept (g x)) l).
Proof.
  intros A B f g p l H. induction l as [|a l IH]; simpl; [reflexivity|].
  rewrite filter_app, IH, H. destruct (g a) as [c|]; simpl; [|reflexivity].
  destruct (p c); reflexivity.
Qed.

Lemma ends_in_word_last :
  forall s : jsstring,
    Invariants.ends_in_word s = true ->
    exists l x, s = l ++ [x] /\ is_space x = false.
Proof.
  induction s as [|c s IH]; intros H; [discriminate|].
  destruct s as [|d s'].
  - exists [], c. split; [reflexivity|]. simpl in H.
    now apply negb_true_iff in H.
  - destruct (IH H) as (l & x & Hl & Hx). exists (c :: l), x.
    split; [simpl; now rewrite Hl | exact Hx].
Qed.

(** [trim] leaves a trimmed string as it is. *)
Lemma trim_idem : forall s : jsstring, trim (trim s) = trim s.
Proof.
  intros s. destruct (trim_shape s) as [->|(c & t & -> & Hc & He)];
    [reflexivity|].
  destruct (ends_in_word_last _ He) as (l & x & Hl & Hx).
  unfold trim. cbn [drop_while]. rewrite Hc. rewrite Hl.
  rewrite rev_app_distr. cbn [rev app drop_while]. rewrite Hx.
  cbn [rev]. now rewrite rev_involutive.
Qed.

(** X20: what [parseDmvsList] of the TypeScript module returns.  Every
    source has the type "table" or "image" and a name and an address
    without white space at their ends; there is at most one source for
    each item between commas; and the list is the list of the JavaScript
    module without the sources of other types. *)
Theorem parseDmvsList_keeps_supported_sources :
  forall (E : JsEngine) (DMVS_LIST : option jsstring),
    (forall c, In c (parseDmvsList DMVS_LIST) ->
               (crawlerType c = js "table" \/ crawlerType c = js "image")
               /\ trim (name c) = name c /\ trim (url c) = url c)
    /\ (forall s, DMVS_LIST = Some s ->
                  List.length (parseDmvsList DMVS_LIST)
                  <= List.length (split_where (is_char 44%N) s))
    /\ parseDmvsList DMVS_LIST
       = filter supported (ConfigJs.parseDmvsList DMVS_LIST).
Proof.
  intros E DMVS_LIST. split; [|split].
  - intros c Hin. unfold parseDmvsList in Hin.
    destruct DMVS_LIST as [[|c0 r0]|]; try contradiction.
    apply in_flat_map in Hin as (item & _ & Hin).
    destruct (parse_item item) as [c'|] eqn:Hp; [|contradiction].
    destruct Hin as [<-|[]].
    destruct (@parse_item_shape E item c' Hp) as (Hs & (n & Hn) & (u & Hu)).
    split; [|split].
    + unfold supported in Hs. apply orb_true_iff in Hs as [Hs|Hs];
        apply str_eqb_eq in Hs; [now left | now right].
    + rewrite Hn. apply trim_idem.
    + rewrite Hu. apply trim_idem.
  - intros s ->. unfold parseDmvsList. destruct s as [|c0 r0].
    + simpl. lia.
    + apply flat_map_kept_length.
  - unfold parseDmvsList, ConfigJs.parseDmvsList.
    destruct DMVS_LIST as [[|c0 r0]|]; try reflexivity.
    apply flat_map_kept_filter. apply parse_item_filters.
Qed.

Lemma split_join :
  forall (p : N -> bool) (sep : N) (l : list jsstring),
    p sep = true ->
    l <> [] ->
    (forall x, In x l -> forallb (fun c => negb (p c)) x = true) ->
    split_where p (join [sep] l) = l.
Proof.
  intros p sep l Hsep. induction l as [|x l IH]; intros Hne H; [congruence|].
  destruct l as [|y l'].
  - simpl. apply split_where_last. apply H. now left.
  - change (join [sep] (x :: y :: l'))
      with (x ++ sep :: join [sep] (y :: l')).
    rewrite split_where_part; [|apply H; now left|exact Hsep].
    f_equal. apply IH; [discriminate|]. intros z Hz. apply H. now right.
Qed.

Lemma plain_no_comma :
  forall s, plain s = true ->
            forallb (fun c => negb (is_char 44%N c)) s = true.
Proof.
  intros s H. unfold plain in H. rewrite forallb_forall in *.
  intros c Hc. specialize (H c Hc). now apply andb_true_iff in H as [H _].
Qed.

Lemma plain_no_bar :
  forall s, plain s = true ->
            forallb (fun c => negb (is_char 124%N c)) s = true.
Proof.
  intros s H. unfold plain in H. rewrite forallb_forall in *.
  intros c Hc. specialize (H c Hc). now apply andb_true_iff in H as [_ H].
Qed.

Lemma clean_facts :
  forall s, clean s = true ->
            plain s = true /\ trim s = s /\ exists c r, s = c :: r.
Proof.
  intros s H. unfold clean in H.
  apply andb_true_iff in H as [H Ht]. apply andb_true_iff in H as [Hn Hp].
  apply str_eqb_eq in Ht. repeat split; try assumption.
  destruct s as [|c r]; [discriminate|]. now exists c, r.
Qed.

Lemma supported_facts :
  forall c, supported c = true ->
            crawlerType c = js "table" \/ crawlerType c = js "image".
Proof.
  intros c H. unfold supported in H.
  apply orb_true_iff in H as [H|H]; apply str_eqb_eq in H; tauto.
Qed.

Lemma forallb_app_true :
  forall (A : Type) (p : A -> bool) (a b : list A),
    forallb p a = true -> forallb p b = true -> forallb p (a ++ b) = true.
Proof. intros A p a b Ha Hb. rewrite forallb_app, Ha, Hb. reflexivity. Qed.

(** A well-formed source written as an entry reads back as itself. *)
Lemma parse_item_entry :
  forall (E : JsEngine) (c : CrawlerConfig),
    toLowerCase (js "table") = js "table" ->
    toLowerCase (js "image") = js "image" ->
    well_formed c = true ->
    parse_item (entry c) = Some c.
Proof.
  intros E [n u t] Htab Himg H. unfold well_formed in H. cbn [name url] in H.
  apply andb_true_iff in H as [H Hs]. apply andb_true_iff in H as [Hn Hu].
  apply clean_facts in Hn as (Hnp & Hnt & cn & rn & Hn').
  apply clean_facts in Hu as (Hup & Hut & cu & ru & Hu').
  apply supported_facts in Hs. cbn [crawlerType] in Hs.
  assert (Ht : forallb (fun c => negb (is_char 124%N c)) t = true
               /\ trim t = t /\ toLowerCase t = t
               /\ exists ct rt, t = ct :: rt).
  { destruct Hs as [->| ->]; repeat split; try assumption;
      try (vm_compute; reflexivity); eexists; eexists; vm_compute; reflexivity. }
  destruct Ht as (Htp & Htt & Htl & ct & rt & Ht').
  unfold parse_item, entry. cbn [name url crawlerType]. cbv zeta.
  assert (Hparts : split_where (is_char 124%N)
                     (n ++ [124%N] ++ u ++ [124%N] ++ t) = [n; u; t]).
  { cbn [app].
    rewrite split_where_part by (try apply plain_no_bar; auto).
    rewrite split_where_part by (try apply plain_no_bar; auto).
    now rewrite split_where_last. }
  rewrite Hparts. unfold given. cbn [nth_error].
  rewrite Hn' at 1. rewrite Hu' at 1. rewrite Ht' at 1.
  rewrite <- Hn', <- Hu', <- Ht'. rewrite Hnt, Hut, Htt, Htl.
  destruct Hs as [->| ->]; reflexivity.
Qed.

Lemma entry_no_comma :
  forall c, well_formed c = true ->
            forallb (fun ch => negb (is_char 44%N ch)) (entry c) = true.
Proof.
  intros [n u t] H. unfold well_formed in H. cbn [name url] in H.
  apply andb_true_iff in H as [H Hs]. apply andb_true_iff in H as [Hn Hu].
  apply clean_facts in Hn as (Hnp & _). apply clean_facts in Hu as (Hup & _).
  apply supported_facts in Hs. cbn [crawlerType] in Hs.
  unfold entry. cbn [name url crawlerType].
  repeat apply forallb_app_true; try (now apply plain_no_comma);
    try reflexivity.
  destruct Hs as [->| ->]; vm_compute; reflexivity.
Qed.

Lemma entry_nonempty :
  forall c, well_formed c = true -> exists ch r, entry c = ch :: r.
Proof.
  intros [n u t] H. unfold well_formed in H. cbn [name url] in H.
  apply andb_true_iff in H as [H _]. apply andb_true_iff in H as [Hn _].
  apply clean_facts in Hn as (_ & _ & cn & rn & ->).
  unfold entry. cbn [name]. eexists. eexists. reflexivity.
Qed.

(** X21: a list of sources written out as [DMVS_LIST] reads back as
    itself: for sources whose names and addresses are not empty, hold no
    comma and no bar and no white space at their ends, and whose type is
    "table" or "image", [parseDmvsList] of
    [name|url|type,name|url|type,...] is the list, in order (on an engine
    that leaves the two lower-case type words as they are). *)
Theorem parseDmvsList_reads_back_entries :
  forall (E : JsEngine) (cs : list CrawlerConfig),
    toLowerCase (js "table") = js "table" ->
    toLowerCase (js "image") = js "image" ->
    forallb well_formed cs = true ->
    parseDmvsList (Some (entries cs)) = cs.
Proof.
  intros E cs Htab Himg H. rewrite forallb_forall in H.
  destruct cs as [|c0 cs']; [reflexivity|].
  assert (Hne : exists ch r, entries (c0 :: cs') = ch :: r).
  { destruct (entry_nonempty c0 (H c0 (or_introl eq_refl))) as (ch & r & He).
    unfold entries. cbn [map]. destruct (map entry cs') as [|e es].
    - simpl. rewrite He. now exists ch, r.
    - change (join [44%N] (entry c0 :: e :: es))
        with (entry c0 ++ [44%N] ++ join [44%N] (e :: es)).
      rewrite He. eexists. eexists. reflexivity. }
  destruct Hne as (ch & r & Hne).
  unfold parseDmvsList. rewrite Hne, <- Hne. unfold entries.
  rewrite split_join.
  - assert (Hall : forall l,
               (forall x, In x l -> well_formed x = true) ->
               flat_map (fun item => kept (parse_item item)) (map entry l)
               = l).
    { induction l as [|c l IH]; intros Hl; [reflexivity|].
      cbn [map flat_map].
      rewrite parse_item_entry
        by (try assumption; apply Hl; now left).
      cbn [kept app]. f_equal. apply IH. intros x Hx. apply Hl. now right. }
    apply Hall. exact H.
  - reflexivity.
  - discriminate.
  - intros x Hx. apply in_map_iff in Hx as (c & <- & Hc).
    apply entry_no_comma. now apply H.
Qed.

Lemma parseDmvsList_reads_back_entries_witness :
  @parseDmvsList ExampleEngine.utc (Some (entries [taichung; taipei_city]))
  = [taichung; taipei_city].
Proof.
  apply (@parseDmvsList_reads_back_entries ExampleEngine.utc
           [taichung; taipei_city]); vm_compute; reflexivity.
Defined.

End ConfigFacts.

(** ** The crawl over the sources *)

Section CrawlFacts.
Import AiService OffenderModel Reconciler Crawler CrawlShape.

Lemma run_sources_app :
  forall (E : JsEngine) (Store Id : Type) (M : Model Store Id)
         (adapter : Entropy -> jsstring -> result jsdata)
         (a b : list (Config.CrawlerConfig * Visit)) (st : Store),
    run_sources M adapter (a ++ b) st
    = run_sources M adapter b (run_sources M adapter a st).
Proof. intros. unfold run_sources. apply fold_left_app. Qed.

(** X22: one source cannot spoil the run.  A source whose strategy
    throws, returns no record, or whose type has no strategy leaves the
    store as it is, and the sources before and after it are processed as
    if it were not in the list. *)
Theorem failing_source_is_skipped :
  forall (E : JsEngine) (Store Id : Type) (M : Model Store Id)
         (adapter : Entropy -> jsstring -> result jsdata)
         (before after : list (Config.CrawlerConfig * Visit))
         (dv : Config.CrawlerConfig * Visit) (st : Store),
    fruitless E dv ->
    visit M adapter st dv = st
    /\ run_sources M adapter (before ++ dv :: after) st
       = run_sources M adapter (before ++ after) st.
Proof.
  intros E Store Id M adapter before after dv st H.
  assert (Hv : forall s, visit M adapter s dv = s).
  { intros s. unfold visit. unfold fruitless in H.
    destruct (crawl (fst dv) (snd dv)) as [[[|d l]|]|];
      try reflexivity; contradiction. }
  split; [apply Hv|].
  rewrite !run_sources_app. unfold run_sources at 1. simpl fold_left.
  now rewrite Hv.
Qed.

Lemma failing_source_is_skipped_witness :
  @visit ExampleEngine.utc _ _
         (OffenderRecordModel Scenario.database nat) Scenario.no_client []
         (SourceLists.taichung, unreachable) = []
  /\ @run_sources ExampleEngine.utc _ _
        (OffenderRecordModel Scenario.database nat) Scenario.no_client
        ([(SourceLists.taipei_city, announcements_only)]
           ++ (SourceLists.taichung, unreachable) :: []) []
     = @run_sources ExampleEngine.utc _ _
         (OffenderRecordModel Scenario.database nat) Scenario.no_client
         ([(SourceLists.taipei_city, announcements_only)] ++ []) [].
Proof.
  apply (@failing_source_is_skipped ExampleEngine.utc _ _
           (OffenderRecordModel Scenario.database nat) Scenario.no_client
           [(SourceLists.taipei_city, announcements_only)] []
           (SourceLists.taichung, unreachable) []).
  vm_compute. exact I.
Defined.

End CrawlFacts.


(** ** Answers of the adapter *)

Section AnswerFacts.
Import Processor AiService OffenderModel Reconciler AiAnswers.

Lemma validate_array :
  forall (E : JsEngine) (l : list jsobj) (sourceName : jsstring) (now : Z),
    validateAndNormalize (DArr l) sourceName now = None.
Proof. intros. reflexivity. Qed.

Lemma validate_empty_record :
  forall (E : JsEngine) (sourceName : jsstring) (now : Z),
    validateAndNormalize (DObj empty_record) sourceName now = None.
Proof. intros. reflexivity. Qed.

Lemma validate_string :
  forall (E : JsEngine) (s sourceName : jsstring) (now : Z),
    validateAndNormalize (DStr s) sourceName now = None.
Proof. intros. reflexivity. Qed.



(** X25: [extractOffenderData] returns one record or [null], never an
    array.  Without a credential it returns the placeholder whatever the
    text, also for an empty text; with a client it returns [null] for a
    blank text, and from an array of records the first one that has a
    name, or the first one when none has. *)
Theorem extractOffenderData_returns_one_record :
  forall (m : ModuleState) (w : Entropy) (text : jsstring),
    (forall l, extractOffenderData m w text <> Some (DArr l))
    /\ (isOpenAiAvailable m = false ->
        extractOffenderData m w text = Some (DObj (getMockOffenderData w)))
    /\ (isOpenAiAvailable m = true -> blank text = true ->
        extractOffenderData m w text = None)
    /\ (forall client l,
          isOpenAiAvailable m = true -> openai m = Some client ->
          blank text = false ->
          text_request client text = Ok (DArr l) ->
          match extractOffenderData m w text with
          | None => l = []
          | Some (DObj o) =>
              In o l
              /\ (find named l = Some o
                  \/ (find named l = None /\ nth_error l 0 = Some o))
          | Some _ => False
          end).
Proof.
  intros m w text. unfold extractOffenderData, extractStructuredData.
  split; [|split; [|split]].
  - intros l. destruct (isOpenAiAvailable m); cbn [negb]; [|discriminate].
    destruct (openai m) as [client|]; [|discriminate].
    destruct (blank text); [discriminate|].
    destruct (text_request client text) as [[[|c r]|o|[|x l']]|];
      try discriminate.
    destruct (find named (x :: l')); discriminate.
  - intros ->. reflexivity.
  - intros -> Hb. cbn [negb]. destruct (openai m); [now rewrite Hb|reflexivity].
  - intros client l -> -> Hb Hr. cbn [negb]. rewrite Hb, Hr.
    destruct l as [|x l']; [reflexivity|].
    destruct (find named (x :: l')) as [item|] eqn:Hf.
    + split; [now apply find_some in Hf as [Hin _] | now left].
    + split; [now left | right; now split].
Qed.

Lemma extractOffenderData_returns_one_record_witness :
  match extractOffenderData configured Scenario.quiet (js "王小明") with
  | None => two_records = []
  | Some (DObj o) =>
      In o two_records
      /\ (find named two_records = Some o
          \/ (find named two_records = None
              /\ nth_error two_records 0 = Some o))
  | Some _ => False
  end.
Proof.
  apply (proj2 (proj2 (proj2 (extractOffenderData_returns_one_record
                                configured Scenario.quiet (js "王小明"))))
               answering two_records); reflexivity.
Defined.

End AnswerFacts.

(** ** Forms *)

Section FormFacts.
Import AiService AiAnswers FormParser.

Lemma cleaned_trimmed :
  forall (formData : jsobj) (k s : jsstring),
    cleaned formData k = Some s -> trim s = s.
Proof.
  intros formData k s. unfold cleaned.
  destruct (get formData k) as [| |[|c r]]; try discriminate.
  intros H. inversion H. apply trim_idem.
Qed.

Lemma cleaned_given :
  forall (formData : jsobj) (k : jsstring),
    cleaned formData k <> None ->
    exists c r, get formData k = JStr (c :: r).
Proof.
  intros formData k. unfold cleaned.
  destruct (get formData k) as [| |[|c r]]; try congruence.
  intros _. now exists c, r.
Qed.

(** X26: what [validateFormData] lets through.  A valid form gives a
    text, an image or a document that is not empty after trimming; each
    field it carries is trimmed; a file type is carried only together
    with a document and is one of pdf, doc, docx, txt, image.  A form is
    refused for being [null] or [undefined] (the message of the [catch],
    with the engine's words for the failed read), for a document of
    another type, or for giving none of the three inputs, and for nothing
    else. *)
Theorem validateFormData_lets_through :
  forall (E : JsEngine) (nullish_read : jsstring)
         (formData : option jsobj),
    match validateFormData nullish_read formData with
    | Valid d =>
        formData <> None
        /\ missing (text d) && missing (imageUrl d) && missing (documentUrl d)
           = false
        /\ (forall x s,
              In x [text d; imageUrl d; documentUrl d; source d; sourceUrl d] ->
              x = Some s -> trim s = s)
        /\ (forall t, fileType d = Some t ->
                      In t validFileTypes /\ documentUrl d <> None)
    | Invalid errorMessage =>
        (formData = None
         /\ errorMessage = validation_failed ++ nullish_read)
        \/ (formData <> None /\ errorMessage = nothing_given)
        \/ exists o t, formData = Some o
                       /\ get o (js "fileType") = JStr t
                       /\ errorMessage = unsupported_type ++ t
                       /\ existsb (str_eqb (toLowerCase t)) validFileTypes
                          = false
    end.
Proof.
  intros E nullish_read [formData|]; unfold validateFormData;
    [|left; now split].
  destruct (checked_type formData) as [ft|msg] eqn:Hc.
  - cbv zeta. cbn [text imageUrl documentUrl].
    destruct (missing (cleaned formData (js "text"))
              && missing (cleaned formData (js "imageUrl"))
              && missing (cleaned formData (js "documentUrl"))) eqn:Hm.
    + right. left. split; [discriminate | reflexivity].
    + cbn [text imageUrl documentUrl source sourceUrl fileType].
      split; [discriminate|]. split; [exact Hm|]. split.
      * intros x s Hin Hx. subst x. cbn [In] in Hin.
        destruct Hin as [H|[H|[H|[H|[H|[]]]]]];
          now apply cleaned_trimmed in H.
      * intros t ->. unfold checked_type in Hc. unfold cleaned.
        destruct (get formData (js "documentUrl")) as [| |[|c r]];
          try discriminate.
        destruct (get formData (js "fileType")) as [| |[|c' r']];
          try discriminate.
        cbv zeta in Hc.
        destruct (existsb (str_eqb (toLowerCase (c' :: r'))) validFileTypes)
          eqn:Hin; [|discriminate].
        inversion Hc; subst. split; [|discriminate].
        apply existsb_exists in Hin as (x & Hx & He).
        apply str_eqb_eq in He. now subst.
  - right. right. unfold checked_type in Hc.
    destruct (get formData (js "documentUrl")) as [| |[|c r]];
      try discriminate.
    destruct (get formData (js "fileType")) as [| |[|c' r']] eqn:Hft;
      try discriminate.
    cbv zeta in Hc.
    destruct (existsb (str_eqb (toLowerCase (c' :: r'))) validFileTypes)
      eqn:Hin; [discriminate|].
    inversion Hc. exists formData, (c' :: r').
    split; [reflexivity|]. split; [exact Hft|]. split; [reflexivity|].
    exact Hin.
Qed.

Lemma validateFormData_some_input :
  forall (E : JsEngine) (nullish_read : jsstring)
         (formData : option jsobj),
    match validateFormData nullish_read formData with
    | Valid d =>
        missing (text d) && missing (imageUrl d) && missing (documentUrl d)
        = false
    | Invalid _ => True
    end.
Proof.
  intros E nullish_read [formData|]; unfold validateFormData; [|exact I].
  destruct (checked_type formData) as [ft|msg]; [|exact I].
  cbv zeta. cbn [text imageUrl documentUrl].
  destruct (missing (cleaned formData (js "text"))
            && missing (cleaned formData (js "imageUrl"))
            && missing (cleaned formData (js "documentUrl"))) eqn:Hm;
    [exact I | exact Hm].
Qed.

Lemma pretty_records_nonempty :
  forall l : list jsobj, exists c r, pretty_records l = c :: r.
Proof.
  intros [|x l]; [now exists 91%N, [93%N]|].
  unfold pretty_records. eexists. eexists. reflexivity.
Qed.

Lemma textToProcess_messages :
  forall (m : ModuleState)
         (live : jsstring -> jsstring -> option jsstring)
         (rd : Reads) (d : FormData) (msg : jsstring),
    textToProcess m live rd d = Throw msg ->
    (exists e, msg = parse_failed ++ e)
    \/ msg = no_document_text
    \/ (msg = incomplete
        /\ missing (text d) && missing (imageUrl d)
           && missing (documentUrl d) = true).
Proof.
  intros m live rd d msg. unfold textToProcess.
  destruct (missing (text d)); cbn [negb]; [|discriminate].
  destruct (missing (imageUrl d)); cbn [negb].
  - destruct (missing (documentUrl d)); cbn [negb].
    + intros H. inversion H. right. right. now split.
    + destruct (extractTextFromDocument _ _ _ _); [discriminate|].
      intros H. inversion H. right. now left.
  - destruct (extractTextFromImage _ _ _) as [imageText|e].
    + destruct (pretty_records_nonempty imageText) as (c & r & ->).
      discriminate.
    + intros H. inversion H. left. now exists e.
Qed.

(** X27: a form that passed [validateFormData] is never answered with
    the message for an incomplete form, and the message for an image
    without text is never given at all (the text made from the records of
    an image is never empty).  Without a credential, parsing a valid form
    always succeeds, with the placeholder's name and the source of the
    form, or "手動輸入" when it names none. *)
Theorem valid_form_is_parsed :
  forall (E : JsEngine) (m : ModuleState)
         (live : jsstring -> jsstring -> option jsstring)
         (rd : Reads) (nullish_read : jsstring) (formData : option jsobj),
    match validateFormData nullish_read formData with
    | Valid d =>
        parseFormData m live rd d <> Failure incomplete
        /\ parseFormData m live rd d <> Failure no_image_text
        /\ (isOpenAiAvailable m = false ->
            exists data,
              parseFormData m live rd d = Success data
              /\ name data = Some (js "測試姓名")
              /\ crawlTime data = clock rd
              /\ record_source data
                 = match source d with
                   | Some (c :: r) => c :: r
                   | _ => by_hand
                   end)
    | Invalid _ => True
    end.
Proof.
  intros E m live rd nullish_read formData.
  pose proof (validateFormData_some_input E nullish_read formData) as Hv.
  destruct (validateFormData nullish_read formData) as [d|msg]; [|exact I].
  assert (Hmsg : forall msg, parseFormData m live rd d = Failure msg ->
                             (exists e, msg = parse_failed ++ e)
                             \/ msg = no_document_text
                             \/ msg = not_parsed).
  { intros msg. unfold parseFormData.
    destruct (textToProcess m live rd d) as [t|e] eqn:Ht.
    - destruct (extractOffenderData m (data_draw rd) t); [discriminate|].
      intros H. inversion H. right. now right.
    - intros H. inversion H; subst.
      destruct (textToProcess_messages _ _ _ _ Ht) as [H1|[H1|[_ H1]]];
        [now left | right; now left |].
      rewrite Hv in H1. discriminate. }
  split; [|split].
  - intros H. destruct (Hmsg _ H) as [(e & He)|[He|He]];
      vm_compute in He; discriminate.
  - intros H. destruct (Hmsg _ H) as [(e & He)|[He|He]];
      vm_compute in He; discriminate.
  - intros Hsim. unfold parseFormData.
    destruct (textToProcess m live rd d) as [t|e] eqn:Ht.
    + unfold extractOffenderData. rewrite Hsim. cbn [negb].
      eexists. split; [reflexivity|]. repeat split.
    + exfalso. unfold textToProcess in Ht.
      unfold extractTextFromImage, extractTextFromDocument in Ht.
      rewrite Hsim in Ht. cbn [negb] in Ht.
      destruct (missing (text d)); cbn [negb] in Ht; [|discriminate].
      destruct (missing (imageUrl d)); cbn [negb] in Ht.
      * destruct (missing (documentUrl d)); cbn [negb] in Ht;
          [discriminate Hv | discriminate].
      * destruct (pretty_records_nonempty [getMockOffenderData (image_draw rd)])
          as (c & r & Hp).
        rewrite Hp in Ht. discriminate.
Qed.

End FormFacts.


(** ** Rows of a target table *)

Section FullRowFacts.
Import TableCrawler TableShape FullRows.

Lemma obj_set_keys :
  forall (o : jsobj) (k k' : jsstring) (v : jsval),
    In k' (map fst (obj_set o k v)) <-> k' = k \/ In k' (map fst o).
Proof.
  intros o k k' v. induction o as [|[k0 v0] o IH]; simpl.
  - split; [intros [H|[]]; now left | intros [H|[]]; now left].
  - destruct (str_eqb k0 k) eqn:Hk; simpl.
    + apply str_eqb_eq in Hk. subst k0. split; [tauto|].
      intros [H|[H|H]]; [left; now symmetry | now left | now right].
    + rewrite IH. split; [tauto|]. intros [H|[H|H]]; tauto.
Qed.

Lemma obj_set_filled :
  forall (o : jsobj) (k s : jsstring),
    filled o = true -> s <> [] -> filled (obj_set o k (JStr s)) = true.
Proof.
  intros o k s Ho Hs. unfold filled in *.
  induction o as [|[k0 v0] o IH]; simpl.
  - destruct s; [congruence | reflexivity].
  - simpl in Ho. apply andb_true_iff in Ho as [H0 Ho].
    destruct (str_eqb k0 k); simpl.
    + rewrite Ho. destruct s; [congruence | reflexivity].
    + now rewrite H0, IH.
Qed.

Lemma fill_row_keeps_keys :
  forall (headers cells : list jsstring) (col : nat) (rowData : jsobj)
         (h : jsstring),
    In h (map fst rowData) ->
    In h (map fst (fill_row headers col cells rowData)).
Proof.
  intros headers cells. induction cells as [|cell rest IH];
    intros col rowData h Hin; [exact Hin|].
  cbn [fill_row]. apply IH.
  destruct (nth_error headers col) as [[|c r]|]; try exact Hin.
  apply obj_set_keys. now right.
Qed.

(** A column with a header gives the record a key of that name, when the
    row reaches the column. *)
Lemma fill_row_keys :
  forall (headers cells : list jsstring) (col : nat) (rowData : jsobj)
         (i : nat) (h : jsstring),
    nth_error headers i = Some h -> h <> [] ->
    col <= i < col + List.length cells ->
    In h (map fst (fill_row headers col cells rowData)).
Proof.
  intros headers cells. induction cells as [|cell rest IH];
    intros col rowData i h Hh Hne Hi; [simpl in Hi; lia|].
  cbn [fill_row]. destruct (Nat.eq_dec i col) as [->|Hneq].
  - rewrite Hh. destruct h as [|c r]; [congruence|].
    apply fill_row_keeps_keys. apply obj_set_keys. now left.
  - apply IH with (i := i); [exact Hh | exact Hne |].
    simpl in Hi. lia.
Qed.

Lemma fill_row_filled :
  forall (headers cells : list jsstring) (col : nat) (rowData : jsobj),
    forallb (fun cell => Processor.nonempty (trim cell)) cells = true ->
    filled rowData = true ->
    filled (fill_row headers col cells rowData) = true.
Proof.
  intros headers cells. induction cells as [|cell rest IH];
    intros col rowData Hc Hr; [exact Hr|].
  simpl in Hc. apply andb_true_iff in Hc as [Hcell Hc].
  cbn [fill_row]. apply IH; [exact Hc|].
  destruct (nth_error headers col) as [[|c r]|]; try exact Hr.
  apply obj_set_filled; [exact Hr|].
  unfold Processor.nonempty in Hcell. destruct (trim cell);
    [discriminate | discriminate].
Qed.

Lemma existsb_includes_key :
  forall (E : JsEngine) (record : jsobj) (h w : jsstring),
    In h (map fst record) ->
    includes (toLowerCase h) w = true ->
    existsb (fun f => includes f w)
            (map (fun kv => toLowerCase (fst kv)) record) = true.
Proof.
  intros E record h w Hin Hw. apply existsb_exists.
  exists (toLowerCase h). split; [|exact Hw].
  apply in_map_iff in Hin as (kv & <- & Hkv).
  apply in_map_iff. now exists kv.
Qed.

Lemma header_of_cell :
  forall (E : JsEngine) (cells : list jsstring) (w : jsstring),
    toLowerCase [] = [] ->
    includes [] w = false ->
    some_includes (map (fun c => toLowerCase (trim c)) cells) w = true ->
    exists i h,
      nth_error (map trim cells) i = Some h /\ h <> []
      /\ i < List.length cells /\ includes (toLowerCase h) w = true.
Proof.
  intros E cells w Hlow Hw H. unfold some_includes in H.
  apply existsb_exists in H as (x & Hx & Hinc).
  apply in_map_iff in Hx as (c & <- & Hc).
  apply In_nth_error in Hc as (i & Hi).
  exists i, (trim c). repeat split.
  - now rewrite nth_error_map, Hi.
  - intros H0. rewrite H0, Hlow, Hw in Hinc. discriminate.
  - apply nth_error_Some. congruence.
  - exact Hinc.
Qed.

Lemma filled_some_value :
  forall (record : jsobj) (h : jsstring),
    In h (map fst record) -> filled record = true ->
    existsb (fun kv => Nat.ltb 0 (value_length (snd kv))) record = true.
Proof.
  intros [|kv record] h Hin Hf; [destruct Hin|].
  simpl in *. apply andb_true_iff in Hf as [Hf _]. now rewrite Hf.
Qed.

(** A full row of a target table is a valid record. *)
Lemma full_row_is_valid :
  forall (E : JsEngine) (t : Table) (row : list jsstring),
    toLowerCase [] = [] ->
    checkIfTargetTable t = true ->
    full_row (List.length (first_row_cells t)) row = true ->
    isValidRecord (fill_row (map trim (first_row_cells t)) 0 row []) = true.
Proof.
  intros E t row Hlow Ht Hrow.
  unfold checkIfTargetTable in Ht. cbv zeta in Ht.
  apply andb_true_iff in Ht as [_ Hcols].
  apply andb_true_iff in Hcols as [Hname Hid].
  unfold full_row in Hrow.
  apply andb_true_iff in Hrow as [Hrow Hcells].
  apply andb_true_iff in Hrow as [Hlen _]. apply Nat.leb_le in Hlen.
  set (record := fill_row (map trim (first_row_cells t)) 0 row []).
  assert (Hfilled : filled record = true).
  { apply fill_row_filled; [exact Hcells | reflexivity]. }
  assert (Hkey : forall w,
             includes [] w = false ->
             some_includes (map (fun c => toLowerCase (trim c))
                                (first_row_cells t)) w = true ->
             exists h, In h (map fst record)
                       /\ includes (toLowerCase h) w = true).
  { intros w Hw Hs.
    destruct (header_of_cell E _ _ Hlow Hw Hs) as (i & h & Hi & Hne & Hlt & Hinc).
    exists h. split; [|exact Hinc].
    apply fill_row_keys with (i := i); [exact Hi | exact Hne | lia]. }
  destruct (Hkey (js "姓名") eq_refl Hname) as (hn & Hin_n & Hinc_n).
  unfold isValidRecord. cbv zeta. fold record.
  apply andb_true_iff. split; [apply andb_true_iff; split|].
  - apply existsb_exists. exists (toLowerCase hn). split.
    + apply in_map_iff in Hin_n as (kv & <- & Hkv).
      apply in_map_iff. now exists kv.
    + now rewrite Hinc_n.
  - apply orb_true_iff in Hid as [Hid|Hid].
    + destruct (Hkey (js "身分證") eq_refl Hid) as (hi & Hin_i & Hinc_i).
      apply existsb_exists. exists (toLowerCase hi). split.
      * apply in_map_iff in Hin_i as (kv & <- & Hkv).
        apply in_map_iff. now exists kv.
      * now rewrite Hinc_i.
    + destruct (Hkey (js "車號") eq_refl Hid) as (hi & Hin_i & Hinc_i).
      apply existsb_exists. exists (toLowerCase hi). split.
      * apply in_map_iff in Hin_i as (kv & <- & Hkv).
        apply in_map_iff. now exists kv.
      * rewrite Hinc_i. now rewrite !orb_true_r.
  - now apply filled_some_value with (h := hn).
Qed.

Lemma parse_rows_full :
  forall (E : JsEngine) (url : jsstring) (clock : nat -> Z) (t : Table)
         (rows : list (list jsstring)) (results : list jsobj),
    toLowerCase [] = [] ->
    checkIfTargetTable t = true ->
    forallb (full_row (List.length (first_row_cells t))) rows = true ->
    List.length (parse_rows url clock (map trim (first_row_cells t)) rows
                            results)
    = List.length results + List.length rows.
Proof.
  intros E url clock t rows. induction rows as [|row rows IH];
    intros results Hlow Ht Hrows; simpl; [lia|].
  simpl in Hrows. apply andb_true_iff in Hrows as [Hrow Hrows].
  rewrite (full_row_is_valid E t row Hlow Ht Hrow).
  rewrite IH by assumption. rewrite length_app. simpl. lia.
Qed.

(** X28: no full row of a target table is lost.  When every data row of
    a target table has a cell for each column and no blank cell,
    [tableCrawler] returns one record for each data row (on an engine
    whose case mapping leaves the empty string empty). *)
Theorem full_rows_are_all_returned :
  forall (E : JsEngine) (url : jsstring) (clock : nat -> Z) (t : Table),
    toLowerCase [] = [] ->
    checkIfTargetTable t = true ->
    forallb (full_row (List.length (first_row_cells t))) (other_rows t)
    = true ->
    exists rs,
      tableCrawler url clock (Ok [t]) = Ok rs
      /\ List.length rs = List.length (other_rows t).
Proof.
  intros E url clock t Hlow Ht Hrows. eexists. split; [reflexivity|].
  simpl. unfold parse_table. rewrite Ht.
  now rewrite (parse_rows_full E url clock t (other_rows t) [] Hlow Ht Hrows).
Qed.

Lemma full_rows_are_all_returned_witness :
  exists rs,
    @tableCrawler ExampleEngine.utc (js "https://tcmvd.thb.gov.tw/")
       (fun _ => 0%Z) (Ok [filled_table]) = Ok rs
    /\ List.length rs = List.length (other_rows filled_table).
Proof.
  apply (@full_rows_are_all_returned ExampleEngine.utc
           (js "https://tcmvd.thb.gov.tw/") (fun _ => 0%Z)
           filled_table); vm_compute; reflexivity.
Defined.

End FullRowFacts.


(** ** The image crawler on any page *)

Section ImageFacts.
Import AiService ImagePage TableShape.

Lemma next_throw :
  forall (E : JsEngine) url origin download m draw clock
         (images : list Img) (message : jsstring),
    fold_left (next url origin download m draw clock) images (Throw message)
    = Throw message.
Proof.
  intros. induction images as [|img images IH]; simpl; [reflexivity|exact IH].
Qed.

Lemma look_all_app :
  forall (E : JsEngine) url origin download m draw clock
         (a b : list Img) (st : loop_state),
    look_all url origin download m draw clock (a ++ b) st
    = match look_all url origin download m draw clock a st with
      | Ok st' => look_all url origin download m draw clock b st'
      | Throw message => Throw message
      end.
Proof.
  intros. unfold look_all. rewrite fold_left_app.
  destruct (fold_left _ a (Ok st)) as [st'|message]; [reflexivity|].
  apply next_throw.
Qed.

Lemma typedRecord_fields :
  forall (record : jsobj) (url imgUrl : jsstring) (now : Z),
    get (ImageCrawler.typedRecord record url imgUrl now) (js "sourceUrl")
    = JStr url
    /\ get (ImageCrawler.typedRecord record url imgUrl now) (js "imageUrl")
       = JStr imgUrl
    /\ get (ImageCrawler.typedRecord record url imgUrl now) (js "crawlTime")
       = JStr (toISOString now).
Proof.
  intros record url imgUrl now. unfold ImageCrawler.typedRecord.
  repeat split.
  - rewrite get_obj_set_other by reflexivity.
    rewrite get_obj_set_other by reflexivity. apply get_obj_set_same.
  - rewrite get_obj_set_other by reflexivity. apply get_obj_set_same.
  - apply get_obj_set_same.
Qed.

Lemma traced_weaken :
  forall (E : JsEngine) url origin clock (pool pool' : list Img) results,
    (forall img, In img pool -> In img pool') ->
    traced url origin clock pool results ->
    traced url origin clock pool' results.
Proof.
  intros E url origin clock pool pool' results Hsub H i r Hi.
  destruct (H i r Hi) as (H1 & H2 & img & u & Hin & Hp & Ha & Hu).
  split; [exact H1|]. split; [exact H2|].
  exists img, u. repeat split; auto.
Qed.

Lemma push_all_traced :
  forall (E : JsEngine) url origin clock (pool : list Img) (img : Img)
         (u : jsstring) (extractedData results : list jsobj),
    In img pool -> isPotentialOffenderImage img = true ->
    address origin img = Some u ->
    traced url origin clock pool results ->
    traced url origin clock pool (push_all url clock u extractedData results).
Proof.
  intros E url origin clock pool img u extractedData.
  induction extractedData as [|record rest IH];
    intros results Hin Hp Ha H; [exact H|].
  cbn [push_all]. apply IH; try assumption.
  intros i r Hi.
  destruct (Nat.lt_ge_cases i (List.length results)) as [Hlt|Hge].
  - rewrite nth_error_app1 in Hi by exact Hlt. now apply H.
  - rewrite nth_error_app2 in Hi by exact Hge.
    destruct (i - List.length results) as [|j] eqn:Hj; simpl in Hi;
      [|destruct j; discriminate].
    inversion Hi; subst r; clear Hi.
    assert (i = List.length results) by lia. subst i.
    destruct (typedRecord_fields record url u (clock (List.length results)))
      as (F1 & F2 & F3).
    split; [exact F1|]. split; [exact F3|].
    exists img, u. repeat split; assumption.
Qed.

Lemma look_traced :
  forall (E : JsEngine) url origin download m draw clock
         (pool : list Img) (img : Img) (processed : list jsstring)
         (results : list jsobj),
    In img pool ->
    traced url origin clock pool results ->
    match look url origin download m draw clock (processed, results) img with
    | Ok (_, results') => traced url origin clock pool results'
    | Throw _ => exists message, origin = Throw message
    end.
Proof.
  intros E url origin download m draw clock pool img processed results
         Hin H.
  unfold look.
  destruct (src img) as [[|c r]|] eqn:Hsrc; try exact H.
  destruct (resolve origin (c :: r)) as [imgUrl|message] eqn:Hres.
  - destruct (existsb (str_eqb imgUrl) processed); [exact H|].
    cbv zeta.
    destruct (isPotentialOffenderImage img) eqn:Hp; [|exact H].
    destruct (download imgUrl) as [[|p ath]|]; try exact H.
    destruct (extractTextFromImage m (draw imgUrl) (p :: ath))
      as [extractedData|]; [|exact H].
    apply push_all_traced with (img := img); try assumption.
    unfold address. now rewrite Hsrc, Hres.
  - unfold resolve in Hres.
    destruct (startsWith (c :: r) (js "/")
              || negb (startsWith (c :: r) (js "http"))); [|discriminate].
    destruct origin as [o|msg]; [discriminate|]. now exists msg.
Qed.

Lemma look_all_traced :
  forall (E : JsEngine) url origin download m draw clock
         (pool images : list Img) (st : loop_state),
    (forall img, In img images -> In img pool) ->
    traced url origin clock pool (snd st) ->
    match look_all url origin download m draw clock images st with
    | Ok (_, results') => traced url origin clock pool results'
    | Throw _ => exists message, origin = Throw message
    end.
Proof.
  intros E url origin download m draw clock pool images.
  induction images as [|img images IH]; intros [processed results] Hsub H.
  - exact H.
  - change (img :: images) with ([img] ++ images). rewrite look_all_app.
    unfold look_all at 1. cbn [fold_left next app].
    pose proof (@look_traced E url origin download m draw clock pool img
                  processed results (Hsub img (or_introl eq_refl)) H) as Hl.
    destruct (look url origin download m draw clock (processed, results) img)
      as [[processed' results']|message]; [|exact Hl].
    apply IH; [|exact Hl]. intros x Hx. apply Hsub. now right.
Qed.

(** X29: every record [imageCrawler] returns carries the address of the
    page under [sourceUrl], the clock reading taken for it under
    [crawlTime], and under [imageUrl] the address of an image of the page
    that passed [isPotentialOffenderImage]; and the crawler throws, once
    the page is fetched, only when the address of the page is not a URL
    (an image with a relative address then has no origin to stand
    after).  A download or an extraction that fails loses that image's
    records only. *)
Theorem imageCrawler_traces_every_record :
  forall (E : JsEngine) (url : jsstring) (origin : result jsstring)
         (downloadImage : jsstring -> option jsstring) (m : ModuleState)
         (draw : jsstring -> Entropy) (clock : nat -> Z)
         (images : list Img),
    match imageCrawler url origin downloadImage m draw clock (Ok images) with
    | Ok results =>
        forall i r,
          nth_error results i = Some r ->
          get r (js "sourceUrl") = JStr url
          /\ get r (js "crawlTime") = JStr (toISOString (clock i))
          /\ exists img u,
               In img images /\ isPotentialOffenderImage img = true
               /\ address origin img = Some u
               /\ get r (js "imageUrl") = JStr u
    | Throw _ => exists message, origin = Throw message
    end.
Proof.
  intros E url origin downloadImage m draw clock images.
  unfold imageCrawler.
  assert (H0 : traced url origin clock images (snd (@nil jsstring, @nil jsobj))).
  { intros i r Hi. destruct i; discriminate. }
  pose proof (@look_all_traced E url origin downloadImage m draw clock
                images images ([], []) (fun img H => H) H0) as H.
  destruct (look_all url origin downloadImage m draw clock images ([], []))
    as [[processed results]|message]; exact H.
Qed.

Lemma seen_str : forall (u : jsstring) (l : list jsstring),
    existsb (str_eqb u) l = true <-> In u l.
Proof.
  intros u l. rewrite existsb_exists. split.
  - intros (x & Hx & He). apply str_eqb_eq in He. now subst.
  - intros H. exists u. split; [exact H | apply str_eqb_refl].
Qed.

Lemma look_processed :
  forall (E : JsEngine) url origin download m draw clock
         (img : Img) (processed processed' : list jsstring)
         (results results' : list jsobj),
    look url origin download m draw clock (processed, results) img
    = Ok (processed', results') ->
    (forall x, In x processed -> In x processed')
    /\ forall u, address origin img = Some u -> In u processed'.
Proof.
  intros E url origin download m draw clock img processed processed'
         results results'.
  unfold look, address.
  destruct (src img) as [[|c r]|];
    try (intros H; inversion H; subst; split; [auto | discriminate]).
  destruct (resolve origin (c :: r)) as [imgUrl|message]; [|discriminate].
  destruct (existsb (str_eqb imgUrl) processed) eqn:Hseen.
  - intros H. inversion H; subst. split; [auto|].
    intros u Hu. inversion Hu; subst. now apply seen_str.
  - cbv zeta.
    assert (Hgoal : forall res,
               Ok (imgUrl :: processed, res) = Ok (processed', results') ->
               (forall x, In x processed -> In x processed')
               /\ forall u, Some imgUrl = Some u -> In u processed').
    { intros res H. inversion H; subst. split.
      - intros x Hx. now right.
      - intros u Hu. inversion Hu. now left. }
    destruct (isPotentialOffenderImage img); [|apply Hgoal].
    destruct (download imgUrl) as [[|p ath]|]; try apply Hgoal.
    destruct (extractTextFromImage m (draw imgUrl) (p :: ath));
      apply Hgoal.
Qed.

Lemma look_all_processed :
  forall (E : JsEngine) url origin download m draw clock
         (images : list Img) (st st' : loop_state),
    look_all url origin download m draw clock images st = Ok st' ->
    (forall x, In x (fst st) -> In x (fst st'))
    /\ forall img u, In img images -> address origin img = Some u ->
                     In u (fst st').
Proof.
  intros E url origin download m draw clock images.
  induction images as [|img images IH]; intros [processed results] st' H.
  - unfold look_all in H. simpl in H. inversion H; subst.
    split; [auto | intros img u []].
  - change (img :: images) with ([img] ++ images) in H.
    rewrite look_all_app in H. unfold look_all at 1 in H.
    cbn [fold_left next app] in H.
    destruct (look url origin download m draw clock (processed, results) img)
      as [[processed1 results1]|message] eqn:Hl; [|discriminate].
    destruct (@look_processed E _ _ _ _ _ _ _ _ _ _ _ Hl) as [Hsub1 Hadd1].
    destruct (IH _ _ H) as [Hsub2 Hadd2]. split.
    + intros x Hx. apply Hsub2. simpl. apply Hsub1. exact Hx.
    + intros img' u [<-|Hin] Ha.
      * apply Hsub2. simpl. now apply Hadd1.
      * now apply Hadd2 with (img := img').
Qed.

(** X30: an address is processed once, and judged by its first image.
    An image whose address was already met on the page is passed over,
    whatever its [alt] or the text around it: the page gives the same
    result without it. *)
Theorem repeated_image_is_passed_over :
  forall (E : JsEngine) (url : jsstring) (origin : result jsstring)
         (downloadImage : jsstring -> option jsstring) (m : ModuleState)
         (draw : jsstring -> Entropy) (clock : nat -> Z)
         (before after : list Img) (img first : Img) (u : jsstring),
    In first before ->
    address origin first = Some u ->
    address origin img = Some u ->
    imageCrawler url origin downloadImage m draw clock
                 (Ok (before ++ img :: after))
    = imageCrawler url origin downloadImage m draw clock
                   (Ok (before ++ after)).
Proof.
  intros E url origin downloadImage m draw clock before after img first u
         Hin Hfirst Himg.
  unfold imageCrawler. rewrite !look_all_app.
  destruct (look_all url origin downloadImage m draw clock before ([], []))
    as [[processed results]|message] eqn:Hb; [|reflexivity].
  destruct (@look_all_processed E _ _ _ _ _ _ _ _ _ Hb) as [_ Hadd].
  pose proof (Hadd first u Hin Hfirst) as Hu. simpl in Hu.
  change (img :: after) with ([img] ++ after). rewrite look_all_app.
  unfold look_all at 1. cbn [fold_left next app].
  assert (Hskip : look url origin downloadImage m draw clock
                       (processed, results) img = Ok (processed, results)).
  { unfold look. unfold address in Himg.
    destruct (src img) as [[|c r]|]; try discriminate.
    destruct (resolve origin (c :: r)) as [imgUrl|]; [|discriminate].
    inversion Himg; subst.
    now rewrite (proj2 (seen_str u processed) Hu). }
  now rewrite Hskip.
Qed.

Lemma repeated_image_is_passed_over_witness :
  @imageCrawler ExampleEngine.utc (js "https://tcmvd.thb.gov.tw/news")
     (Ok (js "https://tcmvd.thb.gov.tw")) (fun u => Some (js "/tmp/img.jpg"))
     unconfigured (fun _ => Scenario.quiet) (fun _ => 0%Z)
     (Ok ([plain_banner] ++ same_banner :: [list_image]))
  = @imageCrawler ExampleEngine.utc (js "https://tcmvd.thb.gov.tw/news")
      (Ok (js "https://tcmvd.thb.gov.tw")) (fun u => Some (js "/tmp/img.jpg"))
      unconfigured (fun _ => Scenario.quiet) (fun _ => 0%Z)
      (Ok ([plain_banner] ++ [list_image])).
Proof.
  apply (@repeated_image_is_passed_over ExampleEngine.utc
           (js "https://tcmvd.thb.gov.tw/news")
           (Ok (js "https://tcmvd.thb.gov.tw"))
           (fun u => Some (js "/tmp/img.jpg"))
           unconfigured (fun _ => Scenario.quiet) (fun _ => 0%Z)
           [plain_banner] [list_image] same_banner plain_banner
           (js "https://tcmvd.thb.gov.tw/upload/banner.jpg")).
  - now left.
  - vm_compute. reflexivity.
  - vm_compute. reflexivity.
Defined.

End ImageFacts.
